(** * Kubescape lifecycle manager (node-kubescape): a shallow embedding

    The TypeScript sources are embedded function by function.  Strings are
    [string]; the catalog object is a [gmap string KubescapeFramework];
    subprocesses, network, file system and the UI are an explicit [World]
    that answers requests, and every interaction is appended to a trace. *)

From stdpp Require Import gmap strings list fin_maps.
From Stdlib Require Import ZArith Ascii String Lia DecimalString.

Set Warnings "-register-all".

Open Scope string_scope.
Open Scope Z_scope.
Open Scope list_scope.

(** ** JavaScript strings *)

Module JsString.

(** [s.startsWith(p)] *)
Definition startsWith (s p : string) : bool := String.prefix p s.

(** [s.endsWith(p)] *)
Definition endsWith (s p : string) : bool :=
  let n := String.length s in
  let k := String.length p in
  (k <=? n)%nat && String.eqb (String.substring (n - k) k s) p.

(** position of the first occurrence of [p] in [s], if any *)
Fixpoint find (p s : string) : option nat :=
  if String.prefix p s then Some O
  else match s with
       | EmptyString => None
       | String _ s' => option_map S (find p s')
       end.

(** position of the last occurrence of [p] in [s], if any *)
Fixpoint findLast (p s : string) : option nat :=
  match s with
  | EmptyString => if String.prefix p s then Some O else None
  | String _ s' =>
      match findLast p s' with
      | Some n => Some (S n)
      | None => if String.prefix p s then Some O else None
      end
  end.

(** [s.indexOf(p)]: -1 when absent *)
Definition indexOf (s p : string) : Z :=
  match find p s with Some n => Z.of_nat n | None => -1 end.

(** [s.lastIndexOf(p)]: -1 when absent *)
Definition lastIndexOf (s p : string) : Z :=
  match findLast p s with Some n => Z.of_nat n | None => -1 end.

(** [s.substring(a, b)]: both ends clamped to [0, length], swapped when
    out of order *)
Definition substring (s : string) (a b : Z) : string :=
  let len := Z.of_nat (String.length s) in
  let a' := Z.min (Z.max a 0) len in
  let b' := Z.min (Z.max b 0) len in
  let lo := Z.min a' b' in
  let hi := Z.max a' b' in
  String.substring (Z.to_nat lo) (Z.to_nat (hi - lo)) s.

(** [s.slice(n)] for [0 <= n] *)
Definition sliceFrom (s : string) (n : nat) : string :=
  String.substring n (String.length s - n) s.

(** [s.split(sep)] for a non-empty separator *)
Fixpoint split_go (sep s : string) (skip : nat) (cur : string) : list string :=
  match s with
  | EmptyString => [cur]
  | String c s' =>
      match skip with
      | S k => split_go sep s' k cur
      | O =>
          if String.prefix sep s
          then cur :: split_go sep s' (String.length sep - 1) EmptyString
          else split_go sep s' O (cur +:+ String c EmptyString)
      end
  end.

Definition split (s sep : string) : list string := split_go sep s O EmptyString.

(** The replacement text of [String.prototype.replace] with a string
    pattern (ECMAScript GetSubstitution without captures): [$$] is a
    dollar, [$&] the match, [$`] the text before it, [$'] the text after
    it; every other character, a lone dollar included, stands for itself. *)
Fixpoint getSubstitution (matched before after t : string) : string :=
  match t with
  | EmptyString => EmptyString
  | String c t' =>
      if Ascii.eqb c "$" then
        match t' with
        | EmptyString => String c EmptyString
        | String d r =>
            if Ascii.eqb d "$" then String "$" (getSubstitution matched before after r)
            else if Ascii.eqb d "&" then matched +:+ getSubstitution matched before after r
            else if Ascii.eqb d "`" then before +:+ getSubstitution matched before after r
            else if Ascii.eqb d "'" then after +:+ getSubstitution matched before after r
            else String c (getSubstitution matched before after t')
        end
      else String c (getSubstitution matched before after t')
  end.

(** [s.replace(from, to)] with a string pattern: only the first
    occurrence of [from] is replaced. *)
Definition replace (s from to : string) : string :=
  match find from s with
  | None => s
  | Some i =>
      let before := String.substring 0 i s in
      let after := sliceFrom s (i + String.length from) in
      before +:+ getSubstitution from before after to +:+ after
  end.

(** [l.join(sep)] *)
Fixpoint join (sep : string) (l : list string) : string :=
  match l with
  | [] => EmptyString
  | [x] => x
  | x :: r => x +:+ sep +:+ join sep r
  end.

Definition isDigit (c : ascii) : bool :=
  let n := nat_of_ascii c in (48 <=? n)%nat && (n <=? 57)%nat.

(** the longest prefix of digits, and the rest *)
Fixpoint spanDigits (s : string) : string * string :=
  match s with
  | EmptyString => (EmptyString, EmptyString)
  | String c s' =>
      if isDigit c
      then let '(d, r) := spanDigits s' in (String c d, r)
      else (EmptyString, s)
  end.

(** line terminators, which the regular expression dot does not match *)
Definition isLineTerminator (c : ascii) : bool :=
  let n := nat_of_ascii c in (n =? 10)%nat || (n =? 13)%nat.

(** the longest prefix without a line terminator *)
Fixpoint spanLine (s : string) : string :=
  match s with
  | EmptyString => EmptyString
  | String c s' => if isLineTerminator c then EmptyString else String c (spanLine s')
  end.

(** white space and line terminators among the code units below 256,
    which [trimEnd] strips *)
Definition isWhiteSpace (c : ascii) : bool :=
  let n := nat_of_ascii c in
  ((9 <=? n)%nat && (n <=? 13)%nat) || (n =? 32)%nat || (n =? 160)%nat.

(** [s.trimEnd()] *)
Fixpoint trimEnd (s : string) : string :=
  match s with
  | EmptyString => EmptyString
  | String c s' =>
      match trimEnd s' with
      | EmptyString => if isWhiteSpace c then EmptyString else String c EmptyString
      | String d t => String c (String d t)
      end
  end.

End JsString.

(** ** JavaScript values *)

(** A JavaScript number, carried by the two observations this program makes
    of one: its [ToString] text and its truthiness. *)
Record JsNumber := mkJsNumber { num_toString : string; num_truthy : bool }.

(** what [JSON.parse] and property access can produce *)
Inductive JsValue :=
| JUndefined
| JNull
| JBool (b : bool)
| JNum (n : JsNumber)
| JStr (s : string)
| JArr (l : list JsValue)
| JObj (fields : list (string * JsValue)).

Inductive JsError :=
| JsErr (msg : string)                 (* new Error(msg) *)
| JsTypeError (what : string)          (* property of undefined, not a function *)
| JsUriError                           (* decodeURIComponent on a malformed string *)
| JsReason (msg : string)              (* a promise rejected with a plain string *)
| JsSysError (op target : string)      (* a failed file-system or network call *)
| JsSyntaxError                        (* JSON.parse on malformed text *)
| JsStalled.                           (* no exception: a stream that neither ends nor fails *)

Module Js.

(** ToBoolean *)
Definition truthy (v : JsValue) : bool :=
  match v with
  | JUndefined | JNull => false
  | JBool b => b
  | JNum n => num_truthy n
  | JStr s => negb (String.eqb s EmptyString)
  | JArr _ | JObj _ => true
  end.

Fixpoint assoc (k : string) (l : list (string * JsValue)) : JsValue :=
  match l with
  | [] => JUndefined
  | (k', v) :: r => if String.eqb k k' then v else assoc k r
  end.

(** [v.k] for a property name [k] that no prototype provides ([name],
    [path], [artifact], [controls], [tag_name], [html_url],
    [summaryDetails]): the own property of an object, [undefined] on
    other values, a TypeError on [undefined] and [null]. *)
Definition get (v : JsValue) (k : string) : JsError + JsValue :=
  match v with
  | JUndefined | JNull => inl (JsTypeError k)
  | JObj fields => inr (assoc k fields)
  | _ => inr JUndefined
  end.

(** ToString, as template literals and [Array.prototype.join] apply it *)
Fixpoint toString (v : JsValue) : string :=
  match v with
  | JUndefined => "undefined"
  | JNull => "null"
  | JBool true => "true"
  | JBool false => "false"
  | JNum n => num_toString n
  | JStr s => s
  | JArr l =>
      JsString.join ","
        (List.map (fun x => match x with
                            | JUndefined | JNull => EmptyString
                            | _ => toString x
                            end) l)
  | JObj _ => "[object Object]"
  end.

(** [v == s] for a string [s] that is not numeric: a string compares by
    its text, an array or object by its ToString; a number, a boolean,
    [null] and [undefined] never equal it. *)
Definition looseEqString (v : JsValue) (s : string) : bool :=
  match v with
  | JStr t => String.eqb t s
  | JArr _ | JObj _ => String.eqb (toString v) s
  | _ => false
  end.

(** [v === s] and [v !== s] for a string [s] *)
Definition strictEqString (v : JsValue) (s : string) : bool :=
  match v with
  | JStr t => String.eqb t s
  | _ => false
  end.

End Js.

(** ** The host: platform constants and built-ins the program calls *)

Class Host := {
  os_platform : string;                      (* os.platform(), process.platform *)
  os_arch : string;                          (* os.arch() *)
  os_homedir : string;
  os_tmpdir : string;
  path_sep : string;
  process_env : list (string * string);      (* in Object.keys(process.env) order *)
  path_normalize : string -> string;
  path_join : string -> string -> string;
  path_resolve : string -> string;
  path_resolve2 : string -> string -> string;
  decodeURIComponent : string -> option string;   (* None: URIError *)
  JSON_parse : string -> option JsValue;          (* None: SyntaxError *)
  toLocaleLowerCase : string -> string;
}.

(** [process.env[k]] *)
Fixpoint env_lookup (k : string) (env : list (string * string)) : option string :=
  match env with
  | [] => None
  | (k', v) :: r => if String.eqb k k' then Some v else env_lookup k r
  end.

(** ** Regular expressions of the program *)

Module Regex.
Import JsString.

(** [/v\d+\.\d+\.\d+/] anchored at the start of [s]: the matched text *)
Definition versionAt (s : string) : option string :=
  match s with
  | String c r =>
      if Ascii.eqb c "v" then
        let '(d1, r1) := spanDigits r in
        match d1, r1 with
        | String _ _, String p1 r2 =>
            if Ascii.eqb p1 "." then
              let '(d2, r3) := spanDigits r2 in
              match d2, r3 with
              | String _ _, String p2 r4 =>
                  if Ascii.eqb p2 "." then
                    let '(d3, _) := spanDigits r4 in
                    match d3 with
                    | String _ _ => Some ("v" +:+ d1 +:+ "." +:+ d2 +:+ "." +:+ d3)
                    | EmptyString => None
                    end
                  else None
              | _, _ => None
              end
            else None
        | _, _ => None
        end
      else None
  | EmptyString => None
  end.

(** [s.match(/v\d+\.\d+\.\d+/g)]: [match[0]], the leftmost match, or
    [None] when [match] is null *)
Fixpoint firstVersion (s : string) : option string :=
  match versionAt s with
  | Some v => Some v
  | None => match s with
            | EmptyString => None
            | String _ s' => firstVersion s'
            end
  end.

Definition frameworkTag : string := "'framework'".

(** [s.match(/\'framework'.+/g)]: every match, left to right; the empty
    list stands for null *)
Fixpoint frameworkLines_go (s : string) (skip : nat) : list string :=
  match s with
  | EmptyString => []
  | String _ s' =>
      match skip with
      | S k => frameworkLines_go s' k
      | O =>
          if String.prefix frameworkTag s then
            let ln := spanLine (sliceFrom s (String.length frameworkTag)) in
            match ln with
            | EmptyString => frameworkLines_go s' O
            | String _ _ =>
                (frameworkTag +:+ ln)
                  :: frameworkLines_go s' (String.length frameworkTag + String.length ln - 1)
            end
          else frameworkLines_go s' O
      end
  end.

Definition frameworkLines (s : string) : list string := frameworkLines_go s O.

Definition starTag : string := "* ".

(** [s.match(/\* .+\n/g)]: every match, left to right; the empty list
    stands for null.  The dot takes the rest of the line, which has to be
    non-empty and to end in a line feed. *)
Fixpoint starLines_go (s : string) (skip : nat) : list string :=
  match s with
  | EmptyString => []
  | String _ s' =>
      match skip with
      | S k => starLines_go s' k
      | O =>
          if String.prefix starTag s then
            let rest := sliceFrom s (String.length starTag) in
            let ln := spanLine rest in
            match ln, sliceFrom rest (String.length ln) with
            | String _ _, String c _ =>
                if (nat_of_ascii c =? 10)%nat
                then (starTag +:+ ln +:+ String c EmptyString)
                       :: starLines_go s' (String.length starTag + String.length ln)
                else starLines_go s' O
            | _, _ => starLines_go s' O
            end
          else starLines_go s' O
      end
  end.

Definition starLines (s : string) : list string := starLines_go s O.

End Regex.

(** ** Integral Numbers: what [parseInt] gives and how it prints *)

Module JsInt.

(** a finite integral value of a Number or an infinity; the sign of a zero
    shows in no comparison and in no text *)
Inductive t := Fin (z : Z) | Inf (negative : bool).

(** the Number nearest to a natural number: 53 significant bits, a tie
    goes to the even neighbour *)
Definition round53 (n : Z) : Z :=
  if n <? 2 ^ 53 then n
  else
    let e := Z.log2 n - 52 in
    let q := Z.shiftr n e in
    let r := n - Z.shiftl q e in
    let half := Z.shiftl 1 (e - 1) in
    if (half <? r) || ((r =? half) && Z.odd q)
    then Z.shiftl (q + 1) e
    else Z.shiftl q e.

(** the Number of a natural number; what rounds to [2^1024] is infinite *)
Definition ofNatural (n : Z) : t :=
  let v := round53 n in
  if 2 ^ 1024 <=? v then Inf false else Fin v.

Definition opp (x : t) : t :=
  match x with
  | Fin z => Fin (- z)
  | Inf negative => Inf (negb negative)
  end.

(** [a < b], [a = b] or [a > b] *)
Definition compare (a b : t) : comparison :=
  match a, b with
  | Fin x, Fin y => (x ?= y)
  | Inf true, Inf true | Inf false, Inf false => Eq
  | Inf true, _ | Fin _, Inf false => Lt
  | Inf false, _ | Fin _, Inf true => Gt
  end.

Definition decimal (n : Z) : string := NilZero.string_of_int (Z.to_int n).

(** the number of decimal digits of a positive number *)
Definition digitCount (v : Z) : Z := Z.of_nat (String.length (decimal v)).

(** the digits [s] of the text of [v], with [10^(k-1) <= s < 10^k], for the
    least [k] at which some [s * 10^(n-k)] is the Number [v]; of two such
    [s] the one nearer to [v], and the even one of two equally near *)
Fixpoint shortest (fuel : nat) (k n v : Z) : Z :=
  match fuel with
  | O => v
  | S fuel' =>
      let unit := 10 ^ (n - k) in
      let lo := v / unit in
      let hi := lo + 1 in
      let okLo := round53 (lo * unit) =? v in
      let okHi := (hi <? 10 ^ k) && (round53 (hi * unit) =? v) in
      if okLo && okHi then
        let below := v - lo * unit in
        let above := hi * unit - v in
        if below <? above then lo
        else if above <? below then hi
        else if Z.even lo then lo else hi
      else if okLo then lo
      else if okHi then hi
      else shortest fuel' (k + 1) n v
  end.

Fixpoint zeros (n : nat) : string :=
  match n with
  | O => EmptyString
  | S n' => String "0" (zeros n')
  end.

(** Number::toString of a positive finite integral Number *)
Definition positiveToString (v : Z) : string :=
  let n0 := digitCount v in
  let '(s, n) := if round53 (10 ^ n0) =? v
                 then (1, n0 + 1)
                 else (shortest (Z.to_nat n0) 1 n0 v, n0) in
  let digits := decimal s in
  let k := Z.of_nat (String.length digits) in
  if n <=? 21 then digits +:+ zeros (Z.to_nat (n - k))
  else
    match digits with
    | String d EmptyString => String d EmptyString +:+ "e+" +:+ decimal (n - 1)
    | String d rest => String d EmptyString +:+ "." +:+ rest +:+ "e+" +:+ decimal (n - 1)
    | EmptyString => EmptyString
    end.

(** [String(x)] *)
Definition toString (x : t) : string :=
  match x with
  | Fin 0 => "0"
  | Fin (Zpos p) => positiveToString (Zpos p)
  | Fin (Zneg p) => "-" +:+ positiveToString (Zpos p)
  | Inf false => "Infinity"
  | Inf true => "-Infinity"
  end.

End JsInt.

(** ** compare-versions *)

Module Semver.
Import JsString.

Definition digitValue (c : ascii) : Z := Z.of_nat (nat_of_ascii c - 48).

Fixpoint digitsToZ (acc : Z) (s : string) : Z :=
  match s with
  | EmptyString => acc
  | String c s' => digitsToZ (acc * 10 + digitValue c) s'
  end.

(** [parseInt(v, 10)] on a text without white space: an optional minus
    sign and the longest run of digits after it; [None] is NaN *)
Definition parseInt (v : string) : option JsInt.t :=
  let '(negative, body) :=
    match v with
    | String c r => if Ascii.eqb c "-" then (true, r) else (false, v)
    | EmptyString => (false, v)
    end in
  match fst (spanDigits body) with
  | EmptyString => None
  | digits =>
      let x := JsInt.ofNatural (digitsToZ 0 digits) in
      Some (if negative then JsInt.opp x else x)
  end.

Definition isWildcard (s : string) : bool :=
  String.eqb s "*" || String.eqb s "x" || String.eqb s "X".

(** [tryParse]: the Number, or the text itself when [parseInt] gives NaN *)
Definition tryParse (v : string) : string + JsInt.t :=
  match parseInt v with
  | Some n => inr n
  | None => inl v
  end.

Definition ofComparison (c : comparison) : Z :=
  match c with
  | Lt => -1
  | Eq => 0
  | Gt => 1
  end.

(** [compareStrings]: two Numbers compare by value, two texts by their
    code units; a Number and a text compare as texts ([forceType]) *)
Definition compareStrings (a b : string) : Z :=
  if isWildcard a || isWildcard b then 0
  else
    match tryParse a, tryParse b with
    | inr x, inr y => ofComparison (JsInt.compare x y)
    | inl s, inl t => ofComparison (String.compare s t)
    | inr x, inl t => ofComparison (String.compare (JsInt.toString x) t)
    | inl s, inr y => ofComparison (String.compare s (JsInt.toString y))
    end.

(** [a[i] || '0'] *)
Definition orZero (x : option string) : string :=
  match x with
  | Some s => if String.eqb s EmptyString then "0" else s
  | None => "0"
  end.

(** [compareSegments]: the loop runs [Math.max(a.length, b.length)] times,
    and past the end of an array [a[i]] is [undefined] *)
Fixpoint compareSegments_go (n : nat) (a b : list (option string)) : Z :=
  match n with
  | O => 0
  | S n' =>
      let r := compareStrings (orZero (mjoin (head a))) (orZero (mjoin (head b))) in
      if r =? 0 then compareSegments_go n' (tail a) (tail b) else r
  end.

Definition compareSegments (a b : list (option string)) : Z :=
  compareSegments_go (Nat.max (List.length a) (List.length b)) a b.

(** The pattern of a version, matched without regard to case, piece by
    piece: any of [v ^ ~ < > =], then the major digits; then, each inside
    the one before, [.minor], [.patch] and after the patch an optional
    [.fourth], an optional [-prerelease] and an optional [+build]; then the
    end of the text.  Minor, patch and fourth are digits or one of [x], [*];
    prerelease and build are dot-separated runs of letters, digits and
    hyphens.  The captures are major, minor, patch, fourth and prerelease. *)

Definition isPrefixChar (c : ascii) : bool :=
  existsb (Ascii.eqb c) ["v"; "V"; "^"; "~"; "<"; ">"; "="]%char.

Fixpoint skipPrefix (s : string) : string :=
  match s with
  | String c r => if isPrefixChar c then skipPrefix r else s
  | EmptyString => s
  end.

Definition isWildcardChar (c : ascii) : bool :=
  existsb (Ascii.eqb c) ["x"; "X"; "*"]%char.

(** [([x*]|\d+)] at the start of [s]: the capture and what follows it *)
Definition segment (s : string) : option (string * string) :=
  match s with
  | String c r =>
      if isWildcardChar c then Some (String c EmptyString, r)
      else match spanDigits s with
           | (EmptyString, _) => None
           | (d, r') => Some (d, r')
           end
  | EmptyString => None
  end.

Definition isIdChar (c : ascii) : bool :=
  let n := nat_of_ascii c in
  isDigit c || ((65 <=? n)%nat && (n <=? 90)%nat) || ((97 <=? n)%nat && (n <=? 122)%nat)
  || Ascii.eqb c "-".

(** the longest prefix of [[\da-z\-]], and the rest *)
Fixpoint spanId (s : string) : string * string :=
  match s with
  | EmptyString => (EmptyString, EmptyString)
  | String c s' =>
      if isIdChar c
      then let '(d, r) := spanId s' in (String c d, r)
      else (EmptyString, s)
  end.

(** dot-separated runs of [[\da-z\-]] at the start of [s], as many as
    there are *)
Fixpoint identifiers (fuel : nat) (s : string) : option (string * string) :=
  match fuel with
  | O => None
  | S fuel' =>
      match spanId s with
      | (EmptyString, _) => None
      | (id, String c r) =>
          if Ascii.eqb c "."
          then match identifiers fuel' r with
               | Some (ids, r') => Some (id +:+ "." +:+ ids, r')
               | None => Some (id, String c r)
               end
          else Some (id, String c r)
      | (id, EmptyString) => Some (id, EmptyString)
      end
  end.

(** what may follow the patch: [.fourth], [-prerelease], [+build], and the
    end of the text *)
Definition afterPatch (r3 : string) : option (option string * option string) :=
  let '(fourth, r4) :=
    match r3 with
    | String c r =>
        if Ascii.eqb c "."
        then match segment r with
             | Some (f, r') => (Some f, r')
             | None => (None, r3)
             end
        else (None, r3)
    | EmptyString => (None, r3)
    end in
  let '(pre, r5) :=
    match r4 with
    | String c r =>
        if Ascii.eqb c "-"
        then match identifiers (S (String.length r)) r with
             | Some (p, r') => (Some p, r')
             | None => (None, r4)
             end
        else (None, r4)
    | EmptyString => (None, r4)
    end in
  let r6 :=
    match r5 with
    | String c r =>
        if Ascii.eqb c "+"
        then match identifiers (S (String.length r)) r with
             | Some (_, r') => r'
             | None => r5
             end
        else r5
    | EmptyString => r5
    end in
  match r6 with
  | EmptyString => Some (fourth, pre)
  | String _ _ => None
  end.

(** [validateAndParse]: the captures major, minor, patch and fourth, and
    the prerelease that [compareVersions] pops off them; [None] is the
    Error on a text that is not a version *)
Definition validateAndParse (version : string)
  : option (list (option string) * option string) :=
  match spanDigits (skipPrefix version) with
  | (EmptyString, _) => None
  | (major, EmptyString) => Some ([Some major; None; None; None], None)
  | (major, String c1 s1) =>
      if Ascii.eqb c1 "."
      then match segment s1 with
           | Some (minor, EmptyString) => Some ([Some major; Some minor; None; None], None)
           | Some (minor, String c2 s2) =>
               if Ascii.eqb c2 "."
               then match segment s2 with
                    | Some (patch, r3) =>
                        match afterPatch r3 with
                        | Some (fourth, pre) =>
                            Some ([Some major; Some minor; Some patch; fourth], pre)
                        | None => None
                        end
                    | None => None
                    end
               else None
           | None => None
           end
      else None
  end.

(** [compareVersions(v1, v2)]: -1, 0 or 1; [None] is the Error of
    [validateAndParse] on one of the two *)
Definition compareVersions (v1 v2 : string) : option Z :=
  match validateAndParse v1, validateAndParse v2 with
  | Some (n1, p1), Some (n2, p2) =>
      let r := compareSegments n1 n2 in
      Some (if negb (r =? 0) then r
            else match p1, p2 with
                 | Some a, Some b =>
                     compareSegments (List.map Some (split a "."))
                                     (List.map Some (split b "."))
                 | Some _, None => -1
                 | None, Some _ => 1
                 | None, None => 0
                 end)
  | _, _ => None
  end.

(** the argument the Error names: the first of the two that is not a
    version *)
Definition invalidArgument (v1 v2 : string) : string :=
  match validateAndParse v1 with
  | Some _ => v2
  | None => v1
  end.

End Semver.

(** ** Data model *)

Record KubescapeVersion := mkVersion { version : string; isLatest : bool }.

(** [new KubescapeVersion]: both constructor parameters at their defaults *)
Definition defaultKubescapeVersion : KubescapeVersion := mkVersion "unknown" true.

Record KubescapePath := mkPath { fullPath : string; baseDir : string }.

(** [location] is declared a string, and holds whatever value the parsed
    tool output had under [path] *)
Record KubescapeFramework := mkFramework {
  name : string;
  isInstalled : bool;
  location : JsValue
}.

Record IKubescapeConfig := mkConfig {
  config_version : string;
  frameworksDirectory : option string;
  baseDirectory : string;
  requiredFrameworks : option (list string);
  scanFrameworks : option (list string)
}.

(** the fields of the singleton [KubescapeApi]; [None] is [undefined] *)
Record KubescapeApi := mkApi {
  _isInitialized : bool;
  _isInstalled : bool;
  _path : option KubescapePath;
  _frameworkDir : option string;
  _versionInfo : option KubescapeVersion;
  _frameworks : option (gmap string KubescapeFramework)
}.

(** the private constructor *)
Definition newKubescapeApi : KubescapeApi :=
  mkApi false false None None None None.

Inductive AbortController := abortController.

(** ** The world outside: requests, answers and the trace *)

Inductive UiKind := UiInfo | UiError | UiDebug.

Record ExecOptions := mkExecOptions {
  opt_env : option (list (string * string));
  opt_maxBuffer : option N
}.

Definition noExecOptions : ExecOptions := mkExecOptions None None.

(** what the callback of [cp.exec] receives; [exec_finish] orders the
    callbacks of subprocesses that run at the same time *)
Record ExecResult := mkExec {
  exec_err : bool;
  exec_stdout : string;
  exec_stderr : string;
  exec_finish : nat
}.

(** the response of a streaming [fetch]; [resp_size] is
    [Number(headers.get('content-length'))], [None] for NaN *)
Record FetchResponse := mkResponse {
  resp_ok : bool;
  resp_hasBody : bool;
  resp_statusText : string;
  resp_status : string;
  resp_size : option nat
}.

(** how [stream.pipeline] ends: the body ends and the file is written, or
    one of the streams fails, or the body neither ends nor fails (a
    connection that drops without the response noticing) and the callback
    of the pipeline is never called *)
Inductive PipelineEnd :=
| PipeDone
| PipeFailed (e : JsError)
| PipeStalled.

(** [stream.pipeline] of the body into the file: the chunk lengths seen by
    the ['data'] listener, and how the pipeline ended *)
Record PipelineResult := mkPipeline {
  pipe_chunks : list nat;
  pipe_end : PipelineEnd
}.

Inductive Event :=
| EvUi (k : UiKind) (msg : string)
| EvProgressBegin (title : string) (cancel : option AbortController)
| EvProgress (num : nat) (den : option nat)
| EvSlow (title : string)
| EvConsoleError
| EvExec (cmd : string) (opts : ExecOptions) (r : ExecResult)
| EvSpawn (cmd : string) (r : ExecResult)
| EvExit (cmd : string)
| EvFetchJson (url : string) (r : option JsValue)
| EvFetch (url : string) (signal : bool) (r : JsError + FetchResponse)
| EvPipeline (file : string) (r : PipelineResult)
| EvMkdir (dir : string) (ok : bool)
| EvAccess (dir : string) (ok : bool)
| EvChmod (file : string) (ok : bool)
| EvUnlink (file : string)
| EvReaddir (dir : string) (r : option (list string))
| EvReadFile (file : string) (r : option string)
| EvRealpath (dir : string) (r : option string)
| EvMkdtemp (prefix : string) (r : option string)
| EvRm (dir : string)
| EvUuid (r : string)
| EvAbort.

Definition Trace := list Event.

(** The world answers every request as a function of all that happened
    before it. *)
Class World := {
  w_exec : Trace -> string -> ExecOptions -> ExecResult;
  w_fetchJson : Trace -> string -> option JsValue;
  w_fetch : Trace -> string -> bool -> JsError + FetchResponse;
  w_pipeline : Trace -> string -> PipelineResult;
  w_mkdir : Trace -> string -> bool;
  w_access : Trace -> string -> bool;
  w_chmod : Trace -> string -> bool;
  w_readdir : Trace -> string -> option (list string);
  w_readFile : Trace -> string -> option string;
  w_realpath : Trace -> string -> option string;
  w_mkdtemp : Trace -> string -> option string;
  w_uuid : Trace -> string
}.

(** subprocess invocations and network requests among the events *)
Definition isSubprocessEvent (e : Event) : bool :=
  match e with
  | EvExec _ _ _ | EvSpawn _ _ => true
  | _ => false
  end.

Definition isNetworkEvent (e : Event) : bool :=
  match e with
  | EvFetchJson _ _ | EvFetch _ _ _ => true
  | _ => false
  end.

(** ** The monad of the embedded code *)

(** How a piece of asynchronous code ends: it returns or resolves; it throws
    into its caller or rejects the promise the caller awaits; or the promise
    the caller awaits never settles, so that no [try] of the caller sees
    anything: an exception escaped inside a callback, or a stream stalled
    ([JsStalled]). *)
Inductive Outcome (A : Type) :=
| Ok (a : A)
| Rejected (e : JsError)
| Uncaught (e : JsError).

Arguments Ok {A} a.
Arguments Rejected {A} e.
Arguments Uncaught {A} e.

Record St := mkSt { api : KubescapeApi; trace : Trace }.

Definition M (A : Type) : Type := St -> Outcome A * St.

Definition ret {A} (a : A) : M A := fun st => (Ok a, st).

Definition bind {A B} (m : M A) (k : A -> M B) : M B :=
  fun st =>
    match m st with
    | (Ok a, st') => k a st'
    | (Rejected e, st') => (Rejected e, st')
    | (Uncaught e, st') => (Uncaught e, st')
    end.

Declare Scope js_scope.
Delimit Scope js_scope with js.
Notation "x <- m ;; k" := (bind m (fun x => k))
  (at level 100, m at next level, right associativity) : js_scope.
Notation "m ;; k" := (bind m (fun _ => k))
  (at level 100, right associativity) : js_scope.
Open Scope js_scope.

(** [throw e] in the caller's flow, [reject(e)] of the awaited promise *)
Definition throw {A} (e : JsError) : M A := fun st => (Rejected e, st).

(** [try { m } catch (e) { handler e }] *)
Definition tryCatch {A} (m : M A) (handler : JsError -> M A) : M A :=
  fun st =>
    match m st with
    | (Rejected e, st') => handler e st'
    | r => r
    end.

(** code that runs inside a callback of [cp.exec]: what it throws escapes *)
Definition inCallback {A} (m : M A) : M A :=
  fun st =>
    match m st with
    | (Rejected e, st') => (Uncaught e, st')
    | r => r
    end.

(** the awaited promise never settles *)
Definition never {A} (e : JsError) : M A := fun st => (Uncaught e, st).

(** [m] run to its end, with what it throws as a value *)
Definition attempt {A} (m : M A) : M (JsError + A) :=
  tryCatch (bind m (fun a => ret (inr a))) (fun e => ret (inl e)).

Definition liftE {A} (r : JsError + A) : M A :=
  match r with
  | inl e => throw e
  | inr a => ret a
  end.

Definition emit (e : Event) : M unit :=
  fun st => (Ok tt, mkSt (api st) (trace st ++ [e])).

Definition getApi : M KubescapeApi := fun st => (Ok (api st), st).

Definition modifyApi (f : KubescapeApi -> KubescapeApi) : M unit :=
  fun st => (Ok tt, mkSt (f (api st)) (trace st)).

(** a request: the world answers from the trace so far, and the request is
    recorded with its answer *)
Definition request {A} (ask : Trace -> A) (ev : A -> Event) : M A :=
  fun st =>
    let r := ask (trace st) in
    (Ok r, mkSt (api st) (trace st ++ [ev r])).

Fixpoint forEach {A} (l : list A) (body : A -> M unit) : M unit :=
  match l with
  | [] => ret tt
  | x :: r => body x ;; forEach r body
  end.

(** field updates of [this] *)
Definition set_isInitialized (b : bool) (a : KubescapeApi) : KubescapeApi :=
  mkApi b (_isInstalled a) (_path a) (_frameworkDir a) (_versionInfo a) (_frameworks a).
Definition set_isInstalled (b : bool) (a : KubescapeApi) : KubescapeApi :=
  mkApi (_isInitialized a) b (_path a) (_frameworkDir a) (_versionInfo a) (_frameworks a).
Definition set_path (p : KubescapePath) (a : KubescapeApi) : KubescapeApi :=
  mkApi (_isInitialized a) (_isInstalled a) (Some p) (_frameworkDir a) (_versionInfo a) (_frameworks a).
Definition set_frameworkDir (d : option string) (a : KubescapeApi) : KubescapeApi :=
  mkApi (_isInitialized a) (_isInstalled a) (_path a) d (_versionInfo a) (_frameworks a).
Definition set_versionInfo (v : KubescapeVersion) (a : KubescapeApi) : KubescapeApi :=
  mkApi (_isInitialized a) (_isInstalled a) (_path a) (_frameworkDir a) (Some v) (_frameworks a).
Definition set_frameworks (c : gmap string KubescapeFramework) (a : KubescapeApi) : KubescapeApi :=
  mkApi (_isInitialized a) (_isInstalled a) (_path a) (_frameworkDir a) (_versionInfo a) (Some c).

(** ** The program *)

Definition TXT_LATEST := "latest".
Definition PACKAGE_BASE_URL := "https://api.github.com/repos/armosec/kubescape/releases/latest".
Definition PACKAGE_DOWNLOAD_BASE_URL := "https://github.com/armosec/kubescape/releases/download".
Definition COMMAND_SCAN_FRAMEWORK := "scan framework".
Definition COMMAND_DOWNLOAD_FRAMEWORK := "download framework".
Definition COMMAND_DOWNLOAD_ARTIFACTS := "download artifacts".
Definition COMMAND_GET_VERSION := "version".
Definition COMMAND_GET_HELP := "help".
Definition ERROR_KUBESCAPE_NOT_INSTALLED := "Kubescape is not installed!".
Definition ENV_SKIP_UPDATE_CHECK := "KUBESCAPE_SKIP_UPDATE_CHECK".
Definition MAX_SCAN_BUFFER : N := 100 * 1024 * 1024.
Definition FORMAT_THRESHOLD := "v2.0.150".

(** the text of [${e}] for a caught error *)
Definition errorToString (e : JsError) : string :=
  match e with
  | JsErr msg => if String.eqb msg EmptyString then "Error" else "Error: " +:+ msg
  | JsTypeError what => "TypeError: " +:+ what
  | JsUriError => "URIError: URI malformed"
  | JsReason msg => msg
  | JsSysError op target => "Error: " +:+ op +:+ " " +:+ target
  | JsSyntaxError => "SyntaxError: Unexpected token"
  | JsStalled => EmptyString
  end.

(** the double quote and the line feed *)
Definition dq : string := String (Ascii.ascii_of_nat 34) EmptyString.
Definition nl : string := String (Ascii.ascii_of_nat 10) EmptyString.

(** a stable insertion sort on a natural key *)
Fixpoint insertBy {A} (key : A -> nat) (x : A) (l : list A) : list A :=
  match l with
  | [] => [x]
  | y :: r => if (key x <=? key y)%nat then x :: y :: r else y :: insertBy key x r
  end.

Definition sortBy {A} (key : A -> nat) (l : list A) : list A :=
  fold_right (insertBy key) [] l.

Definition extractBetween (str surround : string) : string :=
  JsString.substring str (JsString.indexOf str surround + 1) (JsString.lastIndexOf str surround).

(** a flag value in the argument object of a scan *)
Inductive ArgValue := ArgBool (b : bool) | ArgText (s : string).

(** [Object.assign(args, overrideArgs)] on argument objects: a key already
    present keeps its place and takes the new value, a new key goes last *)
Fixpoint assignArg (k : string) (v : ArgValue) (args : list (string * ArgValue))
  : list (string * ArgValue) :=
  match args with
  | [] => [(k, v)]
  | (k', v') :: r => if String.eqb k k' then (k', v) :: r else (k', v') :: assignArg k v r
  end.

Definition objectAssign (args overrideArgs : list (string * ArgValue))
  : list (string * ArgValue) :=
  fold_left (fun acc kv => assignArg (fst kv) (snd kv) acc) overrideArgs args.

(** the property names every object inherits from [Object.prototype] *)
Definition objectPrototypeKeys : list string :=
  ["constructor"; "__proto__"; "hasOwnProperty"; "isPrototypeOf";
   "propertyIsEnumerable"; "toLocaleString"; "toString"; "valueOf";
   "__defineGetter__"; "__defineSetter__"; "__lookupGetter__"; "__lookupSetter__"].

Definition isPrototypeKey (key : string) : bool :=
  existsb (String.eqb key) objectPrototypeKeys.

(** what [to[key]] finds on a catalog object created as [{}] *)
Inductive Property :=
| Own (f : KubescapeFramework)
| Inherited
| Missing.

Definition getProperty (to : gmap string KubescapeFramework) (key : string) : Property :=
  match to !! key with
  | Some f => Own f
  | None => if isPrototypeKey key then Inherited else Missing
  end.

(** the truthiness of [to[key]]: a framework object and an inherited member
    are truthy, [undefined] is not *)
Definition hasProperty (to : gmap string KubescapeFramework) (key : string) : bool :=
  match getProperty to key with
  | Missing => false
  | _ => true
  end.

(** [appendToFrameworks(to, from)] on a defined [to] *)
Fixpoint appendToFrameworks (to : gmap string KubescapeFramework)
         (from : list KubescapeFramework) : gmap string KubescapeFramework :=
  match from with
  | [] => to
  | framework :: rest =>
      let key := name framework in
      if negb (hasProperty to key)
      then appendToFrameworks (<[key := framework]> to) rest
      else appendToFrameworks to rest
  end.

Section Program.
Context `{host : Host} `{world : World}.

Definition toJson (str : string) : JsValue :=
  match JSON_parse str with
  | Some obj => obj
  | None => JObj []
  end.

(** *** The UI capability set *)

Definition ui_info (msg : string) : M unit := emit (EvUi UiInfo msg).
Definition ui_error (msg : string) : M unit := emit (EvUi UiError msg).
Definition ui_debug (msg : string) : M unit := emit (EvUi UiDebug msg).

(** [ui.progress(title, cancel, work)] returns what [work] returns *)
Definition ui_progress {A} (title : string) (cancel : option AbortController)
           (work : M A) : M A :=
  emit (EvProgressBegin title cancel) ;; work.

(** the [progress] callback handed to [work] *)
Definition progress (num : nat) (den : option nat) : M unit :=
  emit (EvProgress num den).

(** [ui.slow(title, work)] returns what [work] returns *)
Definition ui_slow {A} (title : string) (work : M A) : M A :=
  emit (EvSlow title) ;; work.

(** *** Requests to the world *)

Definition exec (cmd : string) (opts : ExecOptions) : M ExecResult :=
  request (fun tr => w_exec tr cmd opts) (EvExec cmd opts).

Definition fetchJson (url : string) : M JsValue :=
  r <- request (fun tr => w_fetchJson tr url) (EvFetchJson url) ;;
  match r with
  | Some obj => ret obj
  | None => throw (JsSysError "fetch" url)
  end.

Definition fs_mkdir (dir : string) : M unit :=
  ok <- request (fun tr => w_mkdir tr dir) (EvMkdir dir) ;;
  if ok then ret tt else throw (JsSysError "mkdir" dir).

Definition fs_access (dir : string) : M unit :=
  ok <- request (fun tr => w_access tr dir) (EvAccess dir) ;;
  if ok then ret tt else throw (JsSysError "access" dir).

Definition fs_chmod (file : string) : M unit :=
  ok <- request (fun tr => w_chmod tr file) (EvChmod file) ;;
  if ok then ret tt else throw (JsSysError "chmod" file).

Definition fs_readdir (dir : string) : M (list string) :=
  r <- request (fun tr => w_readdir tr dir) (EvReaddir dir) ;;
  match r with
  | Some files => ret files
  | None => throw (JsSysError "readdir" dir)
  end.

Definition fs_readFileSync (file : string) : M string :=
  r <- request (fun tr => w_readFile tr file) (EvReadFile file) ;;
  match r with
  | Some text => ret text
  | None => throw (JsSysError "readFileSync" file)
  end.

Definition fs_realpath (dir : string) : M string :=
  r <- request (fun tr => w_realpath tr dir) (EvRealpath dir) ;;
  match r with
  | Some p => ret p
  | None => throw (JsSysError "realpath" dir)
  end.

Definition fs_mkdtemp (prefix : string) : M string :=
  r <- request (fun tr => w_mkdtemp tr prefix) (EvMkdtemp prefix) ;;
  match r with
  | Some p => ret p
  | None => throw (JsSysError "mkdtemp" prefix)
  end.

Definition decodeURIComponentM (s : string) : M string :=
  match decodeURIComponent s with
  | Some d => ret d
  | None => throw JsUriError
  end.

(** *** expand *)

(** the loop over [Object.keys(process.env)] *)
Fixpoint expand_env (keys : list string) (expandedPath : string) : string :=
  match keys with
  | [] => expandedPath
  | env :: rest =>
      match env_lookup env process_env with
      | Some to =>
          if String.eqb to EmptyString
          then expand_env rest expandedPath
          else expand_env rest (JsString.replace expandedPath ("$" +:+ env) to)
      | None => expand_env rest expandedPath
      end
  end.

Definition expand (str : string) : string :=
  let expandedPath := path_normalize str in
  if (String.length expandedPath <=? 0)%nat then expandedPath
  else
    let expandedPath :=
      if JsString.startsWith expandedPath "~"
      then path_join os_homedir (JsString.sliceFrom expandedPath 1)
      else expandedPath in
    expand_env (List.map fst process_env) expandedPath.

(** *** downloadFile *)

(** the ['data'] listener: [read += chunk.length; progress(read / size)] *)
Fixpoint reportChunks (read : nat) (size : option nat) (chunks : list nat) : M unit :=
  match chunks with
  | [] => ret tt
  | chunk :: rest =>
      let read' := (read + chunk)%nat in
      progress read' size ;; reportChunks read' size rest
  end.

(** [promisify(stream.pipeline)(response.body, out)] with the listener
    attached: the chunks are reported while the pipeline runs; the promise
    resolves when the pipeline is done, rejects when it fails and stays
    pending when it stalls *)
Definition pipeline (localPath : string) (size : option nat) : M unit :=
  r <- (fun st => (Ok (w_pipeline (trace st) localPath), st)) ;;
  reportChunks 0 size (pipe_chunks r) ;;
  emit (EvPipeline localPath r) ;;
  match pipe_end r with
  | PipeDone => ret tt
  | PipeFailed e => throw e
  | PipeStalled => never JsStalled
  end.

Definition downloadFile (url downloadDir fileName : string)
           (abort : option AbortController) (executable : bool) : M string :=
  decodedTargetDir <- decodeURIComponentM downloadDir ;;
  let localPath := path_resolve2 decodedTargetDir fileName in
  tryCatch
    (ui_progress "Downloading Kubescape" abort
       (ui_debug ("Attempt to download kubescape into '" +:+ localPath +:+ "'") ;;
        ui_debug ("creating " +:+ downloadDir) ;;
        fs_mkdir decodedTargetDir ;;
        r <- request (fun tr => w_fetch tr url (bool_decide (is_Some abort)))
                     (EvFetch url (bool_decide (is_Some abort))) ;;
        response <- liftE r ;;
        (if negb (resp_ok response) || negb (resp_hasBody response)
         then ui_error ("Failed to download " +:+ url) ;; throw (JsErr EmptyString)
         else ret tt) ;;
        ui_debug ("Requesting kubescape status: " +:+ resp_statusText response
                  +:+ " (" +:+ resp_status response +:+ ")") ;;
        tryCatch (pipeline localPath (resp_size response))
                 (fun e => emit (EvUnlink localPath) ;; throw e) ;;
        (if executable then fs_chmod localPath else ret tt) ;;
        ui_info ("Successfully downloaded " +:+ fileName +:+ " into " +:+ downloadDir)) ;;
     ret localPath)
    (fun e =>
       ui_error ("Could not download " +:+ url +:+ ", reason: " +:+ errorToString e) ;;
       ret EmptyString).

(** *** install *)

(** [variants[os.platform()]]; [None] is [undefined] *)
Definition chooseKubescapeAsset : option string :=
  let prefix := if String.eqb os_arch "arm64" then "kubescape-arm64" else "kubescape" in
  if String.eqb os_platform "linux" then Some (prefix +:+ "-ubuntu-latest")
  else if String.eqb os_platform "darwin" then Some (prefix +:+ "-macos-latest")
  else if String.eqb os_platform "win32" then Some (prefix +:+ ".exe")
  else None.

Definition isWindows : bool :=
  String.eqb os_platform "win32"
  || bool_decide (env_lookup "OSTYPE" process_env = Some "cygwin")
  || bool_decide (env_lookup "OSTYPE" process_env = Some "msys").

Definition getLatestVersionUrl : M string :=
  obj <- fetchJson PACKAGE_BASE_URL ;;
  html_url <- liftE (Js.get obj "html_url") ;;
  match html_url with
  | JStr s => ret (JsString.replace s "/tag/" "/download/")
  | _ => throw (JsTypeError "replace")
  end.

Definition getLatestVersion : M JsValue :=
  obj <- fetchJson PACKAGE_BASE_URL ;;
  liftE (Js.get obj "tag_name").

Definition getOsKubescapeFilename : string :=
  "kubescape" +:+ (if String.eqb os_platform "win32" then ".exe" else EmptyString).

Definition install (version kubescapeDir : string)
           (cancel : option AbortController) : M bool :=
  binaryUrl <- (if String.eqb version TXT_LATEST
                then getLatestVersionUrl
                else ret (PACKAGE_DOWNLOAD_BASE_URL +:+ "/" +:+ version)) ;;
  let binaryUrl := binaryUrl +:+ "/" +:+
                   match chooseKubescapeAsset with
                   | Some asset => asset
                   | None => "undefined"
                   end in
  let kubescapeName := getOsKubescapeFilename in
  kubescapeFullPath <- downloadFile binaryUrl kubescapeDir kubescapeName cancel (negb isWindows) ;;
  ret (0 <? String.length kubescapeFullPath)%nat.

(** *** Parsing the legacy text output *)

Definition resolveKubescapeFramework (frameworkOutput : string)
  : JsError + KubescapeFramework :=
  let parts := JsString.split frameworkOutput ":" in
  match parts !! 1%nat, parts !! 2%nat with
  | Some p1, Some p2 =>
      inr (mkFramework (toLocaleLowerCase (extractBetween p1 "'"))
                       false
                       (JStr (extractBetween p2 "'")))
  | _, _ => inl (JsTypeError "indexOf")
  end.

Fixpoint resolveKubescapeFrameworks (frameworkOutputs : list string)
  : JsError + list KubescapeFramework :=
  match frameworkOutputs with
  | [] => inr []
  | frameworkOutput :: rest =>
      match resolveKubescapeFramework frameworkOutput with
      | inl e => inl e
      | inr f =>
          match resolveKubescapeFrameworks rest with
          | inl e => inl e
          | inr fs => inr (f :: fs)
          end
      end
  end.

(** *** Path and installation probe *)

Definition getKubescapePath (basedir : string) : JsError + KubescapePath :=
  match decodeURIComponent basedir with
  | None => inl JsUriError
  | Some d =>
      let decodedBaedir := path_resolve d in
      inr (mkPath (path_join (expand decodedBaedir) getOsKubescapeFilename) decodedBaedir)
  end.

Definition isKubescapeInstalled (kubescapePath : string) : M bool :=
  r <- exec (dq +:+ kubescapePath +:+ dq +:+ " " +:+ COMMAND_GET_HELP) noExecOptions ;;
  if exec_err r then emit EvConsoleError ;; ret false else ret true.

(** *** Accessors of [this] *)

Definition get_path : M string :=
  a <- getApi ;;
  match _path a with
  | None => throw (JsErr ERROR_KUBESCAPE_NOT_INSTALLED)
  | Some p => ret (fullPath p)
  end.

Definition get_directory : M string :=
  a <- getApi ;;
  match _path a with
  | None => throw (JsTypeError "baseDir")
  | Some p =>
      if String.eqb (baseDir p) EmptyString
      then throw (JsErr ERROR_KUBESCAPE_NOT_INSTALLED)
      else ret (baseDir p)
  end.

Definition get_version : M string :=
  a <- getApi ;;
  match _versionInfo a with
  | None => throw (JsErr ERROR_KUBESCAPE_NOT_INSTALLED)
  | Some v => ret (version v)
  end.

Definition get_frameworkDirectory : M string :=
  a <- getApi ;;
  match _frameworkDir a with
  | Some d =>
      if String.eqb d EmptyString
      then throw (JsErr ERROR_KUBESCAPE_NOT_INSTALLED)
      else ret d
  | None => throw (JsErr ERROR_KUBESCAPE_NOT_INSTALLED)
  end.

(** [Object.keys(this._frameworks)], in the order of the map: the catalog
    is kept as a finite map, which has the keys of the JavaScript object
    and not the order in which they were inserted, so a list of names is
    the one of the code up to its order *)
Definition catalogKeys (c : gmap string KubescapeFramework) : list string :=
  List.map fst (map_to_list c).

Definition frameworksNames (a : KubescapeApi) : list string :=
  match _frameworks a with
  | Some c =>
      List.map fst (List.filter (fun kv => isInstalled (snd kv)) (map_to_list c))
  | None => []
  end.

Definition frameworks (a : KubescapeApi) : list KubescapeFramework :=
  match _frameworks a with
  | Some c => List.map snd (map_to_list c)
  | None => []
  end.

(** *** Commands *)

Definition appendArg (cmd : string) (kv : string * ArgValue) : string :=
  match snd kv with
  | ArgBool true => cmd +:+ " --" +:+ fst kv
  | ArgBool false => cmd +:+ " --" +:+ fst kv +:+ " false"
  | ArgText v => cmd +:+ " --" +:+ fst kv +:+ " " +:+ v
  end.

Definition _buildKubescapeCommand (command : string) (kubeconfigPath : option string)
           (args : option (list (string * ArgValue))) : M string :=
  p <- get_path ;;
  let kubescapeCommand := dq +:+ p +:+ dq +:+ " " +:+ command in
  let kubescapeCommand :=
    match kubeconfigPath with
    | Some k =>
        if isWindows
        then "set " +:+ dq +:+ "KUBECONFIG=" +:+ k +:+ dq +:+ " & " +:+ kubescapeCommand
        else "KUBECONFIG=" +:+ dq +:+ k +:+ dq +:+ " " +:+ kubescapeCommand
    | None => kubescapeCommand
    end in
  ret (match args with
       | Some l => fold_left appendArg l kubescapeCommand
       | None => kubescapeCommand
       end).

Definition _buildScanCommand (pathInput kubeconfigPath : option string)
           (args : option (list (string * ArgValue))) : M string :=
  a <- getApi ;;
  let scanFrameworks := JsString.join "," (frameworksNames a) in
  _buildKubescapeCommand
    (COMMAND_SCAN_FRAMEWORK +:+ " " +:+ scanFrameworks +:+ " "
     +:+ match pathInput with
         | Some p => if String.eqb p EmptyString then EmptyString else p
         | None => EmptyString
         end)
    kubeconfigPath args.

(** *** Version detection *)

Definition getKubescapeVersion (kind : string) : M KubescapeVersion :=
  a <- getApi ;;
  if negb (_isInstalled a) then throw (JsErr ERROR_KUBESCAPE_NOT_INSTALLED)
  else
    cmd <- _buildKubescapeCommand COMMAND_GET_VERSION None None ;;
    r <- exec cmd (mkExecOptions (Some [(ENV_SKIP_UPDATE_CHECK, "1")]) None) ;;
    inCallback
      (if exec_err r then throw (JsErr (exec_stderr r))
       else
         match Regex.firstVersion (exec_stdout r) with
         | Some v =>
             if String.eqb kind "latest"
             then latestVersion <- getLatestVersion ;;
                  ret (mkVersion v (Js.strictEqString latestVersion v))
             else ret (mkVersion v false)
         | None => ret defaultKubescapeVersion
         end).

Definition compareVersionsM (a b : string) : M Z :=
  match Semver.compareVersions a b with
  | Some c => ret c
  | None => throw (JsErr ("Invalid argument not valid semver ('"
                          +:+ Semver.invalidArgument a b +:+ "' received)"))
  end.

(** [{ name : info.name.toLocaleLowerCase(), location : info.path,
       isInstalled : false }] *)
Definition frameworkOfInfo (info : JsValue) : JsError + KubescapeFramework :=
  match Js.get info "name" with
  | inl e => inl e
  | inr (JStr n) =>
      match Js.get info "path" with
      | inl e => inl e
      | inr p => inr (mkFramework (toLocaleLowerCase n) false p)
      end
  | inr _ => inl (JsTypeError "toLocaleLowerCase")
  end.

(** *** Selective download *)

(** one launched download: its place in the request, the framework, the
    command and what its subprocess will hand to the callback *)
Record Download := mkDownload {
  dl_index : nat;
  dl_framework : string;
  dl_cmd : string;
  dl_result : ExecResult
}.

(** the executor of one promise: it builds the command, logs it and starts
    the subprocess; what it throws rejects that promise *)
Definition launchDownload (index : nat) (framework : string) : M (JsError + Download) :=
  tryCatch
    (dir <- get_frameworkDirectory ;;
     cmd <- _buildKubescapeCommand
              (COMMAND_DOWNLOAD_FRAMEWORK +:+ " " +:+ framework +:+ " -o "
               +:+ dq +:+ dir +:+ dq) None None ;;
     ui_debug ("downloading missing frameworks. Command: " +:+ cmd) ;;
     r <- request (fun tr => w_exec tr cmd noExecOptions) (EvSpawn cmd) ;;
     ret (inr (mkDownload index framework cmd r)))
    (fun e => ret (inl e)).

Fixpoint launchDownloads (index : nat) (requiredFrameworks : list string)
  : M (list (JsError + Download)) :=
  match requiredFrameworks with
  | [] => ret []
  | framework :: rest =>
      d <- launchDownload index framework ;;
      ds <- launchDownloads (S index) rest ;;
      ret (d :: ds)
  end.

(** how the callback of one download ends: [resolve(f)] settled the
    promise; or [reject(reason)] settled it, and the parsing that follows
    threw [escaped] or nothing; or the parsing threw [e] before anything
    settled the promise, which stays pending *)
Inductive CallbackEnd :=
| Resolved (f : KubescapeFramework)
| RejectedFirst (reason : JsError) (escaped : option JsError)
| Escaped (e : JsError).

(** the parsing of the output of one download, by the version of the tool *)
Definition parseDownload (d : Download) : M KubescapeFramework :=
  let r := dl_result d in
  v <- get_version ;;
  c <- compareVersionsM v FORMAT_THRESHOLD ;;
  if 0 <=? c
  then liftE (frameworkOfInfo (toJson (exec_stderr r)))
  else
    let res := JsString.replace (exec_stdout r) "'framework'"
                 ("'framework': '" +:+ dl_framework d +:+ "'") in
    liftE (resolveKubescapeFramework res).

(** the callback of one download.  On a failed subprocess [reject] is
    called first, and it does not leave the callback: the output is parsed
    after it as well.  The first of [reject] and [resolve] settles the
    promise; what the parsing throws escapes the callback, and leaves the
    promise pending when nothing settled it before. *)
Definition downloadCallback (d : Download) : M CallbackEnd :=
  let r := dl_result d in
  ui_debug ("stdout: " +:+ exec_stdout r +:+ ", stderr: " +:+ exec_stderr r) ;;
  let rejected :=
    if exec_err r
    then Some (JsReason ("Could not download framework " +:+ dl_framework d
                         +:+ ". Reason:" +:+ nl +:+ exec_stderr r))
    else None in
  parsed <- attempt (parseDownload d) ;;
  ret (match rejected, parsed with
       | Some reason, inr _ => RejectedFirst reason None
       | Some reason, inl e => RejectedFirst reason (Some e)
       | None, inr f => Resolved f
       | None, inl e => Escaped e
       end).

(** [Promise.all] over the callbacks in the order the subprocesses finish:
    the first promise to reject rejects it, which ends the wait; it
    resolves when every promise resolved; and it never settles when none
    rejects and one stays pending ([pending] is what escaped the first
    such callback) *)
Fixpoint settleDownloads (finished : list Download) (pending : option JsError)
  : M (list (nat * KubescapeFramework)) :=
  match finished with
  | [] =>
      match pending with
      | Some e => never e
      | None => ret []
      end
  | d :: rest =>
      emit (EvExit (dl_cmd d)) ;;
      s <- downloadCallback d ;;
      match s with
      | RejectedFirst reason _ => throw reason
      | Resolved f =>
          fs <- settleDownloads rest pending ;;
          ret ((dl_index d, f) :: fs)
      | Escaped e =>
          settleDownloads rest (match pending with
                                | Some e0 => Some e0
                                | None => Some e
                                end)
      end
  end.

Fixpoint firstRejected {A} (l : list (JsError + A)) : option JsError :=
  match l with
  | [] => None
  | inl e :: _ => Some e
  | inr _ :: r => firstRejected r
  end.

Fixpoint launched {A} (l : list (JsError + A)) : list A :=
  match l with
  | [] => []
  | inl _ :: r => launched r
  | inr d :: r => d :: launched r
  end.

(** [Promise.all] over one promise per framework: all subprocesses are
    started in the order of the request, their callbacks run in the order
    they finish, and the values come back in the order of the request *)
Definition downloadMissingFrameworks (requiredFrameworks : list string)
  : M (list KubescapeFramework) :=
  ds <- launchDownloads 0 requiredFrameworks ;;
  match firstRejected ds with
  | Some e => throw e
  | None =>
      fs <- settleDownloads (sortBy (fun d => exec_finish (dl_result d)) (launched ds))
                            None ;;
      ret (List.map snd (sortBy fst fs))
  end.

(** *** Bulk download *)

(** the [forEach] over the lines of stderr *)
Fixpoint collectFrameworkLines (output : list string) (ksFrameworks : list KubescapeFramework)
  : JsError + list KubescapeFramework :=
  match output with
  | [] => inr ksFrameworks
  | line :: rest =>
      let info := toJson line in
      match Js.get info "artifact" with
      | inl e => inl e
      | inr artifact =>
          if Js.looseEqString artifact "framework"
          then match frameworkOfInfo info with
               | inl e => inl e
               | inr f => collectFrameworkLines rest (ksFrameworks ++ [f])
               end
          else collectFrameworkLines rest ksFrameworks
      end
  end.

(** the callback of the bulk download *)
Definition downloadAllCallback (r : ExecResult) : M (list KubescapeFramework) :=
  inCallback
    (v <- get_version ;;
     ui_debug ("stdout: " +:+ exec_stdout r +:+ ", stderr: " +:+ exec_stderr r
               +:+ ", version: " +:+ v) ;;
     if exec_err r
     then throw (JsErr ("Unable to download artifacts:" +:+ nl +:+ exec_stderr r))
     else
       v <- get_version ;;
       c <- compareVersionsM v FORMAT_THRESHOLD ;;
       let matches := Regex.frameworkLines (exec_stdout r) in
       if (0 <=? c) || bool_decide (matches = [])
       then liftE (collectFrameworkLines (JsString.split (exec_stderr r) nl) [])
       else liftE (resolveKubescapeFrameworks matches)).

Definition downloadAllFrameworks : M (list KubescapeFramework) :=
  dir <- get_frameworkDirectory ;;
  cmd <- _buildKubescapeCommand
           (COMMAND_DOWNLOAD_ARTIFACTS +:+ " --output " +:+ dq +:+ dir +:+ dq) None None ;;
  ui_debug ("downloading all frameworks. Command: " +:+ cmd) ;;
  r <- exec cmd noExecOptions ;;
  downloadAllCallback r.

(** *** Frameworks on disk *)

(** the predicate of [files.filter]: a [.json] file whose content has a
    truthy [controls]; whatever is thrown while reading it means no *)
Definition isFrameworkFile (dir file : string) : M bool :=
  if JsString.endsWith file ".json"
  then tryCatch
         (p <- decodeURIComponentM (path_join dir file) ;;
          f_text <- fs_readFileSync p ;;
          controls <- liftE (Js.get (toJson f_text) "controls") ;;
          ret (Js.truthy controls))
         (fun _ => ret false)
  else ret false.

Fixpoint filterFrameworkFiles (dir : string) (files : list string) : M (list string) :=
  match files with
  | [] => ret []
  | file :: rest =>
      keep <- isFrameworkFile dir file ;;
      kept <- filterFrameworkFiles dir rest ;;
      ret (if keep then file :: kept else kept)
  end.

Definition getInstalledFrameworks : M (list KubescapeFramework) :=
  dir <- get_frameworkDirectory ;;
  files <- fs_readdir dir ;;
  frameworkFiles <- filterFrameworkFiles dir files ;;
  ret (List.map
         (fun frameworkFile =>
            mkFramework
              (toLocaleLowerCase
                 (match JsString.split frameworkFile ".json" with
                  | stem :: _ => stem
                  | [] => EmptyString
                  end))
              false
              (JStr (expand (path_join dir frameworkFile))))
         frameworkFiles).

(** *** installFrameworks *)

Definition markInstalled (f : KubescapeFramework) : KubescapeFramework :=
  mkFramework (name f) true (location f).

(** the loop of [installFrameworks]: a framework found in the catalog is
    marked, the others are collected for download.  On an inherited member
    the assignment writes to that member and leaves the catalog as it is. *)
Fixpoint collectMissing (frameworks frameworksNeedsDownload : list string)
  : M (list string) :=
  match frameworks with
  | [] => ret frameworksNeedsDownload
  | framework :: rest =>
      a <- getApi ;;
      match _frameworks a with
      | Some c =>
          match getProperty c framework with
          | Own f =>
              modifyApi (set_frameworks (<[framework := markInstalled f]> c)) ;;
              collectMissing rest frameworksNeedsDownload
          | Inherited => collectMissing rest frameworksNeedsDownload
          | Missing => collectMissing rest (frameworksNeedsDownload ++ [framework])
          end
      | None => collectMissing rest (frameworksNeedsDownload ++ [framework])
      end
  end.

(** [appendToFrameworks(this._frameworks, from)] *)
Definition appendToCatalog (from : list KubescapeFramework) : M unit :=
  modifyApi (fun a =>
               match _frameworks a with
               | Some c => set_frameworks (appendToFrameworks c from) a
               | None => a
               end).

Definition installFrameworks (frameworks : list string) : M unit :=
  frameworksNeedsDownload <- collectMissing frameworks [] ;;
  match frameworksNeedsDownload with
  | [] => ret tt
  | _ :: _ =>
      newInstalledFrameworks <- downloadMissingFrameworks frameworksNeedsDownload ;;
      ui_debug ("New frameworks downloaded: "
                +:+ JsString.join "," (List.map (fun _ => "[object Object]")
                                                newInstalledFrameworks)) ;;
      appendToCatalog newInstalledFrameworks
  end.

(** *** Control metadata and report enrichment *)

(** [control?.id ?? control.controlID] *)
Definition controlIdOf (control : JsValue) : JsError + JsValue :=
  match control with
  | JUndefined | JNull => inl (JsTypeError "controlID")
  | _ =>
      match Js.get control "id" with
      | inr JUndefined | inr JNull => Js.get control "controlID"
      | r => r
      end
  end.

(** the [forEach] over one bundle's controls, filling the map; the map
    keeps what was set before a control faults.  Only string identifiers
    are kept: the lookups are by the string keys of a report. *)
Fixpoint indexControls (controls : list JsValue) (controlsMap : gmap string JsValue)
  : gmap string JsValue * option JsError :=
  match controls with
  | [] => (controlsMap, None)
  | control :: rest =>
      match controlIdOf control with
      | inl e => (controlsMap, Some e)
      | inr (JStr controlID) =>
          match controlsMap !! controlID with
          | Some _ => indexControls rest controlsMap
          | None => indexControls rest (<[controlID := control]> controlsMap)
          end
      | inr _ => indexControls rest controlsMap
      end
  end.

(** one file of [getControlsMap]; every fault inside is swallowed *)
Definition indexControlFile (dir file : string) (controlsMap : gmap string JsValue)
  : M (gmap string JsValue) :=
  if JsString.endsWith file ".json"
  then tryCatch
         (p <- decodeURIComponentM (path_join dir file) ;;
          f_text <- fs_readFileSync p ;;
          controls <- liftE (Js.get (toJson f_text) "controls") ;;
          if Js.truthy controls
          then match controls with
               | JArr l => ret (fst (indexControls l controlsMap))
               | _ => ret controlsMap
               end
          else ret controlsMap)
         (fun _ => ret controlsMap)
  else ret controlsMap.

Fixpoint indexControlFiles (dir : string) (files : list string)
         (controlsMap : gmap string JsValue) : M (gmap string JsValue) :=
  match files with
  | [] => ret controlsMap
  | file :: rest =>
      m <- indexControlFile dir file controlsMap ;;
      indexControlFiles dir rest m
  end.

Definition getControlsMap : M (gmap string JsValue) :=
  dir <- get_frameworkDirectory ;;
  files <- fs_readdir dir ;;
  indexControlFiles dir files ∅.

(** [o[k] = v] in strict code: on an object the property is set in place
    or added last; a named property of an array is not part of its value;
    on anything else the assignment is a TypeError *)
Fixpoint setField (k : string) (v : JsValue) (fields : list (string * JsValue))
  : list (string * JsValue) :=
  match fields with
  | [] => [(k, v)]
  | (k', v') :: r => if String.eqb k k' then (k', v) :: r else (k', v') :: setField k v r
  end.

Definition setProperty (o : JsValue) (k : string) (v : JsValue) : JsError + JsValue :=
  match o with
  | JObj fields => inr (JObj (setField k v fields))
  | JArr l => inr (JArr l)
  | _ => inl (JsTypeError k)
  end.

(** [controlsMap.get(controlId)?.k] *)
Definition optionalField (def : JsValue) (k : string) : JsValue :=
  match Js.get def k with
  | inl _ => JUndefined
  | inr v => v
  end.

Definition enrichControl (controlsMap : gmap string JsValue) (controlId : string)
           (control : JsValue) : JsError + JsValue :=
  match controlsMap !! controlId with
  | Some def =>
      match setProperty control "description" (optionalField def "description") with
      | inl e => inl e
      | inr control' => setProperty control' "remediation" (optionalField def "remediation")
      end
  | None => inr control
  end.

Fixpoint enrichControls (controlsMap : gmap string JsValue)
         (entries : list (string * JsValue)) : JsError + list (string * JsValue) :=
  match entries with
  | [] => inr []
  | (controlId, control) :: rest =>
      match enrichControl controlsMap controlId control with
      | inl e => inl e
      | inr control' =>
          match enrichControls controlsMap rest with
          | inl e => inl e
          | inr rest' => inr ((controlId, control') :: rest')
          end
      end
  end.

(** the elements of a list under their indices, as property names *)
Fixpoint indexed {A} (i : nat) (l : list A) : list (string * A) :=
  match l with
  | [] => []
  | x :: r => (JsInt.decimal (Z.of_nat i), x) :: indexed (S i) r
  end.

(** [Object.entries(v)] on a value that is neither [undefined] nor [null]:
    the members of an object (held in the order they are enumerated in),
    the elements of an array and the characters of a text under their
    indices, and nothing on a number or a boolean *)
Definition objectEntries (v : JsValue) : list (string * JsValue) :=
  match v with
  | JObj fields => fields
  | JArr l => indexed 0 l
  | JStr s => indexed 0 (List.map (fun c => JStr (String c EmptyString))
                                  (list_ascii_of_string s))
  | _ => []
  end.

(** [appendControlsInformationToV2Report(report)], returning the report as
    the in-place assignments leave it: the entries of
    [report.summaryDetails.controls] that the controls map knows are
    enriched, the members of an object and the elements of an array alike;
    a character of a text cannot be assigned to *)
Definition appendControlsInformationToV2Report (report : JsValue) : M JsValue :=
  controlsMap <- getControlsMap ;;
  summaryDetails <- liftE (Js.get report "summaryDetails") ;;
  controls <- liftE (Js.get summaryDetails "controls") ;;
  match controls with
  | JUndefined | JNull => throw (JsTypeError "Object.entries")
  | _ =>
      entries' <- liftE (enrichControls controlsMap (objectEntries controls)) ;;
      let controls' := match controls with
                       | JObj _ => JObj entries'
                       | JArr _ => JArr (List.map snd entries')
                       | other => other
                       end in
      ret (match report, summaryDetails with
           | JObj rfields, JObj sfields =>
               JObj (setField "summaryDetails"
                              (JObj (setField "controls" controls' sfields)) rfields)
           | _, _ => report
           end)
  end.

(** *** Scans *)

(** [try { return await fn } finally { cleanup }]: the cleanup runs when
    [fn] settles, and never when it does not *)
Definition finally {A} (fn : M A) (cleanup : M unit) : M A :=
  fun st =>
    match fn st with
    | (Ok a, st') => (cleanup ;; ret a) st'
    | (Rejected e, st') => (cleanup ;; throw e) st'
    | (Uncaught e, st') => (Uncaught e, st')
    end.

Definition withTempDir {A} (fn : string -> M A) : M A :=
  tmp <- fs_realpath os_tmpdir ;;
  dir <- fs_mkdtemp (tmp +:+ path_sep) ;;
  finally (fn dir) (emit (EvRm dir)).

Definition withTempFile {A} (filename : string) (fn : string -> M A) : M A :=
  withTempDir (fun dir => fn (path_join dir filename)).

Definition uuidv4 : M string := request w_uuid EvUuid.

(** the callback both scans hand to [cp.exec] *)
Definition scanCallback (file : string) (r : ExecResult) : M JsValue :=
  inCallback
    (ui_debug ("stdout: " +:+ exec_stdout r +:+ ", stderr: " +:+ exec_stderr r) ;;
     (if exec_err r then ui_error (exec_stderr r) else ret tt) ;;
     text <- fs_readFileSync file ;;
     report <- match JSON_parse text with
               | Some v => ret v
               | None => throw JsSyntaxError
               end ;;
     if negb (Js.truthy report)
     then ui_error ("not valid response was given. stdout: " +:+ exec_stdout r
                    +:+ ", stderr: " +:+ exec_stderr r) ;;
          ret (JObj [])
     else ui_debug "appending controls info to report" ;;
          appendControlsInformationToV2Report report).

Definition scanYaml (filePath : string) (overrideArgs : option (list (string * ArgValue)))
  : M JsValue :=
  uuid <- uuidv4 ;;
  withTempFile ("report-" +:+ uuid +:+ ".json")
    (fun file =>
       dir <- get_frameworkDirectory ;;
       let args := [("use-artifacts-from", ArgText (dq +:+ dir +:+ dq));
                    ("format", ArgText "json");
                    ("format-version", ArgText "v2");
                    ("output", ArgText (dq +:+ file +:+ dq));
                    ("keep-local", ArgBool true)] in
       let args := match overrideArgs with
                   | Some o => objectAssign args o
                   | None => args
                   end in
       cmd <- _buildScanCommand (Some (dq +:+ path_resolve filePath +:+ dq)) None (Some args) ;;
       ui_debug ("running kubescape scan command: " +:+ cmd) ;;
       ui_info ("running kubescape scan command: " +:+ cmd) ;;
       ui_slow "Kubescape scanning"
         (r <- exec cmd noExecOptions ;;
          scanCallback file r)).

Definition scanCluster (context : string) (kubeconfigPath : option string)
           (overrideArgs : option (list (string * ArgValue))) : M JsValue :=
  uuid <- uuidv4 ;;
  withTempFile ("report-" +:+ uuid +:+ ".json")
    (fun file =>
       dir <- get_frameworkDirectory ;;
       let args := [("use-artifacts-from", ArgText (dq +:+ dir +:+ dq));
                    ("format", ArgText "json");
                    ("format-version", ArgText "v2");
                    ("output", ArgText (dq +:+ file +:+ dq));
                    ("keep-local", ArgBool true);
                    ("kube-context", ArgText context)] in
       let args := match overrideArgs with
                   | Some o => objectAssign args o
                   | None => args
                   end in
       cmd <- _buildScanCommand None kubeconfigPath (Some args) ;;
       ui_debug ("running kubescape scan command: " +:+ cmd) ;;
       ui_slow ("Kubescape scanning cluster " +:+ context)
         (r <- exec cmd (mkExecOptions None (Some MAX_SCAN_BUFFER)) ;;
          scanCallback file r)).

End Program.

(** ** setup *)

Section Setup.
Context `{host : Host} `{world : World}.

(** Steps 1 to 3 of [setup]: the path, the installation probe and the
    version reconciliation; the value is [needsUpdate]. *)
Definition setup_needsUpdate (configs : IKubescapeConfig) : M bool :=
  (* 1. Get kubescape path *)
  p <- liftE (getKubescapePath (baseDirectory configs)) ;;
  modifyApi (set_path p) ;;
  progress 1 (Some 5%nat) ;;
  path <- get_path ;;
  ui_debug ("Kubescape will be used from " +:+ path) ;;
  (* 2. Check installation state *)
  path <- get_path ;;
  installed <- isKubescapeInstalled path ;;
  modifyApi (set_isInstalled installed) ;;
  ui_debug ("Kubescape install status: " +:+ (if installed then "installed" else "missing")) ;;
  a <- getApi ;;
  let needsUpdate := negb (_isInstalled a) in
  progress 2 (Some 5%nat) ;;
  (* 3. Query config to choose between version tiers *)
  ui_debug ("Kubescape requested version: " +:+ config_version configs) ;;
  needsUpdate <-
    (if negb needsUpdate
     then
       v <- getKubescapeVersion (config_version configs) ;;
       modifyApi (set_versionInfo v) ;;
       detected <- get_version ;;
       if negb (String.eqb (config_version configs) detected)
       then
         if String.eqb (config_version configs) TXT_LATEST
         then
           latestVersionTag <- getLatestVersion ;;
           detected <- get_version ;;
           ret (negb (Js.strictEqString latestVersionTag detected))
         else ret true
       else ret needsUpdate
     else ret needsUpdate) ;;
  progress 3 (Some 5%nat) ;;
  ret needsUpdate.

(** Step 4: install when an update is needed.  [false] is the early
    [return false] of [setup]; [abort.abort()] on an absent controller is a
    TypeError. *)
Definition setup_install (configs : IKubescapeConfig) (abort : option AbortController)
           (needsUpdate : bool) : M bool :=
  if needsUpdate
  then
    ui_debug ("Kubescape needs to be updated to version: " +:+ config_version configs) ;;
    dir <- get_directory ;;
    installed <- install (config_version configs) dir abort ;;
    modifyApi (set_isInstalled installed) ;;
    a <- getApi ;;
    if negb (_isInstalled a)
    then
      ui_error ERROR_KUBESCAPE_NOT_INSTALLED ;;
      match abort with
      | Some _ => emit EvAbort
      | None => throw (JsTypeError "abort")
      end ;;
      ret false
    else
      v <- getKubescapeVersion (config_version configs) ;;
      modifyApi (set_versionInfo v) ;;
      ret true
  else ret true.

(** the directory the frameworks are read from and downloaded to *)
Definition setup_frameworkDir (configs : IKubescapeConfig) : M unit :=
  match frameworksDirectory configs with
  | Some d =>
      if String.eqb d EmptyString then ret tt
      else
        dir <- decodeURIComponentM (expand (path_resolve d)) ;;
        modifyApi (set_frameworkDir (Some dir))
  | None => ret tt
  end ;;
  a <- getApi ;;
  match _frameworkDir a with
  | Some d =>
      if (0 <? String.length d)%nat
      then
        ui_debug ("getting custom frameworks from specified directory: " +:+ d) ;;
        tryCatch
          (fs_mkdir d ;; fs_access d)
          (fun _ =>
             ui_info ("Cannot access " +:+ d +:+ ". Using fallback instead.") ;;
             fallback <- get_directory ;;
             modifyApi (set_frameworkDir (Some fallback)))
      else
        ui_debug "getting available frameworks from kubescape directory" ;;
        fallback <- get_directory ;;
        modifyApi (set_frameworkDir (Some fallback))
  | None =>
      ui_debug "getting available frameworks from kubescape directory" ;;
      fallback <- get_directory ;;
      modifyApi (set_frameworkDir (Some fallback))
  end.

(** [requiredFrameworks.includes('all')] *)
Definition includesAll (l : list string) : bool := existsb (String.eqb "all") l.

(** the required frameworks: the listed ones that the catalog lacks are
    downloaded one by one, or everything is downloaded at once *)
Definition setup_required (configs : IKubescapeConfig) : M unit :=
  match requiredFrameworks configs with
  | Some required =>
      if negb (includesAll required)
      then
        ui_debug "Requiring specific frameworks" ;;
        a <- getApi ;;
        match _frameworks a with
        | Some c =>
            let required := List.filter (fun framework => negb (hasProperty c framework))
                                        required in
            match required with
            | [] => ret tt
            | _ :: _ => installFrameworks required
            end
        | None => throw (JsTypeError "_frameworks")
        end
      else
        ui_debug "Requiring all the available frameworks" ;;
        allFrameworks <- downloadAllFrameworks ;;
        appendToCatalog allFrameworks
  | None =>
      ui_debug "Requiring all the available frameworks" ;;
      allFrameworks <- downloadAllFrameworks ;;
      appendToCatalog allFrameworks
  end.

(** [this._frameworks[frameworkName].isInstalled = true]: on a cataloged
    name the entry is marked; on an inherited member the assignment lands on
    that member; on any other name it is a TypeError *)
Definition activate (frameworkName : string) : M unit :=
  a <- getApi ;;
  match _frameworks a with
  | Some c =>
      match getProperty c frameworkName with
      | Own f => modifyApi (set_frameworks (<[frameworkName := markInstalled f]> c))
      | Inherited => ret tt
      | Missing => throw (JsTypeError "isInstalled")
      end
  | None => throw (JsTypeError "_frameworks")
  end.

(** the active-set step: the [for] loop over [scanFrameworks] *)
Definition setup_scanFrameworks (configs : IKubescapeConfig) : M unit :=
  a <- getApi ;;
  match _frameworks a with
  | Some c =>
      let scanFrameworks :=
        match scanFrameworks configs with
        | Some l => if includesAll l then catalogKeys c else l
        | None => catalogKeys c
        end in
      forEach scanFrameworks activate
  | None => throw (JsTypeError "_frameworks")
  end.

(** what follows step 4: the catalog and the active set *)
Definition setup_frameworks (configs : IKubescapeConfig) : M unit :=
  progress 4 (Some 5%nat) ;;
  v <- get_version ;;
  ui_debug ("Using Kubescape version: " +:+ v) ;;
  a <- getApi ;;
  match _versionInfo a with
  | None => modifyApi (set_versionInfo (mkVersion (config_version configs) false))
  | Some _ => ret tt
  end ;;
  ui_debug "initializing frameworks" ;;
  modifyApi (set_frameworks ∅) ;;
  setup_frameworkDir configs ;;
  installed <- getInstalledFrameworks ;;
  appendToCatalog installed ;;
  setup_required configs ;;
  a <- getApi ;;
  ui_debug ("Required frameworks: "
            +:+ JsString.join " " (List.map name (frameworks a))) ;;
  setup_scanFrameworks configs ;;
  progress 5 (Some 5%nat) ;;
  a <- getApi ;;
  ui_debug ("Loaded frameworks " +:+ JsString.join "," (frameworksNames a)).

Definition setup (configs : IKubescapeConfig) (abort : option AbortController) : M bool :=
  ui_progress "Initializing kubescape HIHI" None
    (a <- getApi ;;
     (* initialize only once *)
     if _isInitialized a then ret true
     else
       needsUpdate <- setup_needsUpdate configs ;;
       go <- setup_install configs abort needsUpdate ;;
       if go
       then
         setup_frameworks configs ;;
         modifyApi (set_isInitialized true) ;;
         ret true
       else ret false).

End Setup.

(** ** Frameworks the backend offers and the catalog lacks *)

Definition COMMAND_LIST_FRAMEWORKS := "list frameworks".

Section Listing.
Context `{host : Host} `{world : World}.

(** [result.filter(framework => !this._frameworks[framework.toLocaleLowerCase()])]:
    the predicate runs once per element, and reading a member of an
    undefined catalog is a TypeError *)
Fixpoint filterUninstalled (catalog : option (gmap string KubescapeFramework))
         (result : list string) : JsError + list string :=
  match result with
  | [] => inr []
  | framework :: rest =>
      match catalog with
      | None => inl (JsTypeError (toLocaleLowerCase framework))
      | Some c =>
          match filterUninstalled catalog rest with
          | inl e => inl e
          | inr kept =>
              inr (if hasProperty c (toLocaleLowerCase framework)
                   then kept
                   else framework :: kept)
          end
      end
  end.

Definition getUninstalledFramework : M (list string) :=
  cmd <- _buildKubescapeCommand COMMAND_LIST_FRAMEWORKS None None ;;
  r <- exec cmd noExecOptions ;;
  inCallback
    (if exec_err r then throw (JsErr (exec_stderr r))
     else
       let result :=
         List.map (fun element =>
                     JsString.trimEnd (JsString.replace element "* " EmptyString))
                  (Regex.starLines (exec_stdout r)) in
       a <- getApi ;;
       liftE (filterUninstalled (_frameworks a) result)).

End Listing.

(** ** The earlier variant of the class (src/index.ts)

    It shares [expand], [downloadFile], [appendToFrameworks], the path and
    the installation probe with the code above; what differs is embedded
    here under the same names. *)

Module Legacy.
Section LegacyProgram.
Context `{host : Host} `{world : World}.

Definition chooseKubescapeAsset : option string :=
  if String.eqb os_platform "linux" then Some "kubescape-ubuntu-latest"
  else if String.eqb os_platform "darwin" then Some "kubescape-macos-latest"
  else if String.eqb os_platform "win32" then Some "kubescape-windows-latest"
  else None.

Definition install (version kubescapeDir : string)
           (cancel : option AbortController) : M bool :=
  binaryUrl <- (if String.eqb version TXT_LATEST
                then getLatestVersionUrl
                else ret (PACKAGE_DOWNLOAD_BASE_URL +:+ "/" +:+ version)) ;;
  let binaryUrl := binaryUrl +:+ "/" +:+
                   match chooseKubescapeAsset with
                   | Some asset => asset
                   | None => "undefined"
                   end in
  let kubescapeName := getOsKubescapeFilename in
  kubescapeFullPath <- downloadFile binaryUrl kubescapeDir kubescapeName cancel (negb isWindows) ;;
  ret (0 <? String.length kubescapeFullPath)%nat.

Definition _buildKubescapeCommand (command : string) : M string :=
  p <- get_path ;;
  ret (dq +:+ p +:+ dq +:+ " " +:+ command).

Definition getKubescapeVersion : M KubescapeVersion :=
  a <- getApi ;;
  if negb (_isInstalled a) then throw (JsErr ERROR_KUBESCAPE_NOT_INSTALLED)
  else
    cmd <- _buildKubescapeCommand COMMAND_GET_VERSION ;;
    r <- exec cmd (mkExecOptions (Some [("ENV_SKIP_UPDATE_CHECK", "1")]) None) ;;
    inCallback
      (if exec_err r then throw (JsErr (exec_stderr r))
       else
         match Regex.firstVersion (exec_stdout r) with
         | Some v =>
             match Regex.firstVersion (exec_stderr r) with
             | Some v' => ret (mkVersion v (String.eqb v' v))
             | None => ret (mkVersion v true)
             end
         | None => ret defaultKubescapeVersion
         end).

Definition launchDownload (index : nat) (framework : string) : M (JsError + Download) :=
  tryCatch
    (dir <- get_frameworkDirectory ;;
     cmd <- _buildKubescapeCommand
              (COMMAND_DOWNLOAD_FRAMEWORK +:+ " " +:+ framework +:+ " -o "
               +:+ dq +:+ dir +:+ dq) ;;
     r <- request (fun tr => w_exec tr cmd noExecOptions) (EvSpawn cmd) ;;
     ret (inr (mkDownload index framework cmd r)))
    (fun e => ret (inl e)).

Fixpoint launchDownloads (index : nat) (requiredFrameworks : list string)
  : M (list (JsError + Download)) :=
  match requiredFrameworks with
  | [] => ret []
  | framework :: rest =>
      d <- launchDownload index framework ;;
      ds <- launchDownloads (S index) rest ;;
      ret (d :: ds)
  end.

Fixpoint settleDownloads (finished : list Download) : M (list (nat * string)) :=
  match finished with
  | [] => ret []
  | d :: rest =>
      emit (EvExit (dl_cmd d)) ;;
      let r := dl_result d in
      if exec_err r
      then throw (JsReason ("Could not download framework " +:+ dl_framework d
                            +:+ ". Reason:" +:+ nl +:+ exec_stderr r))
      else
        outs <- settleDownloads rest ;;
        ret ((dl_index d,
              JsString.replace (exec_stdout r) "'framework'"
                               ("'framework': '" +:+ dl_framework d +:+ "'")) :: outs)
  end.

Definition downloadMissingFrameworks (requiredFrameworks : list string) : M (list string) :=
  ds <- launchDownloads 0 requiredFrameworks ;;
  match firstRejected ds with
  | Some e => throw e
  | None =>
      outs <- settleDownloads (sortBy (fun d => exec_finish (dl_result d)) (launched ds)) ;;
      ret (List.map snd (sortBy fst outs))
  end.

Definition downloadAllFrameworks : M (list string) :=
  dir <- get_frameworkDirectory ;;
  cmd <- _buildKubescapeCommand
           (COMMAND_DOWNLOAD_ARTIFACTS +:+ " --output " +:+ dq +:+ dir +:+ dq) ;;
  r <- exec cmd noExecOptions ;;
  inCallback
    (if exec_err r
     then throw (JsErr ("Unable to download artifacts:" +:+ nl +:+ exec_stderr r))
     else ret (Regex.frameworkLines (exec_stdout r))).

Definition getInstalledFrameworks : M (list KubescapeFramework) :=
  dir <- get_frameworkDirectory ;;
  decoded <- decodeURIComponentM dir ;;
  files <- fs_readdir decoded ;;
  frameworkFiles <- filterFrameworkFiles dir files ;;
  ret (List.map
         (fun frameworkFile =>
            mkFramework
              (toLocaleLowerCase
                 (match JsString.split frameworkFile "." with
                  | stem :: _ => stem
                  | [] => EmptyString
                  end))
              false
              (JStr (expand (path_join dir frameworkFile))))
         frameworkFiles).

Definition installFrameworks (frameworks : list string) : M unit :=
  frameworksNeedsDownload <- collectMissing frameworks [] ;;
  match frameworksNeedsDownload with
  | [] => ret tt
  | _ :: _ =>
      newInstalledFrameworks <- downloadMissingFrameworks frameworksNeedsDownload ;;
      ui_debug ("New frameworks downloaded: " +:+ JsString.join "," newInstalledFrameworks) ;;
      resolved <- liftE (resolveKubescapeFrameworks newInstalledFrameworks) ;;
      appendToCatalog resolved
  end.

Definition setup_needsUpdate (configs : IKubescapeConfig) : M bool :=
  (* 1. Get kubescape path *)
  p <- liftE (getKubescapePath (baseDirectory configs)) ;;
  modifyApi (set_path p) ;;
  progress 1 (Some 5%nat) ;;
  path <- get_path ;;
  ui_debug ("Kubescape will be used from " +:+ path) ;;
  (* 2. Check installation state *)
  path <- get_path ;;
  installed <- isKubescapeInstalled path ;;
  modifyApi (set_isInstalled installed) ;;
  ui_debug ("Kubescape install status: " +:+ (if installed then "installed" else "missing")) ;;
  a <- getApi ;;
  let needsUpdate := negb (_isInstalled a) in
  progress 2 (Some 5%nat) ;;
  (* 3. Query config to choose between version tiers *)
  ui_debug ("Kubescape requested version: " +:+ config_version configs) ;;
  needsUpdate <-
    (if negb needsUpdate
     then
       v <- getKubescapeVersion ;;
       modifyApi (set_versionInfo v) ;;
       detected <- get_version ;;
       if negb (String.eqb (config_version configs) detected)
       then
         if String.eqb (config_version configs) TXT_LATEST
         then
           latestVersionTag <- getLatestVersion ;;
           detected <- get_version ;;
           ret (negb (Js.strictEqString latestVersionTag detected))
         else ret true
       else ret needsUpdate
     else ret needsUpdate) ;;
  progress 3 (Some 5%nat) ;;
  ret needsUpdate.

Definition setup_install (configs : IKubescapeConfig) (abort : option AbortController)
           (needsUpdate : bool) : M bool :=
  if needsUpdate
  then
    ui_debug ("Kubescape needs to be updated to version: " +:+ config_version configs) ;;
    dir <- get_directory ;;
    installed <- install (config_version configs) dir abort ;;
    modifyApi (set_isInstalled installed) ;;
    a <- getApi ;;
    if negb (_isInstalled a)
    then
      ui_error ERROR_KUBESCAPE_NOT_INSTALLED ;;
      match abort with
      | Some _ => emit EvAbort
      | None => throw (JsTypeError "abort")
      end ;;
      ret false
    else
      v <- getKubescapeVersion ;;
      modifyApi (set_versionInfo v) ;;
      ret true
  else ret true.

Definition setup_frameworkDir (configs : IKubescapeConfig) : M unit :=
  modifyApi (set_frameworkDir (frameworksDirectory configs)) ;;
  match frameworksDirectory configs with
  | Some d =>
      if (0 <? String.length d)%nat
      then
        tryCatch
          (let d' := expand d in
           modifyApi (set_frameworkDir (Some d')) ;;
           decoded <- decodeURIComponentM d' ;;
           fs_mkdir decoded ;;
           decoded <- decodeURIComponentM d' ;;
           fs_access decoded)
          (fun _ =>
             a <- getApi ;;
             ui_info ("Cannot access "
                      +:+ match _frameworkDir a with
                          | Some x => x
                          | None => "undefined"
                          end +:+ ". Using fallback instead.") ;;
             fallback <- get_directory ;;
             modifyApi (set_frameworkDir (Some fallback)))
      else
        fallback <- get_directory ;;
        modifyApi (set_frameworkDir (Some fallback))
  | None =>
      fallback <- get_directory ;;
      modifyApi (set_frameworkDir (Some fallback))
  end.

Definition setup_required (configs : IKubescapeConfig) : M unit :=
  match requiredFrameworks configs with
  | Some required =>
      if negb (includesAll required)
      then
        ui_debug "Requiring specific frameworks" ;;
        a <- getApi ;;
        match _frameworks a with
        | Some c =>
            let required := List.filter (fun framework => negb (hasProperty c framework))
                                        required in
            match required with
            | [] => ret tt
            | _ :: _ => installFrameworks required
            end
        | None => throw (JsTypeError "_frameworks")
        end
      else
        ui_debug "Requiring all the available frameworks" ;;
        allFrameworks <- downloadAllFrameworks ;;
        resolved <- liftE (resolveKubescapeFrameworks allFrameworks) ;;
        appendToCatalog resolved
  | None =>
      ui_debug "Requiring all the available frameworks" ;;
      allFrameworks <- downloadAllFrameworks ;;
      resolved <- liftE (resolveKubescapeFrameworks allFrameworks) ;;
      appendToCatalog resolved
  end.

Definition setup_frameworks (configs : IKubescapeConfig) : M unit :=
  progress 4 (Some 5%nat) ;;
  v <- get_version ;;
  ui_debug ("Using Kubescape version: " +:+ v) ;;
  a <- getApi ;;
  match _versionInfo a with
  | None => modifyApi (set_versionInfo (mkVersion (config_version configs) false))
  | Some _ => ret tt
  end ;;
  (* 5. Initialize frameworks *)
  modifyApi (set_frameworks ∅) ;;
  setup_frameworkDir configs ;;
  installed <- getInstalledFrameworks ;;
  appendToCatalog installed ;;
  setup_required configs ;;
  a <- getApi ;;
  ui_debug ("Required frameworks: "
            +:+ JsString.join " " (List.map name (frameworks a))) ;;
  setup_scanFrameworks configs ;;
  progress 5 (Some 5%nat) ;;
  a <- getApi ;;
  ui_debug ("Loaded frameworks " +:+ JsString.join "," (frameworksNames a)).

(** [setup] of this variant: the guard reads [_isInitialized], and no
    statement of the class assigns it after the constructor *)
Definition setup (configs : IKubescapeConfig) (abort : option AbortController) : M bool :=
  ui_progress "Initializing kubescape" None
    (a <- getApi ;;
     (* initialize only once *)
     if _isInitialized a then ret true
     else
       needsUpdate <- setup_needsUpdate configs ;;
       go <- setup_install configs abort needsUpdate ;;
       if go
       then
         setup_frameworks configs ;;
         ret true
       else ret false).

(** *** Scans of this variant: the report is the standard output *)

Definition COMMAND_SCAN_CONTEXT := "--kube-context".
Definition MAX_SCAN_BUFFER : N := 7 * 1024 * 1024.

(** a parsed value that is not an array is wrapped in one; malformed text
    is logged to the console and gives the empty array *)
Definition toJsonArray (str : string) : M (list JsValue) :=
  match JSON_parse str with
  | Some (JArr l) => ret l
  | Some obj => ret [obj]
  | None => emit EvConsoleError ;; ret []
  end.

Definition scanYaml (filePath : string) : M JsValue :=
  dir <- get_frameworkDirectory ;;
  let useArtifactsFrom := "--use-artifacts-from " +:+ dq +:+ dir +:+ dq in
  a <- getApi ;;
  let scanFrameworks := JsString.join "," (frameworksNames a) in
  cmd <- _buildKubescapeCommand
           (COMMAND_SCAN_FRAMEWORK +:+ " " +:+ useArtifactsFrom +:+ " " +:+ scanFrameworks
            +:+ " " +:+ dq +:+ filePath +:+ dq +:+ " --format json") ;;
  ui_slow "Kubescape scanning"
    (r <- exec cmd noExecOptions ;;
     inCallback
       (if exec_err r
        then ui_error (exec_stderr r) ;; ret (JObj [])
        else
          res <- toJsonArray (exec_stdout r) ;;
          if negb (Js.truthy (JArr res))
          then ret (JObj [])
          else ret (JArr res))).

Definition scanCluster (context : string) : M JsValue :=
  dir <- get_frameworkDirectory ;;
  let useArtifactsFrom := "--use-artifacts-from " +:+ dq +:+ dir +:+ dq in
  a <- getApi ;;
  let scanFrameworks := JsString.join "," (frameworksNames a) in
  cmd <- _buildKubescapeCommand
           (COMMAND_SCAN_FRAMEWORK +:+ " " +:+ useArtifactsFrom +:+ " " +:+ scanFrameworks
            +:+ " " +:+ COMMAND_SCAN_CONTEXT +:+ " " +:+ context +:+ " --format json") ;;
  ui_slow ("Kubescape scanning cluster " +:+ context)
    (r <- exec cmd (mkExecOptions None (Some MAX_SCAN_BUFFER)) ;;
     inCallback
       ((if exec_err r then ui_error (exec_stderr r) else ret tt) ;;
        res <- toJsonArray (exec_stdout r) ;;
        if negb (Js.truthy (JArr res)) || (List.length res <=? 0)%nat
        then ui_error "not valid response was given" ;; ret (JObj [])
        else ret (JArr res))).

End LegacyProgram.
End Legacy.

(** ** Specification-level definitions *)

(** a version token [v<major>.<minor>.<patch>] *)
Definition allDigits (s : string) : Prop :=
  fst (JsString.spanDigits s) = s /\ s <> EmptyString.

Definition isVersionToken (tok : string) : Prop :=
  exists d1 d2 d3,
    allDigits d1 /\ allDigits d2 /\ allDigits d3 /\
    tok = "v" +:+ d1 +:+ "." +:+ d2 +:+ "." +:+ d3.

(** the text holds no version token *)
Definition noVersionToken (s : string) : Prop :=
  ~ exists pre tok post, s = pre +:+ tok +:+ post /\ isVersionToken tok.

(** the version subcommand as [getKubescapeVersion] runs it *)
Definition versionCommand (p : KubescapePath) : string :=
  dq +:+ fullPath p +:+ dq +:+ " " +:+ COMMAND_GET_VERSION.

Definition versionOptions : ExecOptions :=
  mkExecOptions (Some [(ENV_SKIP_UPDATE_CHECK, "1")]) None.


(** the numbers of a three-part version, from its runs of digits *)
Definition versionNumbers (d1 d2 d3 : string) : Z * Z * Z :=
  (Semver.digitsToZ 0 d1, Semver.digitsToZ 0 d2, Semver.digitsToZ 0 d3).


Definition thresholdTriple : Z * Z * Z := (2, 0, 150).

(** the sign of the order on three-part versions *)
Definition compareTriple (a b : Z * Z * Z) : Z :=
  let '(a1, a2, a3) := a in
  let '(b1, b2, b3) := b in
  match a1 ?= b1 with
  | Lt => -1
  | Gt => 1
  | Eq => match a2 ?= b2 with
          | Lt => -1
          | Gt => 1
          | Eq => match a3 ?= b3 with
                  | Lt => -1
                  | Gt => 1
                  | Eq => 0
                  end
          end
  end.




(** a computation that leaves the API object as it found it *)
Definition preservesApi {A} (m : M A) : Prop :=
  forall st, api (snd (m st)) = api st.

(** the message a failed selective download is rejected with *)
Definition downloadFailure (d : Download) : JsError :=
  JsReason ("Could not download framework " +:+ dl_framework d
            +:+ ". Reason:" +:+ nl +:+ exec_stderr (dl_result d)).

(** a computation that leaves the [_isInitialized] flag as it found it *)
Definition preservesFlag {A} (m : M A) : Prop :=
  forall st, _isInitialized (api (snd (m st))) = _isInitialized (api st).

(** how the callback of a selective download ends on what the parser made
    of the output: a failed subprocess has rejected the promise before the
    parser ran; otherwise the parsed framework resolves it, and an
    exception of the parser leaves it pending *)
Definition endsOn (d : Download) (parsed : JsError + KubescapeFramework) : CallbackEnd :=
  if exec_err (dl_result d)
  then RejectedFirst (downloadFailure d)
                     (match parsed with
                      | inl e => Some e
                      | inr _ => None
                      end)
  else match parsed with
       | inl e => Escaped e
       | inr f => Resolved f
       end.

(** what the parser of a selective download makes of the output, on an API
    object: the framework, or what it throws *)
Definition parsedDownload `{host : Host} (a : KubescapeApi) (d : Download)
  : JsError + KubescapeFramework :=
  match fst (parseDownload d (mkSt a [])) with
  | Ok f => inr f
  | Rejected e | Uncaught e => inl e
  end.

(** the Error of compare-versions on a text that is not a version *)
Definition notSemver (v : string) : JsError :=
  JsErr ("Invalid argument not valid semver ('" +:+ v +:+ "' received)").





(** the report of a failed download *)
Definition couldNotDownload (url : string) (e : JsError) : Event :=
  EvUi UiError ("Could not download " +:+ url +:+ ", reason: " +:+ errorToString e).

(** the subprocess invocations and network requests of a trace *)
Definition outsideCalls (tr : Trace) : list Event :=
  List.filter (fun e => isSubprocessEvent e || isNetworkEvent e) tr.

(** the progress reports of the chunks of a transfer *)
Fixpoint chunkEvents (read : nat) (size : option nat) (chunks : list nat) : list Event :=
  match chunks with
  | [] => []
  | chunk :: rest => EvProgress (read + chunk) size :: chunkEvents (read + chunk) size rest
  end.

(** the first framework of a name in a list *)
Definition firstNamed (key : string) (from : list KubescapeFramework)
  : option KubescapeFramework :=
  List.find (fun f => String.eqb (name f) key) from.

(** every entry of a catalog is active *)
Definition allActive (c : gmap string KubescapeFramework) : Prop :=
  forall k f, c !! k = Some f -> isInstalled f = true.


(** the catalog of an API object, empty when it has none *)
Definition catalogOf (a : KubescapeApi) : gmap string KubescapeFramework :=
  match _frameworks a with
  | Some c => c
  | None => ∅
  end.

(** the names a catalog holds *)
Definition catalogNames (a : KubescapeApi) : gset string := dom (catalogOf a).

(** whether the scan list of a configuration selects a name: an absent
    list and a list with the "all" sentinel select every name *)
Definition selectsForScan (configs : IKubescapeConfig) (k : string) : bool :=
  match scanFrameworks configs with
  | None => true
  | Some l => includesAll l || existsb (String.eqb k) l
  end.

(** every name a scan list spells out is in the catalog *)
Definition scanListCataloged (configs : IKubescapeConfig)
           (c : gmap string KubescapeFramework) : Prop :=
  match scanFrameworks configs with
  | None => True
  | Some l => includesAll l = false -> forall n, In n l -> is_Some (c !! n)
  end.

(** a text without a given character *)
Fixpoint lacks (c : ascii) (s : string) : bool :=
  match s with
  | EmptyString => true
  | String x r => negb (Ascii.eqb x c) && lacks c r
  end.

(** a text with neither a colon nor a single quote *)
Definition plain (s : string) : bool := lacks ":" s && lacks "'" s.

(** a query of the release registry among the events *)
Definition isRegistryQuery (e : Event) : bool :=
  match e with
  | EvFetchJson _ _ => true
  | _ => false
  end.

(** a computation that adds no event of a kind to the trace *)
Definition addsNo {A} (kind : Event -> bool) (m : M A) : Prop :=
  forall st, List.filter kind (trace (snd (m st))) = List.filter kind (trace st).

(** what the download of [url] may add to the trace: the one request of
    [url], with the abort signal or without, and no subprocess and no query
    of the registry *)
Definition isDownloadEvent (url : string) (signal : bool) (e : Event) : bool :=
  match e with
  | EvFetch u s _ => String.eqb u url && Bool.eqb s signal
  | EvExec _ _ _ | EvSpawn _ _ | EvExit _ | EvFetchJson _ _ => false
  | _ => true
  end.

(** the address [install] downloads a pinned version from *)
Definition assetUrl `{host : Host} (version : string) : string :=
  (PACKAGE_DOWNLOAD_BASE_URL +:+ "/" +:+ version) +:+ "/"
  +:+ match chooseKubescapeAsset with
      | Some asset => asset
      | None => "undefined"
      end.

(** a map of controls in which every control sits under its own identifier *)
Definition indexedById (controlsMap : gmap string JsValue) : Prop :=
  forall k v, controlsMap !! k = Some v -> controlIdOf v = inr (JStr k).

(** what the enrichment makes of one entry of the control summary: the
    identifier stays; a control the map does not know stays as it is; on a
    control object the map knows, description and remediation are those of
    the map's control and every other member stays *)
Definition enriched (controlsMap : gmap string JsValue) (entry entry' : string * JsValue)
  : Prop :=
  fst entry' = fst entry /\
  match controlsMap !! fst entry with
  | None => snd entry' = snd entry
  | Some def =>
      match snd entry with
      | JObj fields =>
          exists fields',
            snd entry' = JObj fields' /\
            Js.assoc "description" fields' = optionalField def "description" /\
            Js.assoc "remediation" fields' = optionalField def "remediation" /\
            forall k, k <> "description" -> k <> "remediation" ->
                      Js.assoc k fields' = Js.assoc k fields
      | other => snd entry' = other
      end
  end.

(** a report without the control summary the enrichment walks over *)
Definition hasNoControlSummary (report : JsValue) : Prop :=
  forall summaryDetails,
    Js.get report "summaryDetails" = inr summaryDetails ->
    match Js.get summaryDetails "controls" with
    | inl _ | inr JUndefined | inr JNull => True
    | inr _ => False
    end.

(** the value of a flag in an argument object *)
Fixpoint argOf (k : string) (args : list (string * ArgValue)) : option ArgValue :=
  match args with
  | [] => None
  | (k', v) :: r => if String.eqb k k' then Some v else argOf k r
  end.




(** a framework whose name is a text in lower case *)
Definition lowerNamed `{host : Host} (f : KubescapeFramework) : Prop :=
  exists s, name f = toLocaleLowerCase s.

(** a catalog in which every framework sits under its own name, a text in
    lower case *)
Definition keyedByName `{host : Host} (a : KubescapeApi) : Prop :=
  forall k f, catalogOf a !! k = Some f -> name f = k /\ lowerNamed f.

(** a computation that keeps a property of the API object however it ends,
    and whose value, when it has one, has a property of its own *)
Definition keeps {A} (I : KubescapeApi -> Prop) (Q : A -> Prop) (m : M A) : Prop :=
  forall st, I (api st) ->
             I (api (snd (m st))) /\ forall a, fst (m st) = Ok a -> Q a.

(** a property of every value a computation gives *)
Definition returns {A} (Q : A -> Prop) (m : M A) : Prop :=
  forall st a, fst (m st) = Ok a -> Q a.

(** ** Sample hosts and worlds *)

Module Sample.

Definition lowerChar (c : ascii) : ascii :=
  let n := nat_of_ascii c in
  if (65 <=? n)%nat && (n <=? 90)%nat then ascii_of_nat (n + 32) else c.

Fixpoint lower (s : string) : string :=
  match s with
  | EmptyString => EmptyString
  | String c r => String (lowerChar c) (lower r)
  end.

Fixpoint hasPercent (s : string) : bool :=
  match s with
  | EmptyString => false
  | String c r => Ascii.eqb c "%" || hasPercent r
  end.

(** a bundle file with one control *)
Definition bundleText : string :=
  "{" +:+ dq +:+ "controls" +:+ dq +:+ ":[{" +:+ dq +:+ "controlID" +:+ dq +:+ ":"
  +:+ dq +:+ "C-0001" +:+ dq +:+ "," +:+ dq +:+ "description" +:+ dq +:+ ":"
  +:+ dq +:+ "d" +:+ dq +:+ "}]}".

Definition bundleValue : JsValue :=
  JObj [("controls", JArr [JObj [("controlID", JStr "C-0001"); ("description", JStr "d")]])].

(** a report with one control summary *)
Definition reportText : string :=
  "{" +:+ dq +:+ "summaryDetails" +:+ dq +:+ ":{" +:+ dq +:+ "controls" +:+ dq +:+ ":{"
  +:+ dq +:+ "C-0001" +:+ dq +:+ ":{" +:+ dq +:+ "status" +:+ dq +:+ ":"
  +:+ dq +:+ "failed" +:+ dq +:+ "}}}}".

Definition reportValue : JsValue :=
  JObj [("summaryDetails",
         JObj [("controls", JObj [("C-0001", JObj [("status", JStr "failed")])])])].

(** the JSON line the tool prints for a downloaded framework *)
Definition downloadedLine (n p : string) : string :=
  "{" +:+ dq +:+ "artifact" +:+ dq +:+ ":" +:+ dq +:+ "framework" +:+ dq +:+ ","
  +:+ dq +:+ "name" +:+ dq +:+ ":" +:+ dq +:+ n +:+ dq +:+ ","
  +:+ dq +:+ "path" +:+ dq +:+ ":" +:+ dq +:+ p +:+ dq +:+ "}".

Definition downloadedValue (n p : string) : JsValue :=
  JObj [("artifact", JStr "framework"); ("name", JStr n); ("path", JStr p)].

(** [JSON.parse] on the texts the samples use; every other text is taken
    as malformed *)
Definition parseTable : list (string * JsValue) :=
  [(bundleText, bundleValue);
   (downloadedLine "nsa" "/opt/ks/nsa.json", downloadedValue "nsa" "/opt/ks/nsa.json");
   (downloadedLine "mitre" "/opt/ks/mitre.json", downloadedValue "mitre" "/opt/ks/mitre.json");
   (reportText, reportValue);
   ("null", JNull)].

Fixpoint lookupText (t : string) (table : list (string * JsValue)) : option JsValue :=
  match table with
  | [] => None
  | (t', v) :: r => if String.eqb t t' then Some v else lookupText t r
  end.

(** A Linux host.  The path functions are those of Node on the absolute,
    already normal paths the samples use; [decodeURIComponent] is the
    built-in on texts without a percent sign and on a lone percent sign. *)
Definition linux : Host := {|
  os_platform := "linux";
  os_arch := "x64";
  os_homedir := "/home/user";
  os_tmpdir := "/tmp";
  path_sep := "/";
  process_env := [("A", "x"); ("EMPTY", EmptyString)];
  path_normalize := fun s => s;
  path_join := fun a b => if String.prefix "/" b then a +:+ b else a +:+ "/" +:+ b;
  path_resolve := fun s => s;
  path_resolve2 := fun a b => a +:+ "/" +:+ b;
  decodeURIComponent := fun s => if hasPercent s then None else Some s;
  JSON_parse := fun t => lookupText t parseTable;
  toLocaleLowerCase := lower
|}.

Definition hasWord (w cmd : string) : bool :=
  bool_decide (is_Some (JsString.find w cmd)).

(** A world in which the tool is installed at version v2.0.144, the
    framework directory holds [nsa.json], and every request succeeds. *)
Definition installed : World := {|
  w_exec := fun _ cmd _ =>
    if hasWord " version" cmd
    then mkExec false "Your current version is: v2.0.144" EmptyString 0
    else mkExec false EmptyString EmptyString 0;
  w_fetchJson := fun _ _ => Some (JObj [("tag_name", JStr "v3.0.0");
                                        ("html_url", JStr "https://github.com/armosec/kubescape/releases/tag/v3.0.0")]);
  w_fetch := fun _ _ _ => inr (mkResponse true true "OK" "200" (Some 10%nat));
  w_pipeline := fun _ _ => mkPipeline [4%nat; 6%nat] PipeDone;
  w_mkdir := fun _ _ => true;
  w_access := fun _ _ => true;
  w_chmod := fun _ _ => true;
  w_readdir := fun _ _ => Some ["nsa.json"; "notes.txt"];
  w_readFile := fun _ _ => Some bundleText;
  w_realpath := fun _ d => Some d;
  w_mkdtemp := fun _ p => Some (p +:+ "ks-1");
  w_uuid := fun _ => "0000"
|}.

Definition config : IKubescapeConfig :=
  mkConfig "v2.0.144" None "/opt/ks" (Some ["nsa"]) (Some ["nsa"]).

Definition fresh : St := mkSt newKubescapeApi [].

(** the installed tool prints no version *)
Definition mute : World := {|
  w_exec := fun _ _ _ => mkExec false "kubescape, the scanner" EmptyString 0;
  w_fetchJson := w_fetchJson (World := installed);
  w_fetch := w_fetch (World := installed);
  w_pipeline := w_pipeline (World := installed);
  w_mkdir := w_mkdir (World := installed);
  w_access := w_access (World := installed);
  w_chmod := w_chmod (World := installed);
  w_readdir := w_readdir (World := installed);
  w_readFile := w_readFile (World := installed);
  w_realpath := w_realpath (World := installed);
  w_mkdtemp := w_mkdtemp (World := installed);
  w_uuid := w_uuid (World := installed)
|}.

(** an API object after the installation probe found the tool *)
Definition probed : St :=
  mkSt (mkApi false true (Some (mkPath "/opt/ks/kubescape" "/opt/ks")) None None None) [].

(** a catalog holding the one framework found on disk, not yet active *)
Definition nsaOnDisk : KubescapeFramework :=
  mkFramework "nsa" false (JStr "/opt/ks/nsa.json").

Definition cataloged : St :=
  mkSt (mkApi false true (Some (mkPath "/opt/ks/kubescape" "/opt/ks")) (Some "/opt/ks")
              (Some (mkVersion "v2.0.144" false)) (Some {["nsa" := nsaOnDisk]})) [].

(** configurations that differ in the scan list only *)
Definition scanNothing : IKubescapeConfig :=
  mkConfig "v2.0.144" None "/opt/ks" (Some ["nsa"]) (Some []).

Definition scanEverything : IKubescapeConfig :=
  mkConfig "v2.0.144" None "/opt/ks" (Some ["nsa"]) None.

(** the transfer breaks after the first chunk *)
Definition cutOff : World := {|
  w_exec := w_exec (World := installed);
  w_fetchJson := w_fetchJson (World := installed);
  w_fetch := w_fetch (World := installed);
  w_pipeline := fun _ _ => mkPipeline [4%nat] (PipeFailed (JsErr "aborted"));
  w_mkdir := w_mkdir (World := installed);
  w_access := w_access (World := installed);
  w_chmod := w_chmod (World := installed);
  w_readdir := w_readdir (World := installed);
  w_readFile := w_readFile (World := installed);
  w_realpath := w_realpath (World := installed);
  w_mkdtemp := w_mkdtemp (World := installed);
  w_uuid := w_uuid (World := installed)
|}.



(** what the tool from v2.0.150 on prints on stderr for all artifacts *)
Definition jsonStderr : string :=
  downloadedLine "nsa" "/opt/ks/nsa.json" +:+ nl
  +:+ downloadedLine "mitre" "/opt/ks/mitre.json" +:+ nl
  +:+ "done".


(** an API object after a successful [setup] *)
Definition ready : St :=
  mkSt (mkApi true true (Some (mkPath "/opt/ks/kubescape" "/opt/ks")) (Some "/opt/ks")
              (Some (mkVersion "v2.0.144" false))
              (Some {["nsa" := mkFramework "nsa" true (JStr "/opt/ks/nsa.json")]})) [].

(** the scan exits non-zero and leaves no report file behind *)
Definition noReport : World := {|
  w_exec := fun _ _ _ => mkExec true EmptyString "cluster unreachable" 0;
  w_fetchJson := w_fetchJson (World := installed);
  w_fetch := w_fetch (World := installed);
  w_pipeline := w_pipeline (World := installed);
  w_mkdir := w_mkdir (World := installed);
  w_access := w_access (World := installed);
  w_chmod := w_chmod (World := installed);
  w_readdir := w_readdir (World := installed);
  w_readFile := fun _ file => if JsString.startsWith file "/tmp/" then None else Some bundleText;
  w_realpath := w_realpath (World := installed);
  w_mkdtemp := w_mkdtemp (World := installed);
  w_uuid := w_uuid (World := installed)
|}.

(** the scan exits non-zero after it wrote a report *)
Definition lateFailure : World := {|
  w_exec := fun _ _ _ => mkExec true EmptyString "2 resources failed" 0;
  w_fetchJson := w_fetchJson (World := installed);
  w_fetch := w_fetch (World := installed);
  w_pipeline := w_pipeline (World := installed);
  w_mkdir := w_mkdir (World := installed);
  w_access := w_access (World := installed);
  w_chmod := w_chmod (World := installed);
  w_readdir := w_readdir (World := installed);
  w_readFile := fun _ file =>
    if JsString.startsWith file "/tmp/" then Some reportText else Some bundleText;
  w_realpath := w_realpath (World := installed);
  w_mkdtemp := w_mkdtemp (World := installed);
  w_uuid := w_uuid (World := installed)
|}.

(** the scan wrote a truncated report *)
Definition brokenReport : World := {|
  w_exec := fun _ _ _ => mkExec true EmptyString "killed" 0;
  w_fetchJson := w_fetchJson (World := installed);
  w_fetch := w_fetch (World := installed);
  w_pipeline := w_pipeline (World := installed);
  w_mkdir := w_mkdir (World := installed);
  w_access := w_access (World := installed);
  w_chmod := w_chmod (World := installed);
  w_readdir := w_readdir (World := installed);
  w_readFile := fun _ file =>
    if JsString.startsWith file "/tmp/" then Some "{" else Some bundleText;
  w_realpath := w_realpath (World := installed);
  w_mkdtemp := w_mkdtemp (World := installed);
  w_uuid := w_uuid (World := installed)
|}.

(** an API object at v3.0.0 with an empty catalog *)
Definition emptyCatalog : St :=
  mkSt (mkApi false true (Some (mkPath "/opt/ks/kubescape" "/opt/ks")) (Some "/opt/ks")
              (Some (mkVersion "v3.0.0" true)) (Some ∅)) [].

(** the API object of a tool that printed no version *)
Definition undetected : St :=
  mkSt (mkApi false true (Some (mkPath "/opt/ks/kubescape" "/opt/ks")) (Some "/opt/ks")
              (Some defaultKubescapeVersion) (Some ∅)) [].

(** two selective downloads: the one of [mitre] succeeds first, the one of
    [nsa] then exits non-zero after it printed its line *)
Definition oneFails : World := {|
  w_exec := fun _ cmd _ =>
    if hasWord " nsa " cmd
    then mkExec true EmptyString (downloadedLine "nsa" "/opt/ks/nsa.json") 2
    else mkExec false EmptyString (downloadedLine "mitre" "/opt/ks/mitre.json") 1;
  w_fetchJson := w_fetchJson (World := installed);
  w_fetch := w_fetch (World := installed);
  w_pipeline := w_pipeline (World := installed);
  w_mkdir := w_mkdir (World := installed);
  w_access := w_access (World := installed);
  w_chmod := w_chmod (World := installed);
  w_readdir := w_readdir (World := installed);
  w_readFile := w_readFile (World := installed);
  w_realpath := w_realpath (World := installed);
  w_mkdtemp := w_mkdtemp (World := installed);
  w_uuid := w_uuid (World := installed)
|}.

(** the same, with the failing subprocess printing a plain error text *)
Definition oneFailsPlainly : World := {|
  w_exec := fun _ cmd _ =>
    if hasWord " nsa " cmd
    then mkExec true EmptyString "connection refused" 2
    else mkExec false EmptyString (downloadedLine "mitre" "/opt/ks/mitre.json") 1;
  w_fetchJson := w_fetchJson (World := installed);
  w_fetch := w_fetch (World := installed);
  w_pipeline := w_pipeline (World := installed);
  w_mkdir := w_mkdir (World := installed);
  w_access := w_access (World := installed);
  w_chmod := w_chmod (World := installed);
  w_readdir := w_readdir (World := installed);
  w_readFile := w_readFile (World := installed);
  w_realpath := w_realpath (World := installed);
  w_mkdtemp := w_mkdtemp (World := installed);
  w_uuid := w_uuid (World := installed)
|}.

Definition downloadCommand (framework : string) : string :=
  dq +:+ "/opt/ks/kubescape" +:+ dq +:+ " download framework " +:+ framework
  +:+ " -o " +:+ dq +:+ "/opt/ks" +:+ dq.

Definition nsaFailed : Download :=
  mkDownload 0 "nsa" (downloadCommand "nsa")
             (mkExec true EmptyString (downloadedLine "nsa" "/opt/ks/nsa.json") 2).

Definition nsaFailedPlainly : Download :=
  mkDownload 0 "nsa" (downloadCommand "nsa") (mkExec true EmptyString "connection refused" 2).

Definition mitreSucceeded : Download :=
  mkDownload 1 "mitre" (downloadCommand "mitre")
             (mkExec false EmptyString (downloadedLine "mitre" "/opt/ks/mitre.json") 1).

(** the batch of scenario D: [nsa] fails, [mitre] succeeds *)
Definition failedBatch : Outcome unit * St :=
  installFrameworks (host := linux) (world := oneFails) ["nsa"; "mitre"] emptyCatalog.

(** [setup] of the earlier variant, called twice on the singleton *)
Definition legacyFirst : Outcome bool * St :=
  Legacy.setup (host := linux) (world := installed) config None fresh.

Definition legacySecond : Outcome bool * St :=
  Legacy.setup (host := linux) (world := installed) config None (snd legacyFirst).

(** the release registry cannot be reached and no download gets through *)
Definition offline : World := {|
  w_exec := w_exec (World := installed);
  w_fetchJson := fun _ _ => None;
  w_fetch := fun _ url _ => inl (JsSysError "fetch" url);
  w_pipeline := w_pipeline (World := installed);
  w_mkdir := w_mkdir (World := installed);
  w_access := w_access (World := installed);
  w_chmod := w_chmod (World := installed);
  w_readdir := w_readdir (World := installed);
  w_readFile := w_readFile (World := installed);
  w_realpath := w_realpath (World := installed);
  w_mkdtemp := w_mkdtemp (World := installed);
  w_uuid := w_uuid (World := installed)
|}.

(** the tool is absent and nothing can be downloaded *)
Definition unreachable : World := {|
  w_exec := fun _ _ _ => mkExec true EmptyString "not found" 0;
  w_fetchJson := fun _ _ => None;
  w_fetch := fun _ url _ => inl (JsSysError "fetch" url);
  w_pipeline := w_pipeline (World := installed);
  w_mkdir := w_mkdir (World := installed);
  w_access := w_access (World := installed);
  w_chmod := w_chmod (World := installed);
  w_readdir := w_readdir (World := installed);
  w_readFile := w_readFile (World := installed);
  w_realpath := w_realpath (World := installed);
  w_mkdtemp := w_mkdtemp (World := installed);
  w_uuid := w_uuid (World := installed)
|}.

(** the custom framework directory cannot be created *)
Definition readOnlyDisk : World := {|
  w_exec := w_exec (World := installed);
  w_fetchJson := w_fetchJson (World := installed);
  w_fetch := w_fetch (World := installed);
  w_pipeline := w_pipeline (World := installed);
  w_mkdir := fun _ _ => false;
  w_access := w_access (World := installed);
  w_chmod := w_chmod (World := installed);
  w_readdir := w_readdir (World := installed);
  w_readFile := w_readFile (World := installed);
  w_realpath := w_realpath (World := installed);
  w_mkdtemp := w_mkdtemp (World := installed);
  w_uuid := w_uuid (World := installed)
|}.

(** a configuration with a framework directory of its own *)
Definition customDirectory : IKubescapeConfig :=
  mkConfig "v2.0.144" (Some "/srv/frameworks") "/opt/ks" (Some ["nsa"]) (Some ["nsa"]).

(** the tool fails on every command and prints nothing that parses *)
Definition failing : World := {|
  w_exec := fun _ _ _ => mkExec true "panic" "cluster unreachable" 0;
  w_fetchJson := w_fetchJson (World := installed);
  w_fetch := w_fetch (World := installed);
  w_pipeline := w_pipeline (World := installed);
  w_mkdir := w_mkdir (World := installed);
  w_access := w_access (World := installed);
  w_chmod := w_chmod (World := installed);
  w_readdir := w_readdir (World := installed);
  w_readFile := w_readFile (World := installed);
  w_realpath := w_realpath (World := installed);
  w_mkdtemp := w_mkdtemp (World := installed);
  w_uuid := w_uuid (World := installed)
|}.

(** what [kubescape list frameworks] prints *)
Definition listingText : string :=
  "Supported frameworks:" +:+ nl +:+ nl
  +:+ "  * NSA  " +:+ nl
  +:+ "  * MITRE" +:+ nl
  +:+ "  * ArmoBest".

Definition listing : World := {|
  w_exec := fun _ _ _ => mkExec false listingText EmptyString 0;
  w_fetchJson := w_fetchJson (World := installed);
  w_fetch := w_fetch (World := installed);
  w_pipeline := w_pipeline (World := installed);
  w_mkdir := w_mkdir (World := installed);
  w_access := w_access (World := installed);
  w_chmod := w_chmod (World := installed);
  w_readdir := w_readdir (World := installed);
  w_readFile := w_readFile (World := installed);
  w_realpath := w_realpath (World := installed);
  w_mkdtemp := w_mkdtemp (World := installed);
  w_uuid := w_uuid (World := installed)
|}.

End Sample.

(** * Properties *)

(** ** The monad *)

Lemma bind_eq_Ok {A B} (m : M A) (k : A -> M B) st a st1 :
  m st = (Ok a, st1) -> bind m k st = k a st1.
Proof. intros H. unfold bind. rewrite H. reflexivity. Qed.

Lemma bind_eq_Rejected {A B} (m : M A) (k : A -> M B) st e st1 :
  m st = (Rejected e, st1) -> bind m k st = (Rejected e, st1).
Proof. intros H. unfold bind. rewrite H. reflexivity. Qed.

Lemma bind_eq_Uncaught {A B} (m : M A) (k : A -> M B) st e st1 :
  m st = (Uncaught e, st1) -> bind m k st = (Uncaught e, st1).
Proof. intros H. unfold bind. rewrite H. reflexivity. Qed.

(** one step of the embedded code: the monad's operations are unfolded and
    what is decided is computed *)
Ltac mstep :=
  cbv beta iota zeta delta
      [bind ret throw getApi modifyApi emit request tryCatch inCallback liftE
       ui_info ui_error ui_debug ui_progress ui_slow progress exec negb];
  cbn [api trace].

(** steps repeated, the accessors and field updates of [this] included *)
Ltac mrun :=
  repeat (progress
            (cbv beta iota zeta delta
                 [bind ret throw getApi modifyApi emit request tryCatch inCallback liftE
                  ui_info ui_error ui_debug ui_progress ui_slow progress exec negb
                  get_path get_directory get_version get_frameworkDirectory];
             cbn [api trace _isInitialized _isInstalled _path _frameworkDir _versionInfo
                  _frameworks set_isInitialized set_isInstalled set_path set_frameworkDir
                  set_versionInfo set_frameworks])).

(** ** The catalog merge *)

Lemma hasProperty_false (to : gmap string KubescapeFramework) (key : string) :
  hasProperty to key = false <-> to !! key = None /\ isPrototypeKey key = false.
Proof.
  unfold hasProperty, getProperty.
  destruct (to !! key); destruct (isPrototypeKey key); split; intros H;
    try discriminate; try (destruct H; discriminate); auto.
Qed.

(** C3.  [appendToFrameworks] is first-write-wins.  After merging [from]
    into [to], a name the catalog already had keeps the very framework it
    had; a name it lacked holds the first framework of that name in [from],
    and nothing else is inserted (a name inherited from [Object.prototype]
    counts as taken and stays out). *)
Theorem appendToFrameworks_first_write_wins
        (to : gmap string KubescapeFramework) (from : list KubescapeFramework)
        (key : string) :
  appendToFrameworks to from !! key =
    match to !! key with
    | Some f => Some f
    | None => if isPrototypeKey key then None else firstNamed key from
    end.
Proof.
  revert to. induction from as [| framework rest IH]; intros to; simpl.
  - destruct (to !! key); [reflexivity |]. destruct (isPrototypeKey key); reflexivity.
  - destruct (hasProperty to (name framework)) eqn:Hp; simpl.
    + rewrite IH. destruct (to !! key) eqn:Hk; [reflexivity |].
      destruct (isPrototypeKey key) eqn:Hproto; [reflexivity |].
      unfold firstNamed. simpl.
      destruct (String.eqb (name framework) key) eqn:He; [| reflexivity].
      apply String.eqb_eq in He. subst key.
      assert (hasProperty to (name framework) = false) as Hf
          by (apply hasProperty_false; auto).
      congruence.
    + apply hasProperty_false in Hp as [Hnone Hproto].
      rewrite IH. unfold firstNamed. simpl.
      destruct (String.eqb (name framework) key) eqn:He.
      * apply String.eqb_eq in He. subst key.
        rewrite lookup_insert_eq, Hnone, Hproto. reflexivity.
      * apply String.eqb_neq in He.
        rewrite lookup_insert_ne by exact He. reflexivity.
Qed.

(** ** Strings and the version pattern *)

Lemma append_cons (x : ascii) (a b : string) : String x a +:+ b = String x (a +:+ b).
Proof. reflexivity. Qed.

Lemma append_nil_l (a : string) : EmptyString +:+ a = a.
Proof. reflexivity. Qed.

Lemma append_assoc (a b c : string) : (a +:+ b) +:+ c = a +:+ (b +:+ c).
Proof.
  induction a as [| x a IH]; [reflexivity |].
  rewrite !append_cons, IH. reflexivity.
Qed.

Lemma append_nil_r (a : string) : a +:+ EmptyString = a.
Proof.
  induction a as [| x a IH]; [reflexivity |].
  rewrite append_cons, IH. reflexivity.
Qed.

Lemma length_append (a b : string) :
  String.length (a +:+ b) = (String.length a + String.length b)%nat.
Proof.
  induction a as [| x a IH]; [reflexivity |].
  rewrite append_cons. simpl. rewrite IH. reflexivity.
Qed.

Ltac sapp := repeat first [rewrite append_cons | rewrite append_nil_l | rewrite append_assoc | rewrite append_nil_r].

Lemma spanDigits_split (s : string) :
  s = fst (JsString.spanDigits s) +:+ snd (JsString.spanDigits s).
Proof.
  induction s as [| c s IH]; simpl; [reflexivity |].
  destruct (JsString.isDigit c); [| reflexivity].
  destruct (JsString.spanDigits s) as [d r]. simpl in *.
  rewrite append_cons, <- IH. reflexivity.
Qed.

Lemma spanDigits_fst_idem (s : string) :
  fst (JsString.spanDigits (fst (JsString.spanDigits s))) = fst (JsString.spanDigits s).
Proof.
  induction s as [| c s IH]; simpl; [reflexivity |].
  destruct (JsString.isDigit c) eqn:Hc; [| reflexivity].
  destruct (JsString.spanDigits s) as [d r]. simpl in *. rewrite Hc.
  destruct (JsString.spanDigits d) as [d' r']. simpl in *. rewrite IH. reflexivity.
Qed.

(** digits followed by anything: the span takes the digits and goes on *)
Lemma spanDigits_append (d r : string) :
  fst (JsString.spanDigits d) = d ->
  JsString.spanDigits (d +:+ r) =
    (d +:+ fst (JsString.spanDigits r), snd (JsString.spanDigits r)).
Proof.
  induction d as [| c d IH]; intros H.
  - rewrite !append_nil_l. destruct (JsString.spanDigits r); reflexivity.
  - rewrite !append_cons. simpl in *. destruct (JsString.isDigit c) eqn:Hc.
    + destruct (JsString.spanDigits d) as [d' r'] eqn:Hd. simpl in H.
      injection H as H. rewrite IH by (simpl; exact H). reflexivity.
    + simpl in H. discriminate.
Qed.

Lemma spanDigits_dot (r : string) :
  JsString.spanDigits (String "." r) = (EmptyString, String "." r).
Proof. reflexivity. Qed.

Lemma firstVersion_cons (c : ascii) (s : string) :
  Regex.firstVersion (String c s) =
    match Regex.versionAt (String c s) with
    | Some v => Some v
    | None => Regex.firstVersion s
    end.
Proof. reflexivity. Qed.

Lemma versionAt_sound (s v : string) :
  Regex.versionAt s = Some v -> exists post, s = v +:+ post /\ isVersionToken v.
Proof.
  unfold Regex.versionAt. destruct s as [| c r]; [discriminate |].
  destruct (Ascii.eqb c "v") eqn:Hc; [| discriminate].
  apply Ascii.eqb_eq in Hc. subst c.
  pose proof (spanDigits_split r) as S1. pose proof (spanDigits_fst_idem r) as I1.
  destruct (JsString.spanDigits r) as [d1 r1]. simpl in S1, I1.
  destruct d1 as [| x1 d1]; [discriminate |].
  destruct r1 as [| p1 r2]; [discriminate |].
  destruct (Ascii.eqb p1 ".") eqn:Hp1; [| discriminate].
  apply Ascii.eqb_eq in Hp1. subst p1.
  pose proof (spanDigits_split r2) as S2. pose proof (spanDigits_fst_idem r2) as I2.
  destruct (JsString.spanDigits r2) as [d2 r3]. simpl in S2, I2.
  destruct d2 as [| x2 d2]; [discriminate |].
  destruct r3 as [| p2 r4]; [discriminate |].
  destruct (Ascii.eqb p2 ".") eqn:Hp2; [| discriminate].
  apply Ascii.eqb_eq in Hp2. subst p2.
  pose proof (spanDigits_split r4) as S3. pose proof (spanDigits_fst_idem r4) as I3.
  destruct (JsString.spanDigits r4) as [d3 r5]. simpl in S3, I3.
  destruct d3 as [| x3 d3]; [discriminate |].
  intros H. injection H as H. subst v.
  exists r5. split.
  - subst r. subst r2. subst r4. sapp. reflexivity.
  - exists (String x1 d1), (String x2 d2), (String x3 d3).
    unfold allDigits. repeat split; auto; discriminate.
Qed.

Lemma versionAt_complete (tok post : string) :
  isVersionToken tok -> Regex.versionAt (tok +:+ post) <> None.
Proof.
  intros (d1 & d2 & d3 & [A1 N1] & [A2 N2] & [A3 N3] & ->).
  sapp. unfold Regex.versionAt. simpl.
  rewrite (spanDigits_append d1) by exact A1. rewrite spanDigits_dot. simpl.
  rewrite append_nil_r.
  destruct d1 as [| x1 d1]; [congruence |]. sapp. simpl.
  rewrite (spanDigits_append d2) by exact A2. rewrite spanDigits_dot. simpl.
  rewrite append_nil_r.
  destruct d2 as [| x2 d2]; [congruence |]. sapp. simpl.
  rewrite (spanDigits_append d3) by exact A3.
  destruct d3 as [| x3 d3]; [congruence |]. sapp. simpl. discriminate.
Qed.

Lemma firstVersion_sound (s v : string) :
  Regex.firstVersion s = Some v ->
  exists pre post, s = pre +:+ v +:+ post /\ isVersionToken v.
Proof.
  induction s as [| c s IH].
  - discriminate.
  - rewrite firstVersion_cons.
    destruct (Regex.versionAt (String c s)) as [v0 |] eqn:Hv.
    + intros H. injection H as H. subst v0.
      apply versionAt_sound in Hv as (post & Hs & Htok).
      exists EmptyString, post. split; [exact Hs | exact Htok].
    + intros H. apply IH in H as (pre & post & Hs & Htok).
      exists (String c pre), post. split; [rewrite append_cons, Hs; reflexivity | exact Htok].
Qed.

Lemma firstVersion_complete (pre tok post : string) :
  isVersionToken tok -> Regex.firstVersion (pre +:+ tok +:+ post) <> None.
Proof.
  intros Htok. induction pre as [| c pre IH].
  - rewrite append_nil_l.
    pose proof (versionAt_complete tok post Htok) as H.
    destruct (tok +:+ post) as [| x y] eqn:E.
    + exfalso. apply H. reflexivity.
    + rewrite firstVersion_cons.
      destruct (Regex.versionAt (String x y)); [discriminate | congruence].
  - rewrite append_cons, firstVersion_cons.
    destruct (Regex.versionAt (String c (pre +:+ tok +:+ post))); [discriminate | exact IH].
Qed.

(** the pattern finds nothing exactly when the text holds no version token *)
Lemma firstVersion_None_iff (s : string) :
  Regex.firstVersion s = None <-> noVersionToken s.
Proof.
  unfold noVersionToken. split.
  - intros H (pre & tok & post & -> & Htok).
    exact (firstVersion_complete pre tok post Htok H).
  - intros H. destruct (Regex.firstVersion s) as [v |] eqn:E; [| reflexivity].
    exfalso. apply H. apply firstVersion_sound in E as (pre & post & Hs & Htok).
    exists pre, v, post. split; [exact Hs | exact Htok].
Qed.


(** ** Version detection *)

(** C10, amended.  When the tool is installed and its version subcommand
    succeeds with a standard output that holds no token [v<major>.<minor>.<patch>],
    [getKubescapeVersion] resolves with the placeholder version "unknown"
    and [isLatest = true], whatever the requested kind: the subprocess is
    the only interaction, so no upstream query is made, and the API object
    is left as it was. *)
Theorem getKubescapeVersion_no_token `{host : Host} `{world : World}
        (kind : string) (st : St) (p : KubescapePath) :
  _isInstalled (api st) = true ->
  _path (api st) = Some p ->
  let cmd := dq +:+ fullPath p +:+ dq +:+ " " +:+ COMMAND_GET_VERSION in
  let opts := mkExecOptions (Some [(ENV_SKIP_UPDATE_CHECK, "1")]) None in
  let r := w_exec (trace st) cmd opts in
  exec_err r = false ->
  noVersionToken (exec_stdout r) ->
  getKubescapeVersion kind st =
    (Ok (mkVersion "unknown" true), mkSt (api st) (trace st ++ [EvExec cmd opts r])).
Proof.
  intros Hinst Hpath cmd opts r Herr Htok.
  apply firstVersion_None_iff in Htok. subst cmd opts r.
  unfold getKubescapeVersion. mstep.
  rewrite Hinst. unfold _buildKubescapeCommand, get_path. mstep.
  rewrite Hpath. mstep. simpl trace. simpl api.
  rewrite Herr, Htok. reflexivity.
Qed.

Lemma getKubescapeVersion_no_token_witness :
  getKubescapeVersion (host := Sample.linux) (world := Sample.mute) "latest" Sample.probed =
    (Ok (mkVersion "unknown" true),
     mkSt (api Sample.probed)
          [EvExec (dq +:+ "/opt/ks/kubescape" +:+ dq +:+ " " +:+ COMMAND_GET_VERSION)
                  (mkExecOptions (Some [(ENV_SKIP_UPDATE_CHECK, "1")]) None)
                  (mkExec false "kubescape, the scanner" EmptyString 0)]).
Proof.
  apply (getKubescapeVersion_no_token (host := Sample.linux) (world := Sample.mute)
           "latest" Sample.probed (mkPath "/opt/ks/kubescape" "/opt/ks")).
  - reflexivity.
  - reflexivity.
  - reflexivity.
  - apply firstVersion_None_iff. reflexivity.
Defined.

(** C10 as stated fails: the version subcommand exits non-zero, its
    standard output is empty and so holds no version token, and
    [getKubescapeVersion] does not resolve with the placeholder: the
    callback throws the text of the standard error, and the promise is
    left pending. *)
Lemma getKubescapeVersion_failed_subcommand_counterexample :
  exec_err (w_exec (World := Sample.noReport) (trace Sample.probed)
                   (versionCommand (mkPath "/opt/ks/kubescape" "/opt/ks")) versionOptions)
  = true
  /\
  noVersionToken
    (exec_stdout (w_exec (World := Sample.noReport) (trace Sample.probed)
                         (versionCommand (mkPath "/opt/ks/kubescape" "/opt/ks"))
                         versionOptions))
  /\
  (forall kind,
      fst (getKubescapeVersion (host := Sample.linux) (world := Sample.noReport)
                               kind Sample.probed)
      = Uncaught (JsErr "cluster unreachable"))
  /\
  fst (getKubescapeVersion (host := Sample.linux) (world := Sample.noReport)
                           "v2.0.144" Sample.probed)
  <> Ok (mkVersion "unknown" true).
Proof.
  split; [reflexivity |]. split; [apply firstVersion_None_iff; reflexivity |].
  split; [intros kind; reflexivity | discriminate].
Qed.

(** ** The active set *)

Lemma set_frameworks_same (st : St) (c : gmap string KubescapeFramework) :
  _frameworks (api st) = Some c -> mkSt (set_frameworks c (api st)) (trace st) = st.
Proof.
  destruct st as [[i n p d v f] tr]. simpl. intros ->. reflexivity.
Qed.

Lemma activate_own (st : St) (c : gmap string KubescapeFramework) (n : string)
      (f : KubescapeFramework) :
  _frameworks (api st) = Some c -> c !! n = Some f ->
  activate n st =
    (Ok tt, mkSt (set_frameworks (<[n := markInstalled f]> c) (api st)) (trace st)).
Proof.
  intros Hc Hn. unfold activate. mstep. rewrite Hc.
  unfold getProperty. rewrite Hn. reflexivity.
Qed.

Lemma forEach_activate (l : list string) :
  forall (c : gmap string KubescapeFramework) (st : St),
    _frameworks (api st) = Some c ->
    (forall n, In n l -> is_Some (c !! n)) ->
    exists c',
      forEach l activate st = (Ok tt, mkSt (set_frameworks c' (api st)) (trace st)) /\
      forall k, c' !! k = if existsb (String.eqb k) l
                          then markInstalled <$> c !! k
                          else c !! k.
Proof.
  induction l as [| n rest IH]; intros c st Hc Hall.
  - exists c. split; [| intros k; reflexivity].
    simpl. unfold ret. rewrite set_frameworks_same by exact Hc. reflexivity.
  - destruct (Hall n (or_introl eq_refl)) as [f Hf].
    pose (c1 := <[n := markInstalled f]> c).
    pose (st1 := mkSt (set_frameworks c1 (api st)) (trace st)).
    destruct (IH c1 st1) as (c' & Hrun & Hlook).
    + reflexivity.
    + intros m Hm. subst c1. destruct (decide (n = m)) as [-> | Hne].
      * rewrite lookup_insert_eq. eauto.
      * rewrite lookup_insert_ne by exact Hne. apply Hall. right. exact Hm.
    + exists c'. split.
      * simpl. rewrite (bind_eq_Ok _ _ _ _ _ (activate_own st c n f Hc Hf)).
        fold c1. fold st1. rewrite Hrun. subst st1. reflexivity.
      * intros k. rewrite Hlook. subst c1. simpl.
        destruct (String.eqb k n) eqn:Hkn.
        -- apply String.eqb_eq in Hkn. subst k.
           rewrite lookup_insert_eq, Hf. simpl.
           destruct (existsb (String.eqb n) rest); reflexivity.
        -- apply String.eqb_neq in Hkn.
           rewrite lookup_insert_ne by congruence. reflexivity.
Qed.

Lemma existsb_catalogKeys (c : gmap string KubescapeFramework) (k : string) :
  is_Some (c !! k) -> existsb (String.eqb k) (catalogKeys c) = true.
Proof.
  intros [f Hf]. apply existsb_exists. exists k. split; [| apply String.eqb_refl].
  unfold catalogKeys. apply in_map_iff. exists (k, f). split; [reflexivity |].
  apply list_elem_of_In. apply elem_of_map_to_list. exact Hf.
Qed.

Lemma In_catalogKeys (c : gmap string KubescapeFramework) (n : string) :
  In n (catalogKeys c) -> is_Some (c !! n).
Proof.
  unfold catalogKeys. intros H. apply in_map_iff in H as ([k f] & <- & Hin).
  apply list_elem_of_In in Hin. apply elem_of_map_to_list in Hin. simpl. eauto.
Qed.

(** C8, amended.  In the active-set step, when the scan list is absent or
    holds the "all" sentinel every cataloged framework gets
    [isInstalled = true]; when it spells out names that are all cataloged
    (the empty list among them, which selects nothing), exactly the entries
    of those names get [isInstalled = true] and every other entry is left
    as it was.  Nothing else of the API object changes and nothing is
    requested of the world. *)
Theorem setup_scanFrameworks_active_set
        (configs : IKubescapeConfig) (st : St) (c : gmap string KubescapeFramework) :
  _frameworks (api st) = Some c ->
  scanListCataloged configs c ->
  exists c',
    setup_scanFrameworks configs st =
      (Ok tt, mkSt (set_frameworks c' (api st)) (trace st)) /\
    forall k, c' !! k = if selectsForScan configs k
                        then markInstalled <$> c !! k
                        else c !! k.
Proof.
  intros Hc Hlist. unfold setup_scanFrameworks. mstep. rewrite Hc.
  unfold scanListCataloged, selectsForScan in *.
  assert (Hkeys :
            exists c',
              forEach (catalogKeys c) activate st =
                (Ok tt, mkSt (set_frameworks c' (api st)) (trace st)) /\
              forall k, c' !! k = markInstalled <$> c !! k).
  { destruct (forEach_activate (catalogKeys c) c st Hc (In_catalogKeys c))
      as (c' & Hrun & Hlook).
    exists c'. split; [exact Hrun |]. intros k. rewrite Hlook.
    destruct (c !! k) as [f |] eqn:Hk.
    - rewrite existsb_catalogKeys by (rewrite Hk; eauto). reflexivity.
    - destruct (existsb (String.eqb k) (catalogKeys c)); reflexivity. }
  destruct (scanFrameworks configs) as [l |]; [| exact Hkeys].
  destruct (includesAll l) eqn:Hall; [exact Hkeys |].
  simpl. exact (forEach_activate l c st Hc (Hlist eq_refl)).
Qed.

Lemma setup_scanFrameworks_active_set_witness :
  exists c',
    setup_scanFrameworks Sample.config Sample.cataloged =
      (Ok tt, mkSt (set_frameworks c' (api Sample.cataloged)) (trace Sample.cataloged)) /\
    forall k, c' !! k = if selectsForScan Sample.config k
                        then markInstalled <$> ({["nsa" := Sample.nsaOnDisk]} : gmap string KubescapeFramework) !! k
                        else ({["nsa" := Sample.nsaOnDisk]} : gmap string KubescapeFramework) !! k.
Proof.
  apply (setup_scanFrameworks_active_set Sample.config Sample.cataloged
           {["nsa" := Sample.nsaOnDisk]}).
  - reflexivity.
  - simpl. intros _ n [<- | []]. rewrite lookup_singleton_eq. eexists. reflexivity.
Defined.

(** C8 as stated fails on the empty scan list: the list is truthy in
    JavaScript, the loop runs over no name, and the cataloged framework
    stays inactive. *)
Lemma active_set_empty_list_counterexample :
  scanFrameworks Sample.scanNothing = Some [] /\
  fst (setup_scanFrameworks Sample.scanNothing Sample.cataloged) = Ok tt /\
  catalogOf (api (snd (setup_scanFrameworks Sample.scanNothing Sample.cataloged))) !! "nsa"
    = Some (mkFramework "nsa" false (JStr "/opt/ks/nsa.json")) /\
  ~ allActive (catalogOf (api (snd (setup_scanFrameworks Sample.scanNothing Sample.cataloged)))).
Proof.
  assert (H : catalogOf (api (snd (setup_scanFrameworks Sample.scanNothing Sample.cataloged)))
              !! "nsa" = Some (mkFramework "nsa" false (JStr "/opt/ks/nsa.json")))
    by (vm_compute; reflexivity).
  repeat split; try reflexivity; try exact H.
  intros Hact. specialize (Hact _ _ H). discriminate.
Qed.

(** ** expand *)

Lemma substring_0_append (a b : string) :
  String.substring 0 (String.length a) (a +:+ b) = a.
Proof.
  induction a as [| x a IH]; [destruct b; reflexivity |].
  rewrite append_cons. simpl. rewrite IH. reflexivity.
Qed.


Lemma substring_skip (a b : string) (m : nat) :
  String.substring (String.length a) m (a +:+ b) = String.substring 0 m b.
Proof.
  induction a as [| x a IH]; [reflexivity |].
  rewrite append_cons. simpl. exact IH.
Qed.












(** ** downloadFile *)

Lemma reportChunks_events `{host : Host} (chunks : list nat) :
  forall (read : nat) (size : option nat) (st : St),
    reportChunks read size chunks st =
      (Ok tt, mkSt (api st) (trace st ++ chunkEvents read size chunks)).
Proof.
  induction chunks as [| chunk rest IH]; intros read size st; simpl.
  - unfold ret. rewrite app_nil_r. destruct st; reflexivity.
  - mstep. rewrite IH. simpl. rewrite <- app_assoc. reflexivity.
Qed.

(** traces as one list: the appends are nested to the right and computed *)
Ltac flat := repeat (progress (rewrite <- ?app_assoc; cbn [app])).

(** what [downloadFile] does, step by step, on the answers of the world *)
Lemma downloadFile_run `{host : Host} `{world : World}
      (url downloadDir fileName : string) (abort : option AbortController)
      (executable : bool) (st : St) (d : string) :
  decodeURIComponent downloadDir = Some d ->
  downloadFile url downloadDir fileName abort executable st =
    let localPath := path_resolve2 d fileName in
    let signal := bool_decide (is_Some abort) in
    let ends (p : Outcome string) (tr : Trace) := (p, mkSt (api st) tr) in
    let tr0 := trace st
               ++ [EvProgressBegin "Downloading Kubescape" abort;
                   EvUi UiDebug ("Attempt to download kubescape into '" +:+ localPath +:+ "'");
                   EvUi UiDebug ("creating " +:+ downloadDir)] in
    let made := w_mkdir tr0 d in
    let tr1 := tr0 ++ [EvMkdir d made] in
    let answer := w_fetch tr1 url signal in
    let tr2 := tr1 ++ [EvFetch url signal answer] in
    if negb made
    then ends (Ok EmptyString) (tr1 ++ [couldNotDownload url (JsSysError "mkdir" d)])
    else
      match answer with
      | inl e => ends (Ok EmptyString) (tr2 ++ [couldNotDownload url e])
      | inr response =>
          if negb (resp_ok response) || negb (resp_hasBody response)
          then ends (Ok EmptyString)
                    (tr2 ++ [EvUi UiError ("Failed to download " +:+ url);
                             couldNotDownload url (JsErr EmptyString)])
          else
            let tr3 := tr2 ++ [EvUi UiDebug ("Requesting kubescape status: "
                                             +:+ resp_statusText response
                                             +:+ " (" +:+ resp_status response +:+ ")")] in
            let piped := w_pipeline tr3 localPath in
            let tr4 := tr3 ++ chunkEvents 0 (resp_size response) (pipe_chunks piped)
                           ++ [EvPipeline localPath piped] in
            let done := EvUi UiInfo ("Successfully downloaded " +:+ fileName
                                     +:+ " into " +:+ downloadDir) in
            match pipe_end piped with
            | PipeFailed e =>
                ends (Ok EmptyString) (tr4 ++ [EvUnlink localPath; couldNotDownload url e])
            | PipeStalled => ends (Uncaught JsStalled) tr4
            | PipeDone =>
                if executable
                then
                  if w_chmod tr4 localPath
                  then ends (Ok localPath) (tr4 ++ [EvChmod localPath true; done])
                  else ends (Ok EmptyString)
                            (tr4 ++ [EvChmod localPath false;
                                     couldNotDownload url (JsSysError "chmod" localPath)])
                else ends (Ok localPath) (tr4 ++ [done])
            end
      end.
Proof.
  intros Hd. cbv zeta.
  unfold downloadFile, decodeURIComponentM. rewrite Hd.
  unfold fs_mkdir, fs_chmod, pipeline, never, couldNotDownload.
  mstep. flat.
  destruct (w_mkdir _ d) eqn:Hmk; mstep; flat; [| reflexivity].
  destruct (w_fetch _ url _) as [e | response] eqn:Hf; mstep; flat; [reflexivity |].
  destruct (resp_ok response) eqn:Hok; cbn [negb orb]; [| mstep; flat; reflexivity].
  destruct (resp_hasBody response) eqn:Hbody; cbn [negb orb]; [| mstep; flat; reflexivity].
  mstep. rewrite reportChunks_events. mstep. cbn [api trace]. flat.
  destruct (w_pipeline _ (path_resolve2 d fileName)) as [chunks pend] eqn:Hp.
  cbn [pipe_chunks pipe_end].
  destruct pend as [| e |]; mstep; flat; [| reflexivity | reflexivity].
  destruct executable; mstep; flat; [| reflexivity].
  destruct (w_chmod _ (path_resolve2 d fileName)) eqn:Hch; mstep; flat; reflexivity.
Qed.



(** a transfer that breaks mid-stream: the partial file is unlinked, the
    error is reported, the empty string comes back *)
Example downloadFile_cut_off :
  downloadFile (host := Sample.linux) (world := Sample.cutOff)
               "https://example.org/kubescape" "/opt/ks" "kubescape" None true Sample.fresh
  = (Ok EmptyString,
     mkSt newKubescapeApi
          [EvProgressBegin "Downloading Kubescape" None;
           EvUi UiDebug "Attempt to download kubescape into '/opt/ks/kubescape'";
           EvUi UiDebug "creating /opt/ks";
           EvMkdir "/opt/ks" true;
           EvFetch "https://example.org/kubescape" false
                   (inr (mkResponse true true "OK" "200" (Some 10%nat)));
           EvUi UiDebug "Requesting kubescape status: OK (200)";
           EvProgress 4 (Some 10%nat);
           EvPipeline "/opt/ks/kubescape" (mkPipeline [4%nat] (PipeFailed (JsErr "aborted")));
           EvUnlink "/opt/ks/kubescape";
           EvUi UiError "Could not download https://example.org/kubescape, reason: Error: aborted"]).
Proof. vm_compute. reflexivity. Qed.


(** ** Version reconciliation *)

Lemma getLatestVersion_eq `{host : Host} `{world : World} (st : St) :
  getLatestVersion st =
    let r := w_fetchJson (trace st) PACKAGE_BASE_URL in
    let st1 := mkSt (api st) (trace st ++ [EvFetchJson PACKAGE_BASE_URL r]) in
    match r with
    | Some obj =>
        match Js.get obj "tag_name" with
        | inr t => (Ok t, st1)
        | inl e => (Rejected e, st1)
        end
    | None => (Rejected (JsSysError "fetch" PACKAGE_BASE_URL), st1)
    end.
Proof.
  unfold getLatestVersion, fetchJson. mstep.
  destruct (w_fetchJson (trace st) PACKAGE_BASE_URL) as [obj |]; mstep; [| reflexivity].
  destruct (Js.get obj "tag_name"); reflexivity.
Qed.

Lemma getKubescapeVersion_eq `{host : Host} `{world : World}
      (kind : string) (st : St) (p : KubescapePath) :
  _isInstalled (api st) = true ->
  _path (api st) = Some p ->
  getKubescapeVersion kind st =
    let r := w_exec (trace st) (versionCommand p) versionOptions in
    let st1 := mkSt (api st) (trace st ++ [EvExec (versionCommand p) versionOptions r]) in
    if exec_err r then (Uncaught (JsErr (exec_stderr r)), st1)
    else
      match Regex.firstVersion (exec_stdout r) with
      | Some v =>
          if String.eqb kind "latest"
          then match getLatestVersion st1 with
               | (Ok t, st2) => (Ok (mkVersion v (Js.strictEqString t v)), st2)
               | (Rejected e, st2) => (Uncaught e, st2)
               | (Uncaught e, st2) => (Uncaught e, st2)
               end
          else (Ok (mkVersion v false), st1)
      | None => (Ok defaultKubescapeVersion, st1)
      end.
Proof.
  intros Hinst Hpath.
  unfold getKubescapeVersion. mstep.
  rewrite Hinst. unfold _buildKubescapeCommand, get_path. mstep.
  rewrite Hpath. mstep. fold (versionCommand p). fold versionOptions.
  destruct (exec_err _); [reflexivity |].
  destruct (Regex.firstVersion _) as [v |]; [| reflexivity].
  destruct (String.eqb kind "latest"); [| reflexivity].
  mstep. destruct (getLatestVersion _) as [[t | e | e] st2]; reflexivity.
Qed.




(** the requested version is the sentinel, the tool is at v2.0.144 and the
    registry says v3.0.0: an update is needed *)
Example setup_needsUpdate_latest :
  fst (setup_needsUpdate (host := Sample.linux) (world := Sample.installed)
                         (mkConfig "latest" None "/opt/ks" None None) Sample.fresh)
  = Ok true.
Proof. vm_compute. reflexivity. Qed.

(** ** Output-protocol negotiation *)


(** *** compare-versions on the versions the detector yields *)

Lemma round53_small (n : Z) : n < 2 ^ 53 -> JsInt.round53 n = n.
Proof.
  intros H. unfold JsInt.round53.
  destruct (n <? 2 ^ 53) eqn:E; [reflexivity |]. apply Z.ltb_ge in E. lia.
Qed.

Lemma round53_large (n : Z) : 2 ^ 53 <= n -> 2 ^ 53 <= JsInt.round53 n.
Proof.
  intros H. unfold JsInt.round53.
  destruct (n <? 2 ^ 53) eqn:E; [apply Z.ltb_lt in E; lia |].
  assert (Hpos : 0 < n) by lia.
  pose proof (Z.log2_spec n Hpos) as [Hlo _].
  assert (Hlog : 53 <= Z.log2 n).
  { apply Z.log2_le_pow2; [exact Hpos | exact H]. }
  set (e := Z.log2 n - 52) in *.
  assert (He : 0 < e) by (subst e; lia).
  assert (Hq : 2 ^ 52 <= Z.shiftr n e).
  { rewrite Z.shiftr_div_pow2 by lia.
    apply Z.div_le_lower_bound; [apply Z.pow_pos_nonneg; lia |].
    rewrite <- Z.pow_add_r by lia.
    replace (e + 52) with (Z.log2 n) by (subst e; lia). exact Hlo. }
  assert (Hshift : forall q, 2 ^ 52 <= q -> 2 ^ 53 <= Z.shiftl q e).
  { intros q Hq'. rewrite Z.shiftl_mul_pow2 by lia.
    assert (2 ^ 1 <= 2 ^ e) by (apply Z.pow_le_mono_r; lia).
    replace (2 ^ 53) with (2 ^ 52 * 2 ^ 1) by reflexivity.
    apply Z.mul_le_mono_nonneg; lia. }
  destruct (_ || _); apply Hshift; lia.
Qed.

(** next to a small Number, rounding does not show *)
Lemma compare_ofNatural (n k : Z) :
  k < 2 ^ 53 -> JsInt.compare (JsInt.ofNatural n) (JsInt.Fin k) = (n ?= k).
Proof.
  intros Hk. unfold JsInt.ofNatural.
  destruct (Z.lt_ge_cases n (2 ^ 53)) as [Hn | Hn].
  - rewrite round53_small by exact Hn.
    destruct (2 ^ 1024 <=? n) eqn:E; [| reflexivity].
    apply Z.leb_le in E.
    assert (2 ^ 53 <= 2 ^ 1024) by (apply Z.pow_le_mono_r; lia). lia.
  - pose proof (round53_large n Hn) as Hr.
    assert (Hgt : (n ?= k) = Gt) by (apply Z.compare_gt_iff; lia).
    rewrite Hgt.
    destruct (2 ^ 1024 <=? JsInt.round53 n); [reflexivity |].
    cbn. apply Z.compare_gt_iff. lia.
Qed.

Lemma allDigits_cons (d : string) :
  allDigits d -> exists c r, d = String c r /\ JsString.isDigit c = true.
Proof.
  intros [Hd Hne]. destruct d as [| c r]; [contradiction |].
  exists c, r. split; [reflexivity |].
  simpl in Hd. destruct (JsString.isDigit c); [reflexivity | discriminate].
Qed.

Lemma digit_is_plain (c : ascii) :
  JsString.isDigit c = true ->
  Semver.isPrefixChar c = false /\ Semver.isWildcardChar c = false /\
  Ascii.eqb c "-" = false /\ Ascii.eqb c "*" = false /\
  Ascii.eqb c "x" = false /\ Ascii.eqb c "X" = false.
Proof.
  destruct c as [[] [] [] [] [] [] [] []]; intros H; vm_compute in H |- *;
    try discriminate; repeat split; reflexivity.
Qed.

Lemma append_same_l (a b : string) : a = a +:+ b -> b = EmptyString.
Proof.
  intros H. assert (Hl : String.length a = String.length (a +:+ b)) by (rewrite <- H; reflexivity).
  rewrite length_append in Hl. destruct b; [reflexivity | simpl in Hl; lia].
Qed.

Lemma spanDigits_all (d : string) :
  fst (JsString.spanDigits d) = d -> JsString.spanDigits d = (d, EmptyString).
Proof.
  intros H. pose proof (spanDigits_split d) as Hs. rewrite H in Hs.
  apply append_same_l in Hs. destruct (JsString.spanDigits d) as [x y].
  simpl in *. subst. reflexivity.
Qed.

(** a version token is a version of compare-versions: its captures are
    the three runs of digits, and it has no prerelease *)
Lemma validateAndParse_token (d1 d2 d3 : string) :
  allDigits d1 -> allDigits d2 -> allDigits d3 ->
  Semver.validateAndParse ("v" +:+ d1 +:+ "." +:+ d2 +:+ "." +:+ d3)
  = Some ([Some d1; Some d2; Some d3; None], None).
Proof.
  intros A1 A2 A3.
  destruct (allDigits_cons d1 A1) as (c1 & r1 & E1 & D1).
  destruct (allDigits_cons d2 A2) as (c2 & r2 & E2 & D2).
  destruct (allDigits_cons d3 A3) as (c3 & r3 & E3 & D3).
  destruct A1 as [A1 _], A2 as [A2 _], A3 as [A3 _].
  destruct (digit_is_plain c1 D1) as (P1 & _).
  destruct (digit_is_plain c2 D2) as (_ & W2 & _).
  destruct (digit_is_plain c3 D3) as (_ & W3 & _).
  unfold Semver.validateAndParse. sapp.
  cbn [Semver.skipPrefix]. change (Semver.isPrefixChar "v") with true. cbv iota.
  assert (Hskip : Semver.skipPrefix (d1 +:+ String "." (d2 +:+ String "." d3))
                  = d1 +:+ String "." (d2 +:+ String "." d3)).
  { rewrite E1. sapp. cbn [Semver.skipPrefix]. rewrite P1. reflexivity. }
  rewrite Hskip.
  rewrite (spanDigits_append d1) by exact A1. rewrite spanDigits_dot. cbn [fst snd].
  rewrite append_nil_r.
  rewrite E1 at 1. cbv iota. cbn [Ascii.eqb Bool.eqb]. cbv iota.
  assert (Hseg2 : Semver.segment (d2 +:+ String "." d3) = Some (d2, String "." d3)).
  { unfold Semver.segment. rewrite (spanDigits_append d2) by exact A2.
    rewrite spanDigits_dot. cbn [fst snd]. rewrite append_nil_r.
    rewrite E2. sapp. rewrite W2. reflexivity. }
  rewrite Hseg2. cbn [Ascii.eqb Bool.eqb]. cbv iota.
  assert (Hseg3 : Semver.segment d3 = Some (d3, EmptyString)).
  { unfold Semver.segment. rewrite (spanDigits_all d3) by exact A3.
    rewrite E3. rewrite W3. reflexivity. }
  rewrite Hseg3. reflexivity.
Qed.

(** a run of digits against a small constant: the Numbers compare as the
    naturals do *)
Lemma compareStrings_digits (d k : string) (n : Z) :
  allDigits d ->
  Semver.isWildcard k = false ->
  Semver.tryParse k = inr (JsInt.Fin n) ->
  n < 2 ^ 53 ->
  Semver.compareStrings d k = Semver.ofComparison (Semver.digitsToZ 0 d ?= n).
Proof.
  intros A Hw Hk Hn.
  destruct (allDigits_cons d A) as (c & r & E & D).
  destruct (digit_is_plain c D) as (_ & _ & Hminus & Hstar & Hx & HX).
  destruct A as [A Hne].
  unfold Semver.compareStrings. rewrite Hw, Hk.
  assert (Hwd : Semver.isWildcard d = false).
  { unfold Semver.isWildcard. rewrite E. cbn [String.eqb]. rewrite Hstar, Hx, HX. reflexivity. }
  rewrite Hwd. cbn [orb].
  assert (Hp : Semver.tryParse d = inr (JsInt.ofNatural (Semver.digitsToZ 0 d))).
  { unfold Semver.tryParse, Semver.parseInt. subst d. cbv iota. rewrite Hminus.
    rewrite A. reflexivity. }
  rewrite Hp. rewrite compare_ofNatural by exact Hn. reflexivity.
Qed.

(** against the threshold a version token compares as its three numbers *)
Lemma compareVersions_threshold (d1 d2 d3 : string) :
  allDigits d1 -> allDigits d2 -> allDigits d3 ->
  Semver.compareVersions ("v" +:+ d1 +:+ "." +:+ d2 +:+ "." +:+ d3) FORMAT_THRESHOLD
  = Some (compareTriple (versionNumbers d1 d2 d3) thresholdTriple).
Proof.
  intros A1 A2 A3. unfold Semver.compareVersions.
  rewrite (validateAndParse_token d1 d2 d3 A1 A2 A3).
  change (Semver.validateAndParse FORMAT_THRESHOLD)
    with (Some ([Some "2"; Some "0"; Some "150"; None], @None string)).
  unfold Semver.compareSegments. cbn [List.length Nat.max Semver.compareSegments_go
                                      head tail mjoin mbind option_bind option_join].
  assert (Hz : forall d, allDigits d -> Semver.orZero (Some d) = d).
  { intros d [_ Hne]. unfold Semver.orZero.
    destruct (String.eqb d EmptyString) eqn:E; [apply String.eqb_eq in E; contradiction |].
    reflexivity. }
  rewrite (Hz d1 A1), (Hz d2 A2), (Hz d3 A3).
  change (Semver.orZero (Some "2")) with "2".
  change (Semver.orZero (Some "0")) with "0".
  change (Semver.orZero (Some "150")) with "150".
  change (Semver.orZero None) with "0".
  rewrite (compareStrings_digits d1 "2" 2 A1 eq_refl eq_refl eq_refl).
  rewrite (compareStrings_digits d2 "0" 0 A2 eq_refl eq_refl eq_refl).
  rewrite (compareStrings_digits d3 "150" 150 A3 eq_refl eq_refl eq_refl).
  change (Semver.compareStrings "0" "0") with 0.
  unfold compareTriple, versionNumbers, thresholdTriple.
  destruct (Semver.digitsToZ 0 d1 ?= 2); [| reflexivity | reflexivity].
  destruct (Semver.digitsToZ 0 d2 ?= 0); [| reflexivity | reflexivity].
  destruct (Semver.digitsToZ 0 d3 ?= 150); reflexivity.
Qed.

(** the placeholder of a tool that printed no version is not a version *)
Lemma placeholder_not_semver :
  Semver.validateAndParse (version defaultKubescapeVersion) = None.
Proof. reflexivity. Qed.




(** ** Selective download *)

Lemma preserves_ret {A} (a : A) : preservesApi (ret a).
Proof. intros st. reflexivity. Qed.

Lemma preserves_throw {A} (e : JsError) : preservesApi (@throw A e).
Proof. intros st. reflexivity. Qed.

Lemma preserves_never {A} (e : JsError) : preservesApi (@never A e).
Proof. intros st. reflexivity. Qed.

Lemma preserves_emit (e : Event) : preservesApi (emit e).
Proof. intros st. reflexivity. Qed.

Lemma preserves_getApi : preservesApi getApi.
Proof. intros st. reflexivity. Qed.

Lemma preserves_request {A} (ask : Trace -> A) (ev : A -> Event) :
  preservesApi (request ask ev).
Proof. intros st. reflexivity. Qed.

Lemma preserves_liftE {A} (r : JsError + A) : preservesApi (liftE r).
Proof. intros st. destruct r; reflexivity. Qed.

Lemma preserves_bind {A B} (m : M A) (k : A -> M B) :
  preservesApi m -> (forall a, preservesApi (k a)) -> preservesApi (bind m k).
Proof.
  intros Hm Hk st. unfold bind. specialize (Hm st).
  destruct (m st) as [[a | e | e] st1]; simpl in *; try exact Hm.
  rewrite Hk. exact Hm.
Qed.

Lemma preserves_tryCatch {A} (m : M A) (handler : JsError -> M A) :
  preservesApi m -> (forall e, preservesApi (handler e)) -> preservesApi (tryCatch m handler).
Proof.
  intros Hm Hh st. unfold tryCatch. specialize (Hm st).
  destruct (m st) as [[a | e | e] st1]; simpl in *; try exact Hm.
  rewrite Hh. exact Hm.
Qed.

Lemma preserves_inCallback {A} (m : M A) : preservesApi m -> preservesApi (inCallback m).
Proof.
  intros Hm st. unfold inCallback. specialize (Hm st).
  destruct (m st) as [[a | e | e] st1]; exact Hm.
Qed.

(** the steps that read [this] and talk to the world preserve the API *)
Ltac preserves :=
  repeat first
    [ apply preserves_ret | apply preserves_throw | apply preserves_never
    | apply preserves_emit
    | apply preserves_getApi | apply preserves_request | apply preserves_liftE
    | apply preserves_inCallback | apply preserves_tryCatch | apply preserves_bind
    | match goal with
      | |- forall _, preservesApi _ => intro
      | |- preservesApi (match ?x with _ => _ end) => destruct x
      | |- preservesApi (if ?x then _ else _) => destruct x
      end ].

Lemma preserves_launchDownloads `{host : Host} `{world : World} (frameworks : list string) :
  forall index, preservesApi (launchDownloads index frameworks).
Proof.
  induction frameworks as [| f rest IH]; intros index; simpl.
  - preserves.
  - apply preserves_bind; [| intros d; apply preserves_bind; [apply IH | preserves]].
    unfold launchDownload, get_frameworkDirectory, _buildKubescapeCommand, get_path, ui_debug.
    preserves.
Qed.

Lemma preserves_downloadCallback `{host : Host} (d : Download) :
  preservesApi (downloadCallback d).
Proof.
  unfold downloadCallback, attempt, parseDownload, get_version, compareVersionsM, ui_debug.
  cbv zeta. preserves.
Qed.

Lemma preserves_settleDownloads `{host : Host} (finished : list Download) :
  forall pending, preservesApi (settleDownloads finished pending).
Proof.
  induction finished as [| d rest IH]; intros pending; simpl.
  - destruct pending; preserves.
  - apply preserves_bind; [preserves |]. intros _.
    apply preserves_bind; [apply preserves_downloadCallback |].
    intros [f | reason escaped | e]; [| preserves | apply IH].
    apply preserves_bind; [apply IH | preserves].
Qed.

Lemma preserves_downloadMissingFrameworks `{host : Host} `{world : World}
      (frameworks : list string) :
  preservesApi (downloadMissingFrameworks frameworks).
Proof.
  unfold downloadMissingFrameworks.
  apply preserves_bind; [apply preserves_launchDownloads |].
  intros ds. destruct (firstRejected ds); [preserves |].
  apply preserves_bind; [apply preserves_settleDownloads | preserves].
Qed.

(** the loop that marks what is cataloged adds no name *)
Lemma collectMissing_names (frameworks : list string) :
  forall acc st,
    exists needs st',
      collectMissing frameworks acc st = (Ok needs, st') /\
      catalogNames (api st') = catalogNames (api st).
Proof.
  induction frameworks as [| f rest IH]; intros acc st; simpl.
  - eexists. eexists. split; reflexivity.
  - mrun. destruct (_frameworks (api st)) as [c |] eqn:Hc; [| apply IH].
    unfold getProperty. destruct (c !! f) as [fw |] eqn:Hf.
    + mrun.
      match goal with
      | |- context [collectMissing rest acc ?s] =>
          destruct (IH acc s) as (needs & st' & Hrun & Hdom)
      end.
      exists needs, st'. split; [exact Hrun |]. rewrite Hdom.
      unfold catalogNames, catalogOf. cbn. rewrite Hc.
      apply dom_insert_lookup_L. rewrite Hf. eauto.
    + destruct (isPrototypeKey f); apply IH.
Qed.

Lemma parseDownload_run `{host : Host} (d : Download) (st : St) :
  parseDownload d st =
    (match parsedDownload (api st) d with
     | inr f => Ok f
     | inl e => Rejected e
     end, st).
Proof.
  destruct st as [a tr].
  unfold parsedDownload, parseDownload, get_version, compareVersionsM. mrun.
  destruct (_versionInfo a) as [vi |]; mrun; [| reflexivity].
  destruct (Semver.compareVersions (version vi) FORMAT_THRESHOLD) as [c |]; mrun;
    [| reflexivity].
  destruct (0 <=? c).
  - destruct (frameworkOfInfo _); reflexivity.
  - destruct (resolveKubescapeFramework _); reflexivity.
Qed.

(** the callback of a selective download always comes to its end: it logs
    the two outputs, and how it leaves the promise is decided by the
    subprocess and by what the parser makes of the output *)
Lemma downloadCallback_run `{host : Host} (d : Download) (st : St) :
  downloadCallback d st =
    (Ok (endsOn d (parsedDownload (api st) d)),
     mkSt (api st)
          (trace st ++ [EvUi UiDebug ("stdout: " +:+ exec_stdout (dl_result d)
                                      +:+ ", stderr: " +:+ exec_stderr (dl_result d))])).
Proof.
  unfold downloadCallback, attempt, endsOn, downloadFailure. mrun.
  rewrite parseDownload_run. cbn [api].
  destruct (parsedDownload (api st) d) as [e | f];
    destruct (exec_err (dl_result d)); reflexivity.
Qed.

Lemma settleDownloads_rejects `{host : Host} (pre : list Download) :
  forall (d : Download) (post : list Download) (pending : option JsError) (st : St),
    (forall x, In x pre -> exec_err (dl_result x) = false) ->
    exec_err (dl_result d) = true ->
    fst (settleDownloads (pre ++ d :: post) pending st) = Rejected (downloadFailure d).
Proof.
  induction pre as [| x pre IH]; intros d post pending st Hpre Herr.
  - simpl. mrun. rewrite downloadCallback_run. unfold endsOn. rewrite Herr.
    reflexivity.
  - simpl. mrun. rewrite downloadCallback_run. unfold endsOn.
    rewrite (Hpre x (or_introl eq_refl)).
    destruct (parsedDownload _ x) as [e | f].
    + apply IH; [intros y Hy; apply Hpre; right; exact Hy | exact Herr].
    + match goal with
      | |- context [settleDownloads _ ?q ?s1] =>
          pose proof (IH d post q s1 (fun y Hy => Hpre y (or_intror Hy)) Herr) as Hrest
      end.
      destruct (settleDownloads _ _ _) as [[fs | e | e] st2]; simpl in Hrest;
        try discriminate; exact Hrest.
Qed.

(** C4, amended.  When a selective download fails, nothing of the batch
    reaches the catalog.  (1) Whenever [installFrameworks] does not
    complete, the catalog holds the names it held before, a sibling that
    was downloaded with success not among them.  (2) In the order the
    subprocesses finish, the first download whose subprocess failed rejects
    the wait on the batch with "Could not download framework <name>.
    Reason: <stderr>", whatever the outputs are; and so a batch whose
    subprocesses were all started is rejected by
    [downloadMissingFrameworks] with that reason.  (3) That rejection is
    the rejection of [installFrameworks]. *)
Theorem installFrameworks_rejection_adds_nothing `{host : Host} `{world : World} :
  (forall frameworks st,
      fst (installFrameworks frameworks st) <> Ok tt ->
      catalogNames (api (snd (installFrameworks frameworks st))) = catalogNames (api st))
  /\
  (forall pre d post st,
      (forall x, In x pre -> exec_err (dl_result x) = false) ->
      exec_err (dl_result d) = true ->
      fst (settleDownloads (pre ++ d :: post) None st) = Rejected (downloadFailure d))
  /\
  (forall needs st ds st1 pre d post,
      launchDownloads 0 needs st = (Ok ds, st1) ->
      firstRejected ds = None ->
      sortBy (fun x => exec_finish (dl_result x)) (launched ds) = pre ++ d :: post ->
      (forall x, In x pre -> exec_err (dl_result x) = false) ->
      exec_err (dl_result d) = true ->
      fst (downloadMissingFrameworks needs st) = Rejected (downloadFailure d))
  /\
  (forall frameworks st needs st1 e st2,
      collectMissing frameworks [] st = (Ok needs, st1) ->
      needs <> [] ->
      downloadMissingFrameworks needs st1 = (Rejected e, st2) ->
      installFrameworks frameworks st = (Rejected e, st2)).
Proof.
  split; [| split; [| split]].
  - intros frameworks st. unfold installFrameworks.
    destruct (collectMissing_names frameworks [] st) as (needs & st1 & Hrun & Hnames).
    rewrite (bind_eq_Ok _ _ _ _ _ Hrun).
    destruct needs as [| n needs]; [intros H; exfalso; apply H; reflexivity |].
    pose proof (preserves_downloadMissingFrameworks (n :: needs)) as Hapi.
    specialize (Hapi st1).
    destruct (downloadMissingFrameworks (n :: needs) st1) as [[fs | e | e] st2] eqn:Hd;
      cbn [fst snd] in Hapi.
    + rewrite (bind_eq_Ok _ _ _ _ _ Hd). intros H. exfalso. apply H. reflexivity.
    + rewrite (bind_eq_Rejected _ _ _ _ _ Hd). intros _. cbn [snd].
      rewrite Hapi. exact Hnames.
    + rewrite (bind_eq_Uncaught _ _ _ _ _ Hd). intros _. cbn [snd].
      rewrite Hapi. exact Hnames.
  - intros pre d post st. apply settleDownloads_rejects.
  - intros needs st ds st1 pre d post Hrun Hnone Hsorted Hpre Herr.
    unfold downloadMissingFrameworks.
    rewrite (bind_eq_Ok _ _ _ _ _ Hrun). rewrite Hnone, Hsorted.
    pose proof (settleDownloads_rejects pre d post None st1 Hpre Herr) as Hrej.
    unfold bind.
    destruct (settleDownloads _ _ _) as [[fs | e | e] st2]; simpl in Hrej;
      try discriminate. cbn [fst]. injection Hrej as ->. reflexivity.
  - intros frameworks st needs st1 e st2 Hrun Hne Hrej. unfold installFrameworks.
    rewrite (bind_eq_Ok _ _ _ _ _ Hrun).
    destruct needs as [| n needs]; [contradiction |].
    rewrite (bind_eq_Rejected _ _ _ _ _ Hrej). reflexivity.
Qed.

Lemma installFrameworks_rejection_adds_nothing_witness :
  catalogNames (api (snd (installFrameworks (host := Sample.linux) (world := Sample.oneFails)
                                            ["nsa"; "mitre"] Sample.emptyCatalog)))
  = catalogNames (api Sample.emptyCatalog)
  /\
  fst (settleDownloads (host := Sample.linux)
                       ([Sample.mitreSucceeded] ++ Sample.nsaFailed :: [])
                       None Sample.emptyCatalog)
  = Rejected (downloadFailure Sample.nsaFailed)
  /\
  fst (downloadMissingFrameworks (host := Sample.linux) (world := Sample.oneFailsPlainly)
                                 ["nsa"; "mitre"] Sample.emptyCatalog)
  = Rejected (downloadFailure Sample.nsaFailedPlainly)
  /\
  installFrameworks (host := Sample.linux) (world := Sample.oneFails)
                    ["nsa"; "mitre"] Sample.emptyCatalog
  = (Rejected (downloadFailure Sample.nsaFailed), snd Sample.failedBatch).
Proof.
  destruct (installFrameworks_rejection_adds_nothing
              (host := Sample.linux) (world := Sample.oneFails))
    as (Hnames & Hrejects & _ & Hsame).
  destruct (installFrameworks_rejection_adds_nothing
              (host := Sample.linux) (world := Sample.oneFailsPlainly))
    as (_ & _ & Hbatch & _).
  split; [| split; [| split]].
  - apply Hnames. vm_compute. discriminate.
  - apply Hrejects.
    + intros x [<- | []]. reflexivity.
    + reflexivity.
  - eapply (Hbatch ["nsa"; "mitre"] Sample.emptyCatalog _ _ [Sample.mitreSucceeded]
                   Sample.nsaFailedPlainly []).
    + vm_compute. reflexivity.
    + reflexivity.
    + vm_compute. reflexivity.
    + intros x [<- | []]. reflexivity.
    + reflexivity.
  - apply (Hsame ["nsa"; "mitre"] Sample.emptyCatalog ["nsa"; "mitre"] Sample.emptyCatalog).
    + vm_compute. reflexivity.
    + discriminate.
    + vm_compute. reflexivity.
Defined.

(** C4 as stated fails: the subprocess of [mitre] succeeds, the one of
    [nsa] fails, the caller is told of the failure, and the catalog does
    not hold [mitre] afterwards. *)
Lemma selective_download_failure_counterexample :
  In (EvSpawn (Sample.downloadCommand "mitre") (dl_result Sample.mitreSucceeded))
     (trace (snd Sample.failedBatch)) /\
  fst Sample.failedBatch = Rejected (downloadFailure Sample.nsaFailed) /\
  catalogOf (api (snd Sample.failedBatch)) !! "mitre" = None.
Proof.
  split; [| split].
  - vm_compute. right. right. right. left. reflexivity.
  - vm_compute. reflexivity.
  - vm_compute. reflexivity.
Qed.

(** a subprocess that fails with a plain error text: [reject] has settled
    the promise before the callback goes on to parse the text, so the
    batch is rejected with the failure, and what the parser throws after
    it escapes the callback unseen *)
Example selective_download_failure_escapes :
  fst (installFrameworks (host := Sample.linux) (world := Sample.oneFailsPlainly)
                         ["nsa"; "mitre"] Sample.emptyCatalog)
  = Rejected (JsReason ("Could not download framework nsa. Reason:" +:+ nl
                        +:+ "connection refused"))
  /\
  fst (downloadCallback (host := Sample.linux) Sample.nsaFailedPlainly Sample.emptyCatalog)
  = Ok (RejectedFirst (downloadFailure Sample.nsaFailedPlainly)
                      (Some (JsTypeError "toLocaleLowerCase"))).
Proof. split; vm_compute; reflexivity. Qed.

(** ** Scans *)

(** when the report file cannot be read, the exception of [readFileSync]
    escapes the callback of the scan *)
Lemma scanCallback_without_report `{host : Host} `{world : World}
      (file : string) (r : ExecResult) (st : St) :
  (forall tr, w_readFile tr file = None) ->
  fst (scanCallback file r st) = Uncaught (JsSysError "readFileSync" file).
Proof.
  intros Hread. unfold scanCallback, fs_readFileSync. mrun.
  destruct (exec_err r); mrun; rewrite Hread; reflexivity.
Qed.

(** a report that parses to a falsy value does give the empty object *)
Lemma scanCallback_falsy_report `{host : Host} `{world : World}
      (file : string) (r : ExecResult) (st : St) (text : string) (report : JsValue) :
  (forall tr, w_readFile tr file = Some text) ->
  JSON_parse text = Some report ->
  Js.truthy report = false ->
  fst (scanCallback file r st) = Ok (JObj []).
Proof.
  intros Hread Hparse Hfalsy. unfold scanCallback, fs_readFileSync. mrun.
  destruct (exec_err r); mrun; rewrite Hread; mrun; rewrite Hparse; mrun;
    rewrite Hfalsy; reflexivity.
Qed.

(** a non-zero exit after the report was written is logged and not fatal:
    the report is read, enriched and returned, and the temporary directory
    is removed *)
Example scanYaml_late_failure :
  fst (scanYaml (host := Sample.linux) (world := Sample.lateFailure)
                "/work/pod.yaml" None Sample.ready)
  = Ok (JObj [("summaryDetails",
               JObj [("controls",
                      JObj [("C-0001",
                             JObj [("status", JStr "failed");
                                   ("description", JStr "d");
                                   ("remediation", JUndefined)])])])])
  /\ In (EvUi UiError "2 resources failed")
        (trace (snd (scanYaml (host := Sample.linux) (world := Sample.lateFailure)
                              "/work/pod.yaml" None Sample.ready)))
  /\ In (EvRm "/tmp/ks-1")
        (trace (snd (scanYaml (host := Sample.linux) (world := Sample.lateFailure)
                              "/work/pod.yaml" None Sample.ready))).
Proof.
  split; [vm_compute; reflexivity |]. split; vm_compute; tauto.
Qed.

(** C7, at the failing inputs.  The scan subprocess exits non-zero and
    leaves no report file, or a truncated one: the exit is logged, the file
    is read, and then the exception of [readFileSync], or of [JSON.parse],
    escapes the callback of [cp.exec].  Neither [scanYaml] nor
    [scanCluster] returns the empty object: the promise the caller awaits
    never settles, and the temporary directory is not removed. *)
Theorem scan_without_valid_report_faults :
  fst (scanYaml (host := Sample.linux) (world := Sample.noReport)
                "/work/pod.yaml" None Sample.ready)
  = Uncaught (JsSysError "readFileSync" "/tmp/ks-1/report-0000.json")
  /\
  fst (scanCluster (host := Sample.linux) (world := Sample.noReport)
                   "minikube" None None Sample.ready)
  = Uncaught (JsSysError "readFileSync" "/tmp/ks-1/report-0000.json")
  /\
  fst (scanYaml (host := Sample.linux) (world := Sample.brokenReport)
                "/work/pod.yaml" None Sample.ready)
  = Uncaught JsSyntaxError
  /\
  In (EvUi UiError "cluster unreachable")
     (trace (snd (scanYaml (host := Sample.linux) (world := Sample.noReport)
                           "/work/pod.yaml" None Sample.ready)))
  /\
  ~ In (EvRm "/tmp/ks-1")
       (trace (snd (scanYaml (host := Sample.linux) (world := Sample.noReport)
                             "/work/pod.yaml" None Sample.ready))).
Proof.
  split; [vm_compute; reflexivity |].
  split; [vm_compute; reflexivity |].
  split; [vm_compute; reflexivity |].
  split.
  - vm_compute. tauto.
  - vm_compute. intros H.
    repeat (destruct H as [H | H]; [discriminate |]). exact H.
Qed.

(** ** Initialization, once *)

Lemma setup_true_initialized `{host : Host} `{world : World}
      (configs : IKubescapeConfig) (abort : option AbortController) (st st1 : St) :
  setup configs abort st = (Ok true, st1) -> _isInitialized (api st1) = true.
Proof.
  unfold setup. mrun.
  destruct (_isInitialized (api st)) eqn:Hinit; mrun.
  - intros H. injection H as <-. exact Hinit.
  - destruct (setup_needsUpdate configs _) as [[n | e | e] s1]; try discriminate.
    destruct (setup_install configs abort n s1) as [[go | e | e] s2]; try discriminate.
    destruct go; [| discriminate].
    destruct (setup_frameworks configs s2) as [[[] | e | e] s3]; try discriminate.
    intros H. injection H as <-. reflexivity.
Qed.

(** [setup] of the current variant is idempotent: after a call that
    returned true, a further call with any configuration returns true at
    once; it opens the progress display and does nothing else, so the API
    object is unchanged and no subprocess or network request is made *)
Theorem setup_idempotent `{host : Host} `{world : World}
        (configs configs' : IKubescapeConfig) (abort abort' : option AbortController)
        (st st1 : St) :
  setup configs abort st = (Ok true, st1) ->
  setup configs' abort' st1 =
    (Ok true,
     mkSt (api st1) (trace st1 ++ [EvProgressBegin "Initializing kubescape HIHI" None])).
Proof.
  intros H. apply setup_true_initialized in H.
  unfold setup. mrun. rewrite H. reflexivity.
Qed.

Lemma setup_idempotent_witness :
  setup (host := Sample.linux) (world := Sample.installed) Sample.scanNothing None
        (snd (setup (host := Sample.linux) (world := Sample.installed)
                    Sample.config None Sample.fresh))
  = (Ok true,
     mkSt (api (snd (setup (host := Sample.linux) (world := Sample.installed)
                           Sample.config None Sample.fresh)))
          (trace (snd (setup (host := Sample.linux) (world := Sample.installed)
                             Sample.config None Sample.fresh))
           ++ [EvProgressBegin "Initializing kubescape HIHI" None])).
Proof.
  apply (setup_idempotent (host := Sample.linux) (world := Sample.installed)
           Sample.config Sample.scanNothing None None Sample.fresh).
  vm_compute. reflexivity.
Defined.

(** C1, at the failing input.  In the earlier variant of the class no
    statement sets [_isInitialized], so its guard never fires: a first
    [setup] returns true and leaves the flag false, and a second [setup] on
    the same object runs the installation probe and the version query
    again, two more subprocesses, and rebuilds the catalog. *)
Theorem legacy_setup_runs_again :
  fst Sample.legacyFirst = Ok true /\
  _isInitialized (api (snd Sample.legacyFirst)) = false /\
  fst Sample.legacySecond = Ok true /\
  List.length (outsideCalls (trace (snd Sample.legacyFirst))) = 2%nat /\
  List.length (outsideCalls (trace (snd Sample.legacySecond))) = 4%nat /\
  In (EvReaddir "/opt/ks" (Some ["nsa.json"; "notes.txt"]))
     (List.skipn (List.length (trace (snd Sample.legacyFirst)))
                 (trace (snd Sample.legacySecond))).
Proof.
  split; [vm_compute; reflexivity |].
  split; [vm_compute; reflexivity |].
  split; [vm_compute; reflexivity |].
  split; [vm_compute; reflexivity |].
  split; [vm_compute; reflexivity |].
  vm_compute. tauto.
Qed.

(** *** The earlier variant never sets the flag *)

Lemma flag_ret {A} (a : A) : preservesFlag (ret a).
Proof. intros st. reflexivity. Qed.

Lemma flag_never {A} (e : JsError) : preservesFlag (@never A e).
Proof. intros st. reflexivity. Qed.

Lemma flag_throw {A} (e : JsError) : preservesFlag (@throw A e).
Proof. intros st. reflexivity. Qed.

Lemma flag_emit (e : Event) : preservesFlag (emit e).
Proof. intros st. reflexivity. Qed.

Lemma flag_getApi : preservesFlag getApi.
Proof. intros st. reflexivity. Qed.

Lemma flag_request {A} (ask : Trace -> A) (ev : A -> Event) : preservesFlag (request ask ev).
Proof. intros st. reflexivity. Qed.

Lemma flag_liftE {A} (r : JsError + A) : preservesFlag (liftE r).
Proof. intros st. destruct r; reflexivity. Qed.

Lemma flag_modifyApi (f : KubescapeApi -> KubescapeApi) :
  (forall a, _isInitialized (f a) = _isInitialized a) -> preservesFlag (modifyApi f).
Proof. intros H st. simpl. apply H. Qed.

Lemma flag_bind {A B} (m : M A) (k : A -> M B) :
  preservesFlag m -> (forall a, preservesFlag (k a)) -> preservesFlag (bind m k).
Proof.
  intros Hm Hk st. unfold bind. specialize (Hm st).
  destruct (m st) as [[a | e | e] st1]; simpl in *; try exact Hm.
  rewrite Hk. exact Hm.
Qed.

Lemma flag_tryCatch {A} (m : M A) (handler : JsError -> M A) :
  preservesFlag m -> (forall e, preservesFlag (handler e)) -> preservesFlag (tryCatch m handler).
Proof.
  intros Hm Hh st. unfold tryCatch. specialize (Hm st).
  destruct (m st) as [[a | e | e] st1]; simpl in *; try exact Hm.
  rewrite Hh. exact Hm.
Qed.

Lemma flag_inCallback {A} (m : M A) : preservesFlag m -> preservesFlag (inCallback m).
Proof.
  intros Hm st. unfold inCallback. specialize (Hm st).
  destruct (m st) as [[a | e | e] st1]; exact Hm.
Qed.

Lemma flag_appendToCatalog (from : list KubescapeFramework) :
  preservesFlag (appendToCatalog from).
Proof.
  apply flag_modifyApi. intros a. destruct (_frameworks a); reflexivity.
Qed.

Lemma flag_reportChunks `{host : Host} (chunks : list nat) :
  forall read size, preservesFlag (reportChunks read size chunks).
Proof.
  intros read size st. rewrite reportChunks_events. reflexivity.
Qed.

Lemma flag_forEach {A} (l : list A) (body : A -> M unit) :
  (forall x, preservesFlag (body x)) -> preservesFlag (forEach l body).
Proof.
  intros Hb. induction l as [| x l IH]; simpl.
  - apply flag_ret.
  - apply flag_bind; [apply Hb | intros _; exact IH].
Qed.

(** the closure steps, with the non-recursive code unfolded on the way *)
Ltac flag :=
  repeat
    match goal with
    | |- forall _, preservesFlag _ => intro
    | |- preservesFlag (bind _ _) => apply flag_bind
    | |- preservesFlag (ret _) => apply flag_ret
    | |- preservesFlag (throw _) => apply flag_throw
    | |- preservesFlag (never _) => apply flag_never
    | |- preservesFlag (emit _) => apply flag_emit
    | |- preservesFlag getApi => apply flag_getApi
    | |- preservesFlag (request _ _) => apply flag_request
    | |- preservesFlag (liftE _) => apply flag_liftE
    | |- preservesFlag (appendToCatalog _) => apply flag_appendToCatalog
    | |- preservesFlag (reportChunks _ _ _) => apply flag_reportChunks
    | |- preservesFlag (modifyApi _) => apply flag_modifyApi; intro; reflexivity
    | |- preservesFlag (inCallback _) => apply flag_inCallback
    | |- preservesFlag (tryCatch _ _) => apply flag_tryCatch
    | |- preservesFlag (match ?x with _ => _ end) => destruct x
    | |- preservesFlag (if ?x then _ else _) => destruct x
    | |- preservesFlag (fun _ => _) => solve [let st := fresh in intro st; reflexivity]
    | |- preservesFlag _ =>
        progress unfold ui_info, ui_error, ui_debug, ui_progress, ui_slow, progress, exec,
          fetchJson, fs_mkdir, fs_access, fs_chmod, fs_readdir, fs_readFileSync,
          decodeURIComponentM, get_path, get_directory, get_version, get_frameworkDirectory,
          isKubescapeInstalled, getLatestVersion, getLatestVersionUrl, pipeline,
          downloadFile, isFrameworkFile, activate
    end.

Lemma flag_filterFrameworkFiles `{host : Host} `{world : World} (dir : string)
      (files : list string) :
  preservesFlag (filterFrameworkFiles dir files).
Proof.
  induction files as [| file rest IH]; simpl; [flag |].
  apply flag_bind; [flag |]. intros keep. apply flag_bind; [exact IH | flag].
Qed.

Lemma flag_collectMissing (frameworks : list string) :
  forall acc, preservesFlag (collectMissing frameworks acc).
Proof.
  induction frameworks as [| f rest IH]; intros acc; simpl; [flag |].
  apply flag_bind; [flag |]. intros a.
  destruct (_frameworks a) as [c |]; [| apply IH].
  destruct (getProperty c f); try apply IH.
  apply flag_bind; [flag | intros _; apply IH].
Qed.

Lemma flag_legacy_launchDownloads `{host : Host} `{world : World} (frameworks : list string) :
  forall index, preservesFlag (Legacy.launchDownloads index frameworks).
Proof.
  induction frameworks as [| f rest IH]; intros index; simpl; [flag |].
  apply flag_bind; [| intros d; apply flag_bind; [apply IH | flag]].
  unfold Legacy.launchDownload, Legacy._buildKubescapeCommand. flag.
Qed.

Lemma flag_legacy_settleDownloads (finished : list Download) :
  preservesFlag (Legacy.settleDownloads finished).
Proof.
  induction finished as [| d rest IH]; simpl; [flag |].
  apply flag_bind; [flag |]. intros _.
  destruct (exec_err (dl_result d)); [flag |].
  apply flag_bind; [exact IH | flag].
Qed.

Lemma flag_legacy_getKubescapeVersion `{host : Host} `{world : World} :
  preservesFlag Legacy.getKubescapeVersion.
Proof. unfold Legacy.getKubescapeVersion, Legacy._buildKubescapeCommand. flag. Qed.

Lemma flag_legacy_installFrameworks `{host : Host} `{world : World} (frameworks : list string) :
  preservesFlag (Legacy.installFrameworks frameworks).
Proof.
  unfold Legacy.installFrameworks.
  apply flag_bind; [apply flag_collectMissing |]. intros needs.
  destruct needs as [| n needs]; [flag |].
  apply flag_bind; [| flag].
  unfold Legacy.downloadMissingFrameworks.
  apply flag_bind; [apply flag_legacy_launchDownloads |]. intros ds.
  destruct (firstRejected ds); [flag |].
  apply flag_bind; [apply flag_legacy_settleDownloads | flag].
Qed.

Lemma flag_legacy_setup_needsUpdate `{host : Host} `{world : World}
      (configs : IKubescapeConfig) :
  preservesFlag (Legacy.setup_needsUpdate configs).
Proof.
  unfold Legacy.setup_needsUpdate.
  repeat first [ apply flag_legacy_getKubescapeVersion | progress flag ].
Qed.

Lemma flag_legacy_setup_install `{host : Host} `{world : World}
      (configs : IKubescapeConfig) (abort : option AbortController) (needsUpdate : bool) :
  preservesFlag (Legacy.setup_install configs abort needsUpdate).
Proof.
  unfold Legacy.setup_install, Legacy.install.
  repeat first [ apply flag_legacy_getKubescapeVersion | progress flag ].
Qed.

Lemma flag_legacy_setup_frameworks `{host : Host} `{world : World}
      (configs : IKubescapeConfig) :
  preservesFlag (Legacy.setup_frameworks configs).
Proof.
  unfold Legacy.setup_frameworks, Legacy.setup_frameworkDir, Legacy.getInstalledFrameworks,
    Legacy.setup_required, Legacy.downloadAllFrameworks, Legacy._buildKubescapeCommand,
    setup_scanFrameworks.
  repeat first [ apply flag_filterFrameworkFiles | apply flag_legacy_installFrameworks
               | apply flag_forEach | progress flag ].
Qed.

(** whatever the configuration, the world and the outcome, [setup] of the
    earlier variant leaves [_isInitialized] as it was *)
Lemma legacy_setup_keeps_flag `{host : Host} `{world : World}
      (configs : IKubescapeConfig) (abort : option AbortController) :
  preservesFlag (Legacy.setup configs abort).
Proof.
  unfold Legacy.setup.
  repeat first [ apply flag_legacy_setup_needsUpdate | apply flag_legacy_setup_install
               | apply flag_legacy_setup_frameworks | progress flag ].
Qed.

(** ** Detected versions are versions *)

(** every token the version pattern finds is a version for
    [compareVersions] *)
Lemma detected_version_parses (s v : string) :
  Regex.firstVersion s = Some v ->
  Semver.compareVersions v FORMAT_THRESHOLD <> None.
Proof.
  intros H. apply firstVersion_sound in H as (_ & _ & _ & Htok).
  destruct Htok as (d1 & d2 & d3 & A1 & A2 & A3 & ->).
  rewrite (compareVersions_threshold d1 d2 d3 A1 A2 A3). discriminate.
Qed.

(** with the placeholder version the comparison itself throws, inside the
    callback *)
Example download_with_unknown_version :
  fst (downloadAllCallback (host := Sample.linux)
         (mkExec false EmptyString Sample.jsonStderr 0)
         (mkSt (set_versionInfo defaultKubescapeVersion (api Sample.cataloged)) []))
  = Uncaught (notSemver "unknown").
Proof. reflexivity. Qed.

(** a name the catalog lacks in the scan list: the assignment is a TypeError *)
Example active_set_unknown_name :
  fst (setup_scanFrameworks (mkConfig "v2.0.144" None "/opt/ks" None (Some ["mitre"]))
                            Sample.cataloged)
  = Rejected (JsTypeError "isInstalled").
Proof. vm_compute. reflexivity. Qed.
(** ** Quoted fields of the text output *)

Lemma prefix_nil (s : string) : String.prefix EmptyString s = true.
Proof. destruct s; reflexivity. Qed.

Lemma prefix_char (c x : ascii) (r : string) :
  String.prefix (String c EmptyString) (String x r) = Ascii.eqb c x.
Proof.
  simpl. destruct (ascii_dec c x) as [-> | Hne].
  - rewrite prefix_nil, Ascii.eqb_refl. reflexivity.
  - symmetry. apply Ascii.eqb_neq. exact Hne.
Qed.

Lemma find_cons (p : string) (x : ascii) (r : string) :
  JsString.find p (String x r) =
    if String.prefix p (String x r) then Some O else option_map S (JsString.find p r).
Proof. reflexivity. Qed.

Lemma findLast_cons (p : string) (x : ascii) (r : string) :
  JsString.findLast p (String x r) =
    match JsString.findLast p r with
    | Some n => Some (S n)
    | None => if String.prefix p (String x r) then Some O else None
    end.
Proof. reflexivity. Qed.

Lemma find_char_lacks (c : ascii) (a : string) :
  lacks c a = true -> JsString.find (String c EmptyString) a = None.
Proof.
  induction a as [| x a IH]; intros H; [reflexivity |].
  simpl in H. apply andb_prop in H as [Hx Ha].
  rewrite find_cons, prefix_char, Ascii.eqb_sym.
  apply negb_true_iff in Hx. rewrite Hx, (IH Ha). reflexivity.
Qed.

Lemma find_char_first (c : ascii) (a r : string) :
  lacks c a = true ->
  JsString.find (String c EmptyString) (a +:+ String c r) = Some (String.length a).
Proof.
  induction a as [| x a IH]; intros H.
  - rewrite append_nil_l, find_cons, prefix_char, Ascii.eqb_refl. reflexivity.
  - simpl in H. apply andb_prop in H as [Hx Ha].
    rewrite append_cons, find_cons, prefix_char, Ascii.eqb_sym.
    apply negb_true_iff in Hx. rewrite Hx, (IH Ha). reflexivity.
Qed.

Lemma findLast_char_lacks (c : ascii) (b : string) :
  lacks c b = true -> JsString.findLast (String c EmptyString) b = None.
Proof.
  induction b as [| x b IH]; intros H; [reflexivity |].
  simpl in H. apply andb_prop in H as [Hx Hb].
  rewrite findLast_cons, (IH Hb), prefix_char, Ascii.eqb_sym.
  apply negb_true_iff in Hx. rewrite Hx. reflexivity.
Qed.

Lemma findLast_char_last (c : ascii) (a b : string) :
  lacks c b = true ->
  JsString.findLast (String c EmptyString) (a +:+ String c b) = Some (String.length a).
Proof.
  intros Hb. induction a as [| x a IH].
  - rewrite append_nil_l, findLast_cons, (findLast_char_lacks c b Hb), prefix_char,
      Ascii.eqb_refl. reflexivity.
  - rewrite append_cons, findLast_cons, IH. reflexivity.
Qed.

Lemma substring_middle (a x b : string) :
  String.substring (String.length a) (String.length x) (a +:+ x +:+ b) = x.
Proof. rewrite substring_skip. apply substring_0_append. Qed.

Lemma lacks_append (c : ascii) (a b : string) :
  lacks c (a +:+ b) = lacks c a && lacks c b.
Proof.
  induction a as [| x a IH]; [reflexivity |].
  rewrite append_cons. simpl. rewrite IH. apply andb_assoc.
Qed.

Lemma js_substring_nat (s : string) (i j : nat) :
  (i <= j)%nat -> (j <= String.length s)%nat ->
  JsString.substring s (Z.of_nat i) (Z.of_nat j) = String.substring i (j - i) s.
Proof.
  intros Hij Hj. unfold JsString.substring.
  rewrite (Z.max_l (Z.of_nat i) 0), (Z.max_l (Z.of_nat j) 0) by lia.
  rewrite (Z.min_l (Z.of_nat i)), (Z.min_l (Z.of_nat j) (Z.of_nat (String.length s))) by lia.
  rewrite Z.min_l, Z.max_r by lia.
  f_equal; lia.
Qed.

Lemma js_substring_swap (s : string) (a b : Z) :
  JsString.substring s a b = JsString.substring s b a.
Proof.
  unfold JsString.substring.
  rewrite (Z.min_comm (Z.min (Z.max a 0) _)), (Z.max_comm (Z.min (Z.max a 0) _)).
  reflexivity.
Qed.

(** the text between the first and the last occurrence of the character *)
Lemma extractBetween_between (c : ascii) (a x b : string) :
  lacks c a = true -> lacks c b = true ->
  extractBetween (a +:+ String c x +:+ String c b) (String c EmptyString) = x.
Proof.
  intros Ha Hb. unfold extractBetween, JsString.indexOf, JsString.lastIndexOf.
  rewrite (append_cons c x (String c b)).
  rewrite (find_char_first c a _ Ha).
  replace (a +:+ String c (x +:+ String c b)) with ((a +:+ String c x) +:+ String c b)
    by (sapp; reflexivity).
  rewrite (findLast_char_last c _ b Hb).
  replace (Z.of_nat (String.length a) + 1) with (Z.of_nat (S (String.length a))) by lia.
  rewrite js_substring_nat
    by (rewrite ?length_append; cbn [String.length]; rewrite ?length_append; lia).
  rewrite length_append. cbn [String.length].
  replace (String.length a + S (String.length x) - S (String.length a))%nat
    with (String.length x) by lia.
  replace (S (String.length a)) with (String.length (a +:+ String c EmptyString))
    by (rewrite length_append; simpl; lia).
  replace ((a +:+ String c x) +:+ String c b)
    with ((a +:+ String c EmptyString) +:+ x +:+ String c b)
    by (sapp; reflexivity).
  apply substring_middle.
Qed.

(** one occurrence: the ends are swapped, and the character itself comes back *)
Lemma extractBetween_once (c : ascii) (a b : string) :
  lacks c a = true -> lacks c b = true ->
  extractBetween (a +:+ String c b) (String c EmptyString) = String c EmptyString.
Proof.
  intros Ha Hb. unfold extractBetween, JsString.indexOf, JsString.lastIndexOf.
  rewrite (find_char_first c a _ Ha), (findLast_char_last c a b Hb).
  rewrite js_substring_swap.
  replace (Z.of_nat (String.length a) + 1) with (Z.of_nat (S (String.length a))) by lia.
  rewrite js_substring_nat by (rewrite ?length_append; cbn [String.length]; lia).
  replace (S (String.length a) - String.length a)%nat
    with (String.length (String c EmptyString)) by (simpl; lia).
  replace (a +:+ String c b) with (a +:+ String c EmptyString +:+ b) by (sapp; reflexivity).
  apply substring_middle.
Qed.

Lemma extractBetween_absent (c : ascii) (s : string) :
  lacks c s = true -> extractBetween s (String c EmptyString) = EmptyString.
Proof.
  intros Hs. unfold extractBetween, JsString.indexOf, JsString.lastIndexOf.
  rewrite (find_char_lacks c s Hs), (findLast_char_lacks c s Hs).
  rewrite js_substring_swap. unfold JsString.substring. simpl.
  destruct s; reflexivity.
Qed.

(** ** The fields of a line of text output *)

Lemma split_go_colon_free (a r cur : string) :
  lacks ":" a = true ->
  JsString.split_go ":" (a +:+ r) O cur = JsString.split_go ":" r O (cur +:+ a).
Proof.
  revert cur. induction a as [| x a IH]; intros cur H.
  - rewrite append_nil_l, append_nil_r. reflexivity.
  - simpl in H. apply andb_prop in H as [Hx Ha]. apply negb_true_iff in Hx.
    rewrite append_cons. cbn [JsString.split_go].
    rewrite prefix_char, Ascii.eqb_sym, Hx, (IH _ Ha).
    rewrite append_assoc. reflexivity.
Qed.

Lemma split_go_colon (r cur : string) :
  JsString.split_go ":" (String ":" r) O cur = cur :: JsString.split_go ":" r O EmptyString.
Proof. cbn [JsString.split_go]. rewrite prefix_char. reflexivity. Qed.

Lemma split_colon_free (a : string) :
  lacks ":" a = true -> JsString.split a ":" = [a].
Proof.
  intros H. unfold JsString.split.
  pose proof (split_go_colon_free a EmptyString EmptyString H) as E.
  rewrite append_nil_r in E. rewrite E. reflexivity.
Qed.

Lemma split_colon_head (a r : string) :
  lacks ":" a = true ->
  JsString.split (a +:+ String ":" r) ":" = a :: JsString.split r ":".
Proof.
  intros H. unfold JsString.split.
  rewrite (split_go_colon_free a _ EmptyString H), split_go_colon. reflexivity.
Qed.

(** the second and the third field of a line, the third one ending at the
    next colon or at the end of the line *)
Lemma resolveKubescapeFramework_fields `{host : Host} (a b c t : string) :
  lacks ":" a = true -> lacks ":" b = true -> lacks ":" c = true ->
  t = EmptyString \/ (exists t', t = String ":" t') ->
  resolveKubescapeFramework (a +:+ String ":" (b +:+ String ":" (c +:+ t))) =
    inr (mkFramework (toLocaleLowerCase (extractBetween b "'")) false
                     (JStr (extractBetween c "'"))).
Proof.
  intros Ha Hb Hc Ht. unfold resolveKubescapeFramework.
  rewrite (split_colon_head a _ Ha), (split_colon_head b _ Hb).
  destruct Ht as [-> | [t' ->]].
  - rewrite append_nil_r, (split_colon_free c Hc). reflexivity.
  - rewrite (split_colon_head c _ Hc). reflexivity.
Qed.

(** X1.  [extractBetween] with a one-character delimiter gives the text
    between the first and the last occurrence of the delimiter, further
    occurrences in between included.  When the delimiter occurs once, the
    two positions are out of order, [substring] swaps them, and the
    delimiter itself comes back; when it does not occur, the result is
    empty. *)
Theorem extractBetween_single_character (c : ascii) :
  (forall a x b,
      lacks c a = true -> lacks c b = true ->
      extractBetween (a +:+ String c x +:+ String c b) (String c EmptyString) = x)
  /\
  (forall a b,
      lacks c a = true -> lacks c b = true ->
      extractBetween (a +:+ String c b) (String c EmptyString) = String c EmptyString)
  /\
  (forall s,
      lacks c s = true -> extractBetween s (String c EmptyString) = EmptyString).
Proof.
  split; [| split].
  - intros a x b. apply extractBetween_between.
  - intros a b. apply extractBetween_once.
  - intros s. apply extractBetween_absent.
Qed.

Lemma extractBetween_single_character_witness :
  extractBetween " 'it's' done" "'" = "it's" /\
  extractBetween " 'C" "'" = "'" /\
  extractBetween "done" "'" = EmptyString.
Proof.
  destruct (extractBetween_single_character "'") as (Hbetween & Honce & Habsent).
  split; [| split].
  - apply (Hbetween " " "it's" " done"); reflexivity.
  - apply (Honce " " "C"); reflexivity.
  - apply (Habsent "done"). reflexivity.
Defined.

(** X2.  A line of the text output with two quoted fields, [<a>: <s1>'<n>'<m>:
    <s2>'<p>'<e>], resolves to the framework named [n] in lower case and
    located at [p], not yet active: the name is the quoted text of the
    second colon-separated field and the location the quoted text of the
    third. *)
Theorem resolveKubescapeFramework_quoted_fields `{host : Host}
        (a s1 n m s2 p e : string) :
  lacks ":" a = true ->
  plain s1 = true -> lacks ":" n = true -> plain m = true ->
  plain s2 = true -> lacks ":" p = true -> plain e = true ->
  resolveKubescapeFramework
    (a +:+ ":" +:+ s1 +:+ "'" +:+ n +:+ "'" +:+ m +:+ ":" +:+ s2 +:+ "'" +:+ p +:+ "'" +:+ e)
  = inr (mkFramework (toLocaleLowerCase n) false (JStr p)).
Proof.
  unfold plain. intros Ha Hs1 Hn Hm Hs2 Hp He.
  apply andb_prop in Hs1 as [Cs1 Qs1]. apply andb_prop in Hm as [Cm Qm].
  apply andb_prop in Hs2 as [Cs2 Qs2]. apply andb_prop in He as [Ce Qe].
  sapp.
  replace (a +:+ String ":" (s1 +:+ String "'" (n +:+ String "'" (m +:+ String ":"
             (s2 +:+ String "'" (p +:+ String "'" e))))))
    with (a +:+ String ":" ((s1 +:+ String "'" n +:+ String "'" m) +:+ String ":"
             ((s2 +:+ String "'" p +:+ String "'" e) +:+ EmptyString)))
    by (sapp; reflexivity).
  rewrite resolveKubescapeFramework_fields.
  - rewrite (extractBetween_between "'" s1 n m Qs1 Qm).
    rewrite (extractBetween_between "'" s2 p e Qs2 Qe). reflexivity.
  - exact Ha.
  - rewrite ?lacks_append. cbn [lacks]. rewrite ?lacks_append. cbn [lacks].
    rewrite Cs1, Hn, Cm. reflexivity.
  - rewrite ?lacks_append. cbn [lacks]. rewrite ?lacks_append. cbn [lacks].
    rewrite Cs2, Hp, Ce. reflexivity.
  - left. reflexivity.
Qed.

Lemma resolveKubescapeFramework_quoted_fields_witness :
  resolveKubescapeFramework (host := Sample.linux)
    ("'framework'" +:+ ":" +:+ " " +:+ "'" +:+ "NSA" +:+ "'" +:+ " downloaded successfully. Saved to"
     +:+ ":" +:+ " " +:+ "'" +:+ "/opt/ks/nsa.json" +:+ "'" +:+ EmptyString)
  = inr (mkFramework "nsa" false (JStr "/opt/ks/nsa.json")).
Proof.
  apply (resolveKubescapeFramework_quoted_fields (host := Sample.linux)
           "'framework'" " " "NSA" " downloaded successfully. Saved to" " "
           "/opt/ks/nsa.json" EmptyString); reflexivity.
Defined.

(** X3.  A colon inside the quoted path cuts the third field short: the
    field then holds the opening quote only, the two positions of
    [extractBetween] are out of order, and the location of the resolved
    framework is the quote character, whatever the path was (a path with a
    drive letter, [C:\...], is one). *)
Theorem resolveKubescapeFramework_colon_in_path `{host : Host}
        (a b s2 p1 rest : string) :
  lacks ":" a = true -> lacks ":" b = true -> plain s2 = true -> plain p1 = true ->
  resolveKubescapeFramework
    (a +:+ ":" +:+ b +:+ ":" +:+ s2 +:+ "'" +:+ p1 +:+ ":" +:+ rest)
  = inr (mkFramework (toLocaleLowerCase (extractBetween b "'")) false (JStr "'")).
Proof.
  unfold plain. intros Ha Hb Hs2 Hp1.
  apply andb_prop in Hs2 as [Cs2 Qs2]. apply andb_prop in Hp1 as [Cp1 Qp1].
  sapp.
  replace (a +:+ String ":" (b +:+ String ":" (s2 +:+ String "'" (p1 +:+ String ":" rest))))
    with (a +:+ String ":" (b +:+ String ":" ((s2 +:+ String "'" p1) +:+ String ":" rest)))
    by (sapp; reflexivity).
  rewrite resolveKubescapeFramework_fields.
  - rewrite (extractBetween_once "'" s2 p1 Qs2 Qp1). reflexivity.
  - exact Ha.
  - exact Hb.
  - rewrite lacks_append. cbn [lacks]. rewrite Cs2, Cp1. reflexivity.
  - right. eexists. reflexivity.
Qed.

Lemma resolveKubescapeFramework_colon_in_path_witness :
  resolveKubescapeFramework (host := Sample.linux)
    ("'framework'" +:+ ":" +:+ " 'nsa' downloaded successfully. Saved to"
     +:+ ":" +:+ " " +:+ "'" +:+ "C" +:+ ":" +:+ "\ks\nsa.json'")
  = inr (mkFramework "nsa" false (JStr "'")).
Proof.
  apply (resolveKubescapeFramework_colon_in_path (host := Sample.linux)
           "'framework'" " 'nsa' downloaded successfully. Saved to" " " "C"
           "\ks\nsa.json'"); reflexivity.
Defined.

(** X4.  A line with fewer than two colons has no third field, and
    [resolveKubescapeFramework] throws a TypeError; the list version
    throws with its first such line. *)
Theorem resolveKubescapeFramework_too_few_fields `{host : Host} :
  (forall a, lacks ":" a = true ->
             resolveKubescapeFramework a = inl (JsTypeError "indexOf"))
  /\
  (forall a b, lacks ":" a = true -> lacks ":" b = true ->
               resolveKubescapeFramework (a +:+ ":" +:+ b) = inl (JsTypeError "indexOf"))
  /\
  (forall a rest, lacks ":" a = true ->
                  resolveKubescapeFrameworks (a :: rest) = inl (JsTypeError "indexOf")).
Proof.
  split; [| split].
  - intros a Ha. unfold resolveKubescapeFramework.
    rewrite (split_colon_free a Ha). reflexivity.
  - intros a b Ha Hb. unfold resolveKubescapeFramework. sapp.
    rewrite (split_colon_head a _ Ha), (split_colon_free b Hb). reflexivity.
  - intros a rest Ha. cbn [resolveKubescapeFrameworks]. unfold resolveKubescapeFramework.
    rewrite (split_colon_free a Ha). reflexivity.
Qed.

Lemma resolveKubescapeFramework_too_few_fields_witness :
  resolveKubescapeFramework (host := Sample.linux) EmptyString = inl (JsTypeError "indexOf") /\
  resolveKubescapeFramework (host := Sample.linux)
    ("'framework'" +:+ ":" +:+ " 'nsa' could not be downloaded")
  = inl (JsTypeError "indexOf") /\
  resolveKubescapeFrameworks (host := Sample.linux) ["connection refused"]
  = inl (JsTypeError "indexOf").
Proof.
  destruct (resolveKubescapeFramework_too_few_fields (host := Sample.linux))
    as (Hnone & Hone & Hlist).
  split; [| split].
  - apply Hnone. reflexivity.
  - apply Hone; reflexivity.
  - apply Hlist. reflexivity.
Defined.

(** ** What the version query gives and when it fails *)

Lemma getKubescapeVersion_Ok_ready `{host : Host} `{world : World}
      (kind : string) (st st' : St) (v : KubescapeVersion) :
  getKubescapeVersion kind st = (Ok v, st') ->
  _isInstalled (api st) = true /\ exists p, _path (api st) = Some p.
Proof.
  unfold getKubescapeVersion, _buildKubescapeCommand, get_path. mstep.
  destruct (_isInstalled (api st)); [| discriminate]. mstep.
  destruct (_path (api st)) as [p |]; [| discriminate].
  intros _. split; [reflexivity | eauto].
Qed.

(** X5.  Whenever [getKubescapeVersion] resolves, its version is either the
    placeholder of [new KubescapeVersion] (version "unknown", latest) or a
    token [v<major>.<minor>.<patch>] that the version subcommand printed on
    its standard output; such a token is a version [compareVersions]
    accepts, so the comparison with the format threshold cannot throw on
    it, and for a requested kind other than "latest" it is marked not
    latest. *)
Theorem getKubescapeVersion_detects_printed_token `{host : Host} `{world : World}
        (kind : string) (st st' : St) (v : KubescapeVersion) :
  getKubescapeVersion kind st = (Ok v, st') ->
  v = defaultKubescapeVersion \/
  (isVersionToken (version v) /\
   (exists p pre post,
       _path (api st) = Some p /\
       exec_stdout (w_exec (trace st) (versionCommand p) versionOptions)
       = pre +:+ version v +:+ post) /\
   Semver.compareVersions (version v) FORMAT_THRESHOLD <> None /\
   (kind <> "latest" -> isLatest v = false)).
Proof.
  intros H. destruct (getKubescapeVersion_Ok_ready _ _ _ _ H) as [Hinst [p Hpath]].
  rewrite (getKubescapeVersion_eq kind st p Hinst Hpath) in H. cbv zeta in H.
  destruct (exec_err _); [discriminate |].
  destruct (Regex.firstVersion _) as [tok |] eqn:Htok.
  2:{ injection H as <- _. left. reflexivity. }
  right.
  assert (Hv : version v = tok).
  { destruct (String.eqb kind "latest").
    - destruct (getLatestVersion _) as [[t | e | e] st2]; try discriminate.
      injection H as <- _. reflexivity.
    - injection H as <- _. reflexivity. }
  rewrite Hv.
  destruct (firstVersion_sound _ _ Htok) as (pre & post & Hout & Htoken).
  split; [exact Htoken |]. split; [exists p, pre, post; auto |]. split.
  - exact (detected_version_parses _ _ Htok).
  - intros Hkind. apply String.eqb_neq in Hkind. rewrite Hkind in H.
    injection H as <- _. reflexivity.
Qed.

Lemma getKubescapeVersion_detects_printed_token_witness :
  mkVersion "v2.0.144" false = defaultKubescapeVersion \/
  (isVersionToken (version (mkVersion "v2.0.144" false)) /\
   (exists p pre post,
       _path (api Sample.probed) = Some p /\
       exec_stdout (w_exec (World := Sample.installed) (trace Sample.probed)
                           (versionCommand p) versionOptions)
       = pre +:+ version (mkVersion "v2.0.144" false) +:+ post) /\
   Semver.compareVersions (version (mkVersion "v2.0.144" false)) FORMAT_THRESHOLD <> None /\
   ("v2.0.144" <> "latest" -> isLatest (mkVersion "v2.0.144" false) = false)).
Proof.
  apply (getKubescapeVersion_detects_printed_token
           (host := Sample.linux) (world := Sample.installed)
           "v2.0.144" Sample.probed
           (snd (getKubescapeVersion (host := Sample.linux) (world := Sample.installed)
                                     "v2.0.144" Sample.probed))).
  vm_compute. reflexivity.
Defined.

(** X6.  For a requested kind other than "latest" the version query works
    offline: it adds no network request to the trace, leaves the API object
    as it was, and what it resolves with is the placeholder or a version
    marked not latest. *)
Theorem getKubescapeVersion_pinned_kind_offline `{host : Host} `{world : World}
        (kind : string) (st : St) :
  kind <> "latest" ->
  List.filter isNetworkEvent (trace (snd (getKubescapeVersion kind st)))
  = List.filter isNetworkEvent (trace st)
  /\ api (snd (getKubescapeVersion kind st)) = api st
  /\ (forall v, fst (getKubescapeVersion kind st) = Ok v ->
                v = defaultKubescapeVersion \/ isLatest v = false).
Proof.
  intros Hkind. apply String.eqb_neq in Hkind.
  destruct (_isInstalled (api st)) eqn:Hinst.
  2:{ unfold getKubescapeVersion. mstep. rewrite Hinst. cbn.
      repeat split. discriminate. }
  destruct (_path (api st)) as [p |] eqn:Hpath.
  2:{ unfold getKubescapeVersion, _buildKubescapeCommand, get_path. mstep.
      rewrite Hinst. mstep. rewrite Hpath. cbn. repeat split. discriminate. }
  rewrite (getKubescapeVersion_eq kind st p Hinst Hpath). cbv zeta. rewrite Hkind.
  destruct (exec_err _); [| destruct (Regex.firstVersion _)]; cbn [fst snd api trace];
    rewrite List.filter_app, app_nil_r; (split; [reflexivity |]; split; [reflexivity |]).
  - discriminate.
  - intros v H. injection H as <-. right. reflexivity.
  - intros v H. injection H as <-. left. reflexivity.
Qed.

Lemma getKubescapeVersion_pinned_kind_offline_witness :
  List.filter isNetworkEvent
    (trace (snd (getKubescapeVersion (host := Sample.linux) (world := Sample.installed)
                                     "v2.0.144" Sample.probed)))
  = List.filter isNetworkEvent (trace Sample.probed)
  /\ api (snd (getKubescapeVersion (host := Sample.linux) (world := Sample.installed)
                                   "v2.0.144" Sample.probed)) = api Sample.probed
  /\ (forall v, fst (getKubescapeVersion (host := Sample.linux) (world := Sample.installed)
                                         "v2.0.144" Sample.probed) = Ok v ->
                v = defaultKubescapeVersion \/ isLatest v = false).
Proof.
  apply (getKubescapeVersion_pinned_kind_offline
           (host := Sample.linux) (world := Sample.installed) "v2.0.144" Sample.probed).
  discriminate.
Defined.

(** X7.  How the version query fails.  On an API object whose tool is not
    installed, or has no path, it rejects with "Kubescape is not
    installed!" before anything is run.  When the version subcommand fails,
    the error is thrown inside the callback of [cp.exec]: the promise is
    never settled.  The same happens for the kind "latest" when the tool
    printed a version and the release registry cannot be reached. *)
Theorem getKubescapeVersion_failures `{host : Host} `{world : World}
        (kind : string) (st : St) :
  (_isInstalled (api st) = false \/ _path (api st) = None ->
   getKubescapeVersion kind st = (Rejected (JsErr ERROR_KUBESCAPE_NOT_INSTALLED), st))
  /\
  (forall p,
      _isInstalled (api st) = true -> _path (api st) = Some p ->
      let r := w_exec (trace st) (versionCommand p) versionOptions in
      let tr1 := trace st ++ [EvExec (versionCommand p) versionOptions r] in
      (exec_err r = true ->
       getKubescapeVersion kind st = (Uncaught (JsErr (exec_stderr r)), mkSt (api st) tr1))
      /\
      (exec_err r = false -> Regex.firstVersion (exec_stdout r) <> None ->
       w_fetchJson tr1 PACKAGE_BASE_URL = None ->
       getKubescapeVersion "latest" st
       = (Uncaught (JsSysError "fetch" PACKAGE_BASE_URL),
          mkSt (api st) (tr1 ++ [EvFetchJson PACKAGE_BASE_URL None])))).
Proof.
  split.
  - intros [Hinst | Hpath].
    + unfold getKubescapeVersion. mstep. rewrite Hinst. reflexivity.
    + unfold getKubescapeVersion, _buildKubescapeCommand, get_path. mstep.
      destruct (_isInstalled (api st)); [| reflexivity]. mstep. rewrite Hpath. reflexivity.
  - intros p Hinst Hpath r tr1. subst r tr1. split.
    + intros Herr. rewrite (getKubescapeVersion_eq kind st p Hinst Hpath). cbv zeta.
      rewrite Herr. reflexivity.
    + intros Herr Htok Hnet. rewrite (getKubescapeVersion_eq "latest" st p Hinst Hpath).
      cbv zeta. rewrite Herr.
      destruct (Regex.firstVersion _) as [tok |]; [| contradiction].
      rewrite String.eqb_refl, getLatestVersion_eq. cbv zeta. cbn [trace].
      rewrite Hnet. reflexivity.
Qed.

Lemma getKubescapeVersion_failures_witness :
  getKubescapeVersion (host := Sample.linux) (world := Sample.installed) "latest" Sample.fresh
  = (Rejected (JsErr ERROR_KUBESCAPE_NOT_INSTALLED), Sample.fresh)
  /\
  fst (getKubescapeVersion (host := Sample.linux) (world := Sample.noReport)
                           "v2.0.144" Sample.probed)
  = Uncaught (JsErr "cluster unreachable")
  /\
  fst (getKubescapeVersion (host := Sample.linux) (world := Sample.offline)
                           "latest" Sample.probed)
  = Uncaught (JsSysError "fetch" PACKAGE_BASE_URL).
Proof.
  split; [| split].
  - apply (getKubescapeVersion_failures (host := Sample.linux) (world := Sample.installed)
             "latest" Sample.fresh).
    left. reflexivity.
  - destruct (getKubescapeVersion_failures (host := Sample.linux) (world := Sample.noReport)
                "v2.0.144" Sample.probed) as [_ H].
    destruct (H (mkPath "/opt/ks/kubescape" "/opt/ks") eq_refl eq_refl) as [Herr _].
    rewrite Herr; reflexivity.
  - destruct (getKubescapeVersion_failures (host := Sample.linux) (world := Sample.offline)
                "latest" Sample.probed) as [_ H].
    destruct (H (mkPath "/opt/ks/kubescape" "/opt/ks") eq_refl eq_refl) as [_ Hnet].
    rewrite Hnet; [reflexivity | reflexivity | discriminate | reflexivity].
Defined.

(** ** install *)

Lemma chunkEvents_download (url : string) (signal : bool) (chunks : list nat) :
  forall read size,
    forallb (isDownloadEvent url signal) (chunkEvents read size chunks) = true.
Proof.
  induction chunks as [| chunk rest IH]; intros read size; simpl; [reflexivity | apply IH].
Qed.

(** X8.  [install] of a pinned version (any version but "latest") into a
    directory that decodes never rejects and leaves the API object alone.
    It asks for one address only, [<download base>/<version>/<asset>], runs
    no subprocess and does not query the release registry.  Its value is
    decided by the answers of the world, each taken in the trace in which
    it is asked: false when the directory cannot be made, when the request
    rejects, when the response is not ok or has no body, when the stream
    ends in an error, and when the permission change (skipped on Windows)
    fails; true when every step succeeds and the local path is not empty.
    On a stream that never ends [install] does not return. *)
Theorem install_pinned_version_never_rejects `{host : Host} `{world : World}
        (version kubescapeDir : string) (cancel : option AbortController)
        (st : St) (d : string) :
  version <> TXT_LATEST ->
  decodeURIComponent kubescapeDir = Some d ->
  let url := assetUrl version in
  let localPath := path_resolve2 d getOsKubescapeFilename in
  let signal := bool_decide (is_Some cancel) in
  let run := install version kubescapeDir cancel st in
  let tr0 := trace st
             ++ [EvProgressBegin "Downloading Kubescape" cancel;
                 EvUi UiDebug ("Attempt to download kubescape into '" +:+ localPath +:+ "'");
                 EvUi UiDebug ("creating " +:+ kubescapeDir)] in
  let made := w_mkdir tr0 d in
  let tr1 := tr0 ++ [EvMkdir d made] in
  let answer := w_fetch tr1 url signal in
  let tr2 := tr1 ++ [EvFetch url signal answer] in
  api (snd run) = api st
  /\
  fst run =
    (if negb made
     then Ok false
     else
       match answer with
       | inl _ => Ok false
       | inr response =>
           if negb (resp_ok response) || negb (resp_hasBody response)
           then Ok false
           else
             let tr3 := tr2 ++ [EvUi UiDebug ("Requesting kubescape status: "
                                              +:+ resp_statusText response
                                              +:+ " (" +:+ resp_status response +:+ ")")] in
             let piped := w_pipeline tr3 localPath in
             let tr4 := tr3 ++ chunkEvents 0 (resp_size response) (pipe_chunks piped)
                            ++ [EvPipeline localPath piped] in
             match pipe_end piped with
             | PipeFailed _ => Ok false
             | PipeStalled => Uncaught JsStalled
             | PipeDone =>
                 Ok ((isWindows || w_chmod tr4 localPath)
                     && (0 <? String.length localPath)%nat)
             end
       end)
  /\
  exists evs,
    trace (snd run) = trace st ++ evs /\
    forallb (isDownloadEvent url signal) evs = true.
Proof.
  intros Hv Hd. cbv zeta. apply String.eqb_neq in Hv.
  unfold install. rewrite Hv. cbv beta iota zeta delta [bind ret].
  fold (assetUrl version).
  rewrite (downloadFile_run _ _ _ _ _ _ d Hd). cbv zeta.
  assert (Hself : forall s, String.eqb (assetUrl version) (assetUrl version) && Bool.eqb s s
                            = true)
    by (intros s; rewrite String.eqb_refl; destruct s; reflexivity).
  assert (Hchunks : forall read size chunks tail,
             forallb (isDownloadEvent (assetUrl version) (bool_decide (is_Some cancel)))
                     (chunkEvents read size chunks ++ tail)
             = forallb (isDownloadEvent (assetUrl version) (bool_decide (is_Some cancel))) tail)
    by (intros; rewrite forallb_app, chunkEvents_download; reflexivity).
  unfold couldNotDownload.
  destruct (w_mkdir _ d); cbn [negb].
  2:{ cbn [fst snd api trace]. split; [reflexivity |]. split; [reflexivity |].
      flat. eexists. split; reflexivity. }
  destruct (w_fetch _ (assetUrl version) _) as [e | response].
  { cbn [fst snd api trace]. split; [reflexivity |]. split; [reflexivity |].
    flat. eexists. split; [reflexivity |].
    cbn [forallb isDownloadEvent]. rewrite Hself. reflexivity. }
  destruct (negb (resp_ok response) || negb (resp_hasBody response)).
  { cbn [fst snd api trace]. split; [reflexivity |]. split; [reflexivity |].
    flat. eexists. split; [reflexivity |].
    cbn [forallb isDownloadEvent]. rewrite Hself. reflexivity. }
  destruct (w_pipeline _ _) as [chunks pend]. cbn [pipe_chunks pipe_end].
  destruct pend as [| e |].
  - destruct isWindows; cbn [negb orb andb].
    + cbn [fst snd api trace]. split; [reflexivity |]. split; [reflexivity |].
      flat. eexists. split; [reflexivity |].
      cbn [forallb isDownloadEvent]. rewrite Hself, Hchunks. reflexivity.
    + destruct (w_chmod _ _); cbn [fst snd api trace andb];
        (split; [reflexivity |]); (split; [reflexivity |]);
        flat; (eexists; split; [reflexivity |]);
        cbn [forallb isDownloadEvent]; rewrite Hself, Hchunks; reflexivity.
  - cbn [fst snd api trace]. split; [reflexivity |]. split; [reflexivity |].
    flat. eexists. split; [reflexivity |].
    cbn [forallb isDownloadEvent]. rewrite Hself, Hchunks. reflexivity.
  - cbn [fst snd api trace]. split; [reflexivity |]. split; [reflexivity |].
    flat. eexists. split; [reflexivity |].
    cbn [forallb isDownloadEvent]. rewrite Hself, Hchunks. reflexivity.
Qed.

Lemma install_pinned_version_never_rejects_witness :
  let run := install (host := Sample.linux) (world := Sample.cutOff) "v2.0.144" "/opt/ks" None
                     Sample.fresh in
  api (snd run) = api Sample.fresh
  /\ fst run = Ok false
  /\ exists evs,
       trace (snd run) = trace Sample.fresh ++ evs /\
       forallb (isDownloadEvent (assetUrl (host := Sample.linux) "v2.0.144") false) evs = true.
Proof.
  exact (install_pinned_version_never_rejects (host := Sample.linux) (world := Sample.cutOff)
           "v2.0.144" "/opt/ks" None Sample.fresh "/opt/ks"
           ltac:(discriminate) eq_refl).
Defined.

(** the download of Linux at v2.0.144 that breaks mid-stream: [install]
    returns false *)
Example install_cut_off :
  fst (install (host := Sample.linux) (world := Sample.cutOff) "v2.0.144" "/opt/ks" None
               Sample.fresh) = Ok false
  /\ assetUrl (host := Sample.linux) "v2.0.144"
     = "https://github.com/armosec/kubescape/releases/download/v2.0.144/kubescape-ubuntu-latest".
Proof. split; vm_compute; reflexivity. Qed.

(** X9.  [install] of "latest" first asks the release registry for the
    page of the latest release, outside of any [try]: when the registry
    cannot be reached, or its answer has no [html_url] text, [install]
    rejects, and nothing is downloaded. *)
Theorem install_latest_needs_release_page `{host : Host} `{world : World}
        (kubescapeDir : string) (cancel : option AbortController) (st : St) :
  let answer := w_fetchJson (trace st) PACKAGE_BASE_URL in
  let st1 := mkSt (api st) (trace st ++ [EvFetchJson PACKAGE_BASE_URL answer]) in
  (answer = None ->
   install TXT_LATEST kubescapeDir cancel st
   = (Rejected (JsSysError "fetch" PACKAGE_BASE_URL), st1))
  /\
  (forall obj,
      answer = Some obj ->
      (forall s, Js.get obj "html_url" <> inr (JStr s)) ->
      exists e, install TXT_LATEST kubescapeDir cancel st = (Rejected e, st1)).
Proof.
  intros answer st1. subst answer st1.
  unfold install, getLatestVersionUrl, fetchJson. rewrite String.eqb_refl. mstep. split.
  - intros ->. reflexivity.
  - intros obj -> Hurl. mstep.
    destruct (Js.get obj "html_url") as [e | v]; mstep; [eauto |].
    destruct v; mstep; eauto. exfalso. exact (Hurl s eq_refl).
Qed.

Lemma install_latest_needs_release_page_witness :
  install (host := Sample.linux) (world := Sample.offline) TXT_LATEST "/opt/ks" None Sample.fresh
  = (Rejected (JsSysError "fetch" PACKAGE_BASE_URL),
     mkSt (api Sample.fresh) [EvFetchJson PACKAGE_BASE_URL None]).
Proof.
  destruct (install_latest_needs_release_page (host := Sample.linux) (world := Sample.offline)
              "/opt/ks" None Sample.fresh) as [Hnone _].
  apply Hnone. reflexivity.
Defined.

(** ** What a computation adds to the trace *)

Section AddsNo.
Variable kind : Event -> bool.

Lemma addsNo_ret {A} (a : A) : addsNo kind (ret a).
Proof. intros st. reflexivity. Qed.

Lemma addsNo_never {A} (e : JsError) : addsNo kind (@never A e).
Proof. intros st. reflexivity. Qed.

Lemma addsNo_throw {A} (e : JsError) : addsNo kind (@throw A e).
Proof. intros st. reflexivity. Qed.

Lemma addsNo_getApi : addsNo kind getApi.
Proof. intros st. reflexivity. Qed.

Lemma addsNo_modifyApi (f : KubescapeApi -> KubescapeApi) : addsNo kind (modifyApi f).
Proof. intros st. reflexivity. Qed.

Lemma addsNo_liftE {A} (r : JsError + A) : addsNo kind (liftE r).
Proof. intros st. destruct r; reflexivity. Qed.

Lemma addsNo_emit (e : Event) : kind e = false -> addsNo kind (emit e).
Proof.
  intros H st. cbn. rewrite List.filter_app. cbn. rewrite H. apply app_nil_r.
Qed.

Lemma addsNo_request {A} (ask : Trace -> A) (ev : A -> Event) :
  (forall r, kind (ev r) = false) -> addsNo kind (request ask ev).
Proof.
  intros H st. cbn. rewrite List.filter_app. cbn. rewrite H. apply app_nil_r.
Qed.

Lemma addsNo_bind {A B} (m : M A) (k : A -> M B) :
  addsNo kind m -> (forall a, addsNo kind (k a)) -> addsNo kind (bind m k).
Proof.
  intros Hm Hk st. unfold bind. specialize (Hm st).
  destruct (m st) as [[a | e | e] st1]; simpl in *; try exact Hm.
  rewrite Hk. exact Hm.
Qed.

Lemma addsNo_tryCatch {A} (m : M A) (handler : JsError -> M A) :
  addsNo kind m -> (forall e, addsNo kind (handler e)) -> addsNo kind (tryCatch m handler).
Proof.
  intros Hm Hh st. unfold tryCatch. specialize (Hm st).
  destruct (m st) as [[a | e | e] st1]; simpl in *; try exact Hm.
  rewrite Hh. exact Hm.
Qed.

Lemma addsNo_inCallback {A} (m : M A) : addsNo kind m -> addsNo kind (inCallback m).
Proof.
  intros Hm st. unfold inCallback. specialize (Hm st).
  destruct (m st) as [[a | e | e] st1]; exact Hm.
Qed.

Lemma addsNo_finally {A} (fn : M A) (cleanup : M unit) :
  addsNo kind fn -> addsNo kind cleanup -> addsNo kind (finally fn cleanup).
Proof.
  intros Hf Hc st. unfold finally. specialize (Hf st).
  destruct (fn st) as [[a | e | e] st1]; simpl in *; try exact Hf.
  - specialize (Hc st1). unfold bind. destruct (cleanup st1) as [[[] | e | e] st2];
      simpl in *; congruence.
  - specialize (Hc st1). unfold bind. destruct (cleanup st1) as [[[] | e' | e'] st2];
      simpl in *; congruence.
Qed.

Lemma addsNo_forEach {A} (l : list A) (body : A -> M unit) :
  (forall x, addsNo kind (body x)) -> addsNo kind (forEach l body).
Proof.
  intros Hb. induction l as [| x l IH]; simpl.
  - apply addsNo_ret.
  - apply addsNo_bind; [apply Hb | intros _; exact IH].
Qed.

End AddsNo.

(** the closure steps; an event is checked by evaluation, or against the
    assumption that the kind holds network events only *)
Ltac quiet_event :=
  first [ reflexivity
        | match goal with
          | H : forall e, isNetworkEvent e = false -> _ e = false |- _ =>
              apply H; reflexivity
          end ].

Ltac quiet :=
  repeat
    match goal with
    | |- forall _, _ => intro
    | |- addsNo _ (bind _ _) => apply addsNo_bind
    | |- addsNo _ (ret _) => apply addsNo_ret
    | |- addsNo _ (throw _) => apply addsNo_throw
    | |- addsNo _ (never _) => apply addsNo_never
    | |- addsNo _ getApi => apply addsNo_getApi
    | |- addsNo _ (modifyApi _) => apply addsNo_modifyApi
    | |- addsNo _ (liftE _) => apply addsNo_liftE
    | |- addsNo _ (emit _) => apply addsNo_emit; quiet_event
    | |- addsNo _ (request _ _) => apply addsNo_request; intro; quiet_event
    | |- addsNo _ (inCallback _) => apply addsNo_inCallback
    | |- addsNo _ (tryCatch _ _) => apply addsNo_tryCatch
    | |- addsNo _ (finally _ _) => apply addsNo_finally
    | H : String.eqb ?v "latest" = false
      |- addsNo _ (if String.eqb ?v "latest" then _ else _) => rewrite H
    | |- addsNo _ (match ?x with _ => _ end) => destruct x
    | |- addsNo _ (if ?x then _ else _) => destruct x
    | |- addsNo _ (fun _ => _) => solve [let st := fresh in intro st; reflexivity]
    | |- addsNo _ _ =>
        progress unfold ui_info, ui_error, ui_debug, ui_progress, ui_slow, progress, exec,
          fs_mkdir, fs_access, fs_chmod, fs_readdir, fs_readFileSync, fs_realpath, fs_mkdtemp,
          uuidv4, decodeURIComponentM, get_path, get_directory, get_version,
          get_frameworkDirectory, isKubescapeInstalled, compareVersionsM, appendToCatalog,
          _buildKubescapeCommand, _buildScanCommand, isFrameworkFile, activate,
          withTempFile, withTempDir, TXT_LATEST
    end.

Section Quiet.
Context `{host : Host} `{world : World}.
Variable kind : Event -> bool.
Hypothesis network_only : forall e, isNetworkEvent e = false -> kind e = false.

Lemma addsNo_reportChunks (chunks : list nat) :
  forall read size, addsNo kind (reportChunks read size chunks).
Proof.
  induction chunks as [| chunk rest IH]; intros read size; simpl; [quiet |].
  apply addsNo_bind; [quiet | intros _; apply IH].
Qed.

Lemma addsNo_filterFrameworkFiles (dir : string) (files : list string) :
  addsNo kind (filterFrameworkFiles dir files).
Proof.
  induction files as [| file rest IH]; simpl; [quiet |].
  apply addsNo_bind; [quiet |]. intros keep. apply addsNo_bind; [exact IH | quiet].
Qed.

Lemma addsNo_collectMissing (frameworks : list string) :
  forall acc, addsNo kind (collectMissing frameworks acc).
Proof.
  induction frameworks as [| f rest IH]; intros acc; simpl; [quiet |].
  apply addsNo_bind; [quiet |]. intros a.
  destruct (_frameworks a) as [c |]; [| apply IH].
  destruct (getProperty c f); try apply IH.
  apply addsNo_bind; [quiet | intros _; apply IH].
Qed.

Lemma addsNo_launchDownloads (frameworks : list string) :
  forall index, addsNo kind (launchDownloads index frameworks).
Proof.
  induction frameworks as [| f rest IH]; intros index; simpl; [quiet |].
  apply addsNo_bind; [| intros d; apply addsNo_bind; [apply IH | quiet]].
  unfold launchDownload. quiet.
Qed.

Lemma addsNo_settleDownloads (finished : list Download) :
  forall pending, addsNo kind (settleDownloads finished pending).
Proof.
  induction finished as [| d rest IH]; intros pending; simpl; [quiet |].
  apply addsNo_bind; [quiet |]. intros _.
  apply addsNo_bind; [unfold downloadCallback, attempt, parseDownload; cbv zeta; quiet |].
  intros [f | reason escaped | e]; [| quiet | apply IH].
  apply addsNo_bind; [apply IH | quiet].
Qed.

Lemma addsNo_installFrameworks (frameworks : list string) :
  addsNo kind (installFrameworks frameworks).
Proof.
  unfold installFrameworks.
  apply addsNo_bind; [apply addsNo_collectMissing |]. intros needs.
  destruct needs as [| n needs]; [quiet |].
  apply addsNo_bind; [| quiet].
  unfold downloadMissingFrameworks.
  apply addsNo_bind; [apply addsNo_launchDownloads |]. intros ds.
  destruct (firstRejected ds); [quiet |].
  apply addsNo_bind; [apply addsNo_settleDownloads | quiet].
Qed.

Lemma addsNo_downloadAllFrameworks : addsNo kind downloadAllFrameworks.
Proof. unfold downloadAllFrameworks, downloadAllCallback. quiet. Qed.

Lemma addsNo_getInstalledFrameworks : addsNo kind getInstalledFrameworks.
Proof.
  unfold getInstalledFrameworks.
  repeat first [ apply addsNo_filterFrameworkFiles | progress quiet ].
Qed.

Lemma addsNo_indexControlFiles (dir : string) (files : list string) :
  forall m, addsNo kind (indexControlFiles dir files m).
Proof.
  induction files as [| file rest IH]; intros m; simpl; [quiet |].
  apply addsNo_bind; [unfold indexControlFile; quiet | intros m'; apply IH].
Qed.

Lemma addsNo_getControlsMap : addsNo kind getControlsMap.
Proof.
  unfold getControlsMap.
  repeat first [ apply addsNo_indexControlFiles | progress quiet ].
Qed.

Lemma addsNo_scanCallback (file : string) (r : ExecResult) : addsNo kind (scanCallback file r).
Proof.
  unfold scanCallback, appendControlsInformationToV2Report.
  repeat first [ apply addsNo_getControlsMap | progress quiet ].
Qed.

Lemma addsNo_scanYaml (filePath : string) (overrideArgs : option (list (string * ArgValue))) :
  addsNo kind (scanYaml filePath overrideArgs).
Proof.
  unfold scanYaml.
  repeat first [ apply addsNo_scanCallback | progress quiet ].
Qed.

Lemma addsNo_scanCluster (context : string) (kubeconfigPath : option string)
      (overrideArgs : option (list (string * ArgValue))) :
  addsNo kind (scanCluster context kubeconfigPath overrideArgs).
Proof.
  unfold scanCluster.
  repeat first [ apply addsNo_scanCallback | progress quiet ].
Qed.

Lemma addsNo_setup_frameworks (configs : IKubescapeConfig) :
  addsNo kind (setup_frameworks configs).
Proof.
  unfold setup_frameworks, setup_frameworkDir, setup_required, setup_scanFrameworks.
  repeat first [ apply addsNo_getInstalledFrameworks | apply addsNo_installFrameworks
               | apply addsNo_downloadAllFrameworks | apply addsNo_forEach
               | progress quiet ].
Qed.

End Quiet.

(** ** setup: what it asks of the network, and how it fails *)

Lemma registry_is_network (e : Event) :
  isNetworkEvent e = false -> isRegistryQuery e = false.
Proof. destruct e; simpl; intros H; first [reflexivity | discriminate]. Qed.

(** X10.  With a pinned version (any version but "latest") in the
    configuration, [setup] never queries the release registry, whatever
    the state and the world: the version query, the reconciliation and the
    installation all skip the lookup of the latest release. *)
Theorem setup_pinned_version_skips_registry `{host : Host} `{world : World}
        (configs : IKubescapeConfig) (abort : option AbortController) :
  config_version configs <> "latest" ->
  addsNo isRegistryQuery (setup configs abort).
Proof.
  intros Hv. apply String.eqb_neq in Hv.
  unfold setup, setup_needsUpdate, setup_install, install, getKubescapeVersion,
    downloadFile, pipeline, TXT_LATEST.
  repeat first [ apply (addsNo_setup_frameworks _ registry_is_network)
               | apply (addsNo_reportChunks _ registry_is_network)
               | progress quiet ].
Qed.

Lemma setup_pinned_version_skips_registry_witness :
  List.filter isRegistryQuery
    (trace (snd (setup (host := Sample.linux) (world := Sample.unreachable)
                       Sample.config (Some abortController) Sample.fresh)))
  = List.filter isRegistryQuery (trace Sample.fresh).
Proof.
  apply (setup_pinned_version_skips_registry (host := Sample.linux)
           (world := Sample.unreachable) Sample.config (Some abortController)).
  discriminate.
Defined.

Lemma flag_setup_needsUpdate `{host : Host} `{world : World} (configs : IKubescapeConfig) :
  preservesFlag (setup_needsUpdate configs).
Proof. unfold setup_needsUpdate, getKubescapeVersion, _buildKubescapeCommand. flag. Qed.

Lemma flag_install `{host : Host} `{world : World} (version kubescapeDir : string)
      (cancel : option AbortController) :
  preservesFlag (install version kubescapeDir cancel).
Proof. unfold install. flag. Qed.

Lemma setup_install_false `{host : Host} `{world : World}
      (configs : IKubescapeConfig) (abort : option AbortController) (needsUpdate : bool)
      (st st' : St) :
  setup_install configs abort needsUpdate st = (Ok false, st') ->
  abort <> None /\
  _isInstalled (api st') = false /\
  _isInitialized (api st') = _isInitialized (api st) /\
  exists tr, trace st' = tr ++ [EvUi UiError ERROR_KUBESCAPE_NOT_INSTALLED; EvAbort].
Proof.
  unfold setup_install. destruct needsUpdate; [| discriminate]. mrun.
  destruct (_path (api st)) as [p |]; [| discriminate].
  destruct (String.eqb (baseDir p) EmptyString); [discriminate |]. mrun.
  match goal with
  | |- context [install ?v ?d ?c ?s] =>
      pose proof (flag_install v d c s) as Hflag;
      destruct (install v d c s) as [[b | e | e] s2]; try discriminate
  end.
  cbn [snd api] in Hflag. mrun. destruct b; mrun.
  - destruct (getKubescapeVersion _ _) as [[v | e | e] s3]; discriminate.
  - destruct abort as [c |]; [| discriminate]. mrun.
    intros H. injection H as <-. cbn.
    split; [discriminate |]. split; [reflexivity |]. split; [exact Hflag |].
    eexists. rewrite <- app_assoc. reflexivity.
Qed.

(** X11.  [setup] returns false in one case only: the installation was
    attempted and failed, and an abort controller was passed, whose
    [abort()] is the last thing done after the error "Kubescape is not
    installed!" was shown.  The object is then neither installed nor
    initialized, so that a later [setup] runs the whole procedure again. *)
Theorem setup_false_after_failed_install `{host : Host} `{world : World}
        (configs : IKubescapeConfig) (abort : option AbortController) (st st' : St) :
  setup configs abort st = (Ok false, st') ->
  abort <> None /\
  _isInstalled (api st') = false /\
  _isInitialized (api st') = false /\
  exists tr, trace st' = tr ++ [EvUi UiError ERROR_KUBESCAPE_NOT_INSTALLED; EvAbort].
Proof.
  unfold setup. mrun.
  destruct (_isInitialized (api st)) eqn:Hinit; [discriminate |]. mrun.
  match goal with
  | |- context [setup_needsUpdate configs ?s] =>
      pose proof (flag_setup_needsUpdate configs s) as Hflag;
      destruct (setup_needsUpdate configs s) as [[n | e | e] s1]; try discriminate
  end.
  cbn [snd api] in Hflag.
  destruct (setup_install configs abort n s1) as [[go | e | e] s2] eqn:Hinstall;
    try discriminate.
  destruct go.
  - destruct (setup_frameworks configs s2) as [[[] | e | e] s3]; discriminate.
  - intros H. injection H as <-.
    destruct (setup_install_false _ _ _ _ _ Hinstall) as (Habort & Hinst & Hflag2 & Htr).
    split; [exact Habort |]. split; [exact Hinst |]. split; [congruence | exact Htr].
Qed.

Lemma setup_false_after_failed_install_witness :
  Some abortController <> None /\
  _isInstalled (api (snd (setup (host := Sample.linux) (world := Sample.unreachable)
                                Sample.config (Some abortController) Sample.fresh))) = false /\
  _isInitialized (api (snd (setup (host := Sample.linux) (world := Sample.unreachable)
                                  Sample.config (Some abortController) Sample.fresh))) = false /\
  exists tr,
    trace (snd (setup (host := Sample.linux) (world := Sample.unreachable)
                      Sample.config (Some abortController) Sample.fresh))
    = tr ++ [EvUi UiError ERROR_KUBESCAPE_NOT_INSTALLED; EvAbort].
Proof.
  apply (setup_false_after_failed_install (host := Sample.linux) (world := Sample.unreachable)
           Sample.config (Some abortController) Sample.fresh).
  vm_compute. reflexivity.
Defined.

(** X12.  When the installation fails and [setup] was called without an
    abort controller (the default of the parameter), the call of
    [abort.abort()] is a TypeError: the installation step rejects instead
    of returning false, after it marked the tool as not installed and
    showed the error. *)
Theorem setup_install_without_abort_controller `{host : Host} `{world : World}
        (configs : IKubescapeConfig) (st s2 : St) (p : KubescapePath) :
  _path (api st) = Some p ->
  baseDir p <> EmptyString ->
  install (config_version configs) (baseDir p) None
          (mkSt (api st)
                (trace st ++ [EvUi UiDebug ("Kubescape needs to be updated to version: "
                                            +:+ config_version configs)]))
  = (Ok false, s2) ->
  setup_install configs None true st
  = (Rejected (JsTypeError "abort"),
     mkSt (set_isInstalled false (api s2))
          (trace s2 ++ [EvUi UiError ERROR_KUBESCAPE_NOT_INSTALLED])).
Proof.
  intros Hpath Hbase Hinstall. apply String.eqb_neq in Hbase.
  unfold setup_install. mrun. rewrite Hpath, Hbase. mrun.
  rewrite Hinstall. mrun. reflexivity.
Qed.

Lemma setup_install_without_abort_controller_witness :
  fst (setup_install (host := Sample.linux) (world := Sample.unreachable)
                     Sample.config None true Sample.probed)
  = Rejected (JsTypeError "abort").
Proof.
  rewrite (setup_install_without_abort_controller
             (host := Sample.linux) (world := Sample.unreachable)
             Sample.config Sample.probed
             (snd (install (host := Sample.linux) (world := Sample.unreachable)
                           "v2.0.144" "/opt/ks" None
                           (mkSt (api Sample.probed)
                                 [EvUi UiDebug "Kubescape needs to be updated to version: v2.0.144"])))
             (mkPath "/opt/ks/kubescape" "/opt/ks")).
  - reflexivity.
  - reflexivity.
  - discriminate.
  - vm_compute. reflexivity.
Defined.

(** the two ways the framework-directory step ends *)
Ltac frameworkDir_custom Hdone d :=
  let H := fresh in
  intros H; injection H as <-; exists d;
  split; [reflexivity |]; split; [auto |]; split; [apply Hdone; [auto | reflexivity] |];
  left; cbn [trace]; rewrite <- app_assoc; eexists; reflexivity.

Ltac frameworkDir_fallback Hdone p :=
  let q := fresh "q" in
  let Hb := fresh "Hb" in
  let H := fresh in
  destruct p as [q |]; mrun; [| discriminate];
  destruct (String.eqb (baseDir q) EmptyString) eqn:Hb; mrun; [discriminate |];
  apply String.eqb_neq in Hb;
  intros H; injection H as <-; exists (baseDir q);
  split; [reflexivity |]; split; [auto |]; split; [apply Hdone; [auto | reflexivity] |];
  right; eauto.

(** X13.  When the framework-directory step of [setup] completes, the
    framework directory is set and not empty, so the accessor
    [frameworkDirectory] no longer throws, and nothing else of the API
    object has changed.  The directory is the one just created and found
    accessible, or else the base directory of the tool: the fallback when
    no directory is configured or known, and when the directory cannot be
    created or accessed. *)
Theorem setup_frameworkDir_resolves `{host : Host} `{world : World}
        (configs : IKubescapeConfig) (st st' : St) :
  setup_frameworkDir configs st = (Ok tt, st') ->
  exists d,
    api st' = set_frameworkDir (Some d) (api st) /\
    d <> EmptyString /\
    get_frameworkDirectory st' = (Ok d, st') /\
    ((exists tr, trace st' = tr ++ [EvMkdir d true; EvAccess d true]) \/
     (exists p, _path (api st) = Some p /\ d = baseDir p)).
Proof.
  destruct st as [[i n p fd v f] tr].
  unfold setup_frameworkDir, decodeURIComponentM, fs_mkdir, fs_access.
  assert (Hdone : forall (a : KubescapeApi) (d : string) t,
             d <> EmptyString ->
             _frameworkDir a = Some d ->
             get_frameworkDirectory (mkSt a t) = (Ok d, mkSt a t)).
  { intros a d t Hd Ha. unfold get_frameworkDirectory. mrun. rewrite Ha.
    apply String.eqb_neq in Hd. rewrite Hd. reflexivity. }
  assert (Hlen : forall d : string, (0 <? String.length d)%nat = true -> d <> EmptyString)
    by (intros d H ->; discriminate).
  assert (Hknown :
            forall (d : string) (fd0 : option string) (t : Trace) a,
              a = mkApi i n p fd0 v f ->
              (let st1 := mkSt (mkApi i n p (Some d) v f) t in
               (if (0 <? String.length d)%nat
                then
                  ui_debug ("getting custom frameworks from specified directory: " +:+ d) ;;
                  tryCatch
                    (ok <- request (fun tr => w_mkdir tr d) (EvMkdir d) ;;
                     (if ok then ret tt else throw (JsSysError "mkdir" d)) ;;
                     ok <- request (fun tr => w_access tr d) (EvAccess d) ;;
                     if ok then ret tt else throw (JsSysError "access" d))
                    (fun _ =>
                       ui_info ("Cannot access " +:+ d +:+ ". Using fallback instead.") ;;
                       fallback <- get_directory ;;
                       modifyApi (set_frameworkDir (Some fallback)))
                else
                  ui_debug "getting available frameworks from kubescape directory" ;;
                  fallback <- get_directory ;;
                  modifyApi (set_frameworkDir (Some fallback))) st1 = (Ok tt, st')) ->
              exists d',
                api st' = set_frameworkDir (Some d') a /\
                d' <> EmptyString /\
                get_frameworkDirectory st' = (Ok d', st') /\
                ((exists tr, trace st' = tr ++ [EvMkdir d' true; EvAccess d' true]) \/
                 (exists q, p = Some q /\ d' = baseDir q))).
  { intros d fd0 t a ->. cbv zeta.
    destruct (0 <? String.length d)%nat eqn:Hd; mrun.
    - destruct (w_mkdir _ d); mrun.
      + destruct (w_access _ d); mrun.
        * frameworkDir_custom Hdone d.
        * frameworkDir_fallback Hdone p.
      + frameworkDir_fallback Hdone p.
    - frameworkDir_fallback Hdone p. }
  cbn [api _path].
  destruct (frameworksDirectory configs) as [d0 |]; mrun.
  - destruct (String.eqb d0 EmptyString); mrun.
    + destruct fd as [d |]; mrun.
      * apply (Hknown d (Some d) tr _ eq_refl).
      * frameworkDir_fallback Hdone p.
    + destruct (decodeURIComponent _) as [d |]; mrun; [| discriminate].
      apply (Hknown d fd tr _ eq_refl).
  - destruct fd as [d |]; mrun.
    + apply (Hknown d (Some d) tr _ eq_refl).
    + frameworkDir_fallback Hdone p.
Qed.

Lemma setup_frameworkDir_resolves_witness :
  exists d,
    api (snd (setup_frameworkDir (host := Sample.linux) (world := Sample.readOnlyDisk)
                                 Sample.customDirectory Sample.probed))
    = set_frameworkDir (Some d) (api Sample.probed) /\
    d <> EmptyString /\
    get_frameworkDirectory
      (snd (setup_frameworkDir (host := Sample.linux) (world := Sample.readOnlyDisk)
                               Sample.customDirectory Sample.probed))
    = (Ok d, snd (setup_frameworkDir (host := Sample.linux) (world := Sample.readOnlyDisk)
                                     Sample.customDirectory Sample.probed)) /\
    ((exists tr,
         trace (snd (setup_frameworkDir (host := Sample.linux) (world := Sample.readOnlyDisk)
                                        Sample.customDirectory Sample.probed))
         = tr ++ [EvMkdir d true; EvAccess d true]) \/
     (exists p, _path (api Sample.probed) = Some p /\ d = baseDir p)).
Proof.
  apply (setup_frameworkDir_resolves (host := Sample.linux) (world := Sample.readOnlyDisk)
           Sample.customDirectory Sample.probed).
  vm_compute. reflexivity.
Defined.

(** the directory cannot be created: the base directory is used *)
Example setup_frameworkDir_read_only_disk :
  _frameworkDir (api (snd (setup_frameworkDir (host := Sample.linux)
                             (world := Sample.readOnlyDisk)
                             Sample.customDirectory Sample.probed)))
  = Some "/opt/ks".
Proof. vm_compute. reflexivity. Qed.

(** ** The catalog: what is marked, what is listed *)

Lemma collectMissing_cataloged (l : list string) :
  forall (c : gmap string KubescapeFramework) (st : St) (acc : list string),
    _frameworks (api st) = Some c ->
    (forall n, In n l -> is_Some (c !! n)) ->
    exists c',
      collectMissing l acc st = (Ok acc, mkSt (set_frameworks c' (api st)) (trace st)) /\
      forall k, c' !! k = if existsb (String.eqb k) l
                          then markInstalled <$> c !! k
                          else c !! k.
Proof.
  induction l as [| n rest IH]; intros c st acc Hc Hall.
  - exists c. split; [| intros k; reflexivity].
    simpl. unfold ret. rewrite set_frameworks_same by exact Hc. reflexivity.
  - destruct (Hall n (or_introl eq_refl)) as [f Hf].
    pose (c1 := <[n := markInstalled f]> c).
    pose (st1 := mkSt (set_frameworks c1 (api st)) (trace st)).
    destruct (IH c1 st1 acc) as (c' & Hrun & Hlook).
    + reflexivity.
    + intros m Hm. subst c1. destruct (decide (n = m)) as [-> | Hne].
      * rewrite lookup_insert_eq. eauto.
      * rewrite lookup_insert_ne by exact Hne. apply Hall. right. exact Hm.
    + exists c'. split.
      * simpl. mrun. rewrite Hc. unfold getProperty. rewrite Hf. mrun.
        fold c1. fold st1. rewrite Hrun. subst st1. reflexivity.
      * intros k. rewrite Hlook. subst c1. simpl.
        destruct (String.eqb k n) eqn:Hkn.
        -- apply String.eqb_eq in Hkn. subst k.
           rewrite lookup_insert_eq, Hf. simpl.
           destruct (existsb (String.eqb n) rest); reflexivity.
        -- apply String.eqb_neq in Hkn.
           rewrite lookup_insert_ne by congruence. reflexivity.
Qed.

(** X14.  [installFrameworks] on names that are all cataloged downloads
    nothing: it resolves without a single request to the world, and what it
    does is to mark exactly the entries of those names as active, every
    other entry and every other field of the API object staying as it
    was. *)
Theorem installFrameworks_cataloged_only_marks `{host : Host} `{world : World}
        (frameworks : list string) (st : St) (c : gmap string KubescapeFramework) :
  _frameworks (api st) = Some c ->
  (forall n, In n frameworks -> is_Some (c !! n)) ->
  exists c',
    installFrameworks frameworks st
    = (Ok tt, mkSt (set_frameworks c' (api st)) (trace st)) /\
    forall k, c' !! k = if existsb (String.eqb k) frameworks
                        then markInstalled <$> c !! k
                        else c !! k.
Proof.
  intros Hc Hall.
  destruct (collectMissing_cataloged frameworks c st [] Hc Hall) as (c' & Hrun & Hlook).
  exists c'. split; [| exact Hlook].
  unfold installFrameworks. rewrite (bind_eq_Ok _ _ _ _ _ Hrun). reflexivity.
Qed.

Lemma installFrameworks_cataloged_only_marks_witness :
  exists c',
    installFrameworks (host := Sample.linux) (world := Sample.unreachable)
                      ["nsa"] Sample.cataloged
    = (Ok tt, mkSt (set_frameworks c' (api Sample.cataloged)) (trace Sample.cataloged)) /\
    forall k, c' !! k = if existsb (String.eqb k) ["nsa"]
                        then markInstalled
                               <$> ({["nsa" := Sample.nsaOnDisk]}
                                    : gmap string KubescapeFramework) !! k
                        else ({["nsa" := Sample.nsaOnDisk]}
                              : gmap string KubescapeFramework) !! k.
Proof.
  apply (installFrameworks_cataloged_only_marks (host := Sample.linux)
           (world := Sample.unreachable) ["nsa"] Sample.cataloged
           {["nsa" := Sample.nsaOnDisk]}).
  - reflexivity.
  - intros n [<- | []]. rewrite lookup_singleton_eq. eexists. reflexivity.
Defined.

Lemma NoDup_map_fst_filter {A B} (P : A * B -> bool) (l : list (A * B)) :
  List.NoDup (List.map fst l) -> List.NoDup (List.map fst (List.filter P l)).
Proof.
  induction l as [| x l IH]; simpl; intros H; [constructor |].
  inversion H as [| ? ? Hnotin Hrest]; subst.
  destruct (P x); simpl; [| apply IH; exact Hrest].
  constructor; [| apply IH; exact Hrest].
  intros Hin. apply Hnotin.
  apply in_map_iff in Hin as (y & Hy & Hin).
  apply List.filter_In in Hin as [Hin _].
  apply in_map_iff. exists y. split; [exact Hy | exact Hin].
Qed.

Lemma NoDup_catalogKeys (c : gmap string KubescapeFramework) :
  List.NoDup (List.map fst (map_to_list c)).
Proof.
  pose proof (NoDup_fst_map_to_list c) as H.
  apply NoDup_ListNoDup. exact H.
Qed.

(** X15.  The accessor [frameworksNames] gives exactly the cataloged names
    whose entry is active, each once; the accessor [frameworks] gives
    exactly the entries of the catalog; both are empty on an object that
    has no catalog yet, whose catalog counts as empty. *)
Theorem frameworksNames_lists_active_entries (a : KubescapeApi) :
  (forall k, In k (frameworksNames a) <->
             exists f, catalogOf a !! k = Some f /\ isInstalled f = true)
  /\
  (forall f, In f (frameworks a) <-> exists k, catalogOf a !! k = Some f)
  /\
  List.NoDup (frameworksNames a).
Proof.
  unfold frameworksNames, frameworks, catalogOf.
  destruct (_frameworks a) as [c |].
  - split; [| split].
    + intros k. rewrite in_map_iff. split.
      * intros ([k' f] & <- & Hin). apply List.filter_In in Hin as [Hin Hact].
        apply list_elem_of_In, elem_of_map_to_list in Hin. exists f. auto.
      * intros (f & Hf & Hact). exists (k, f). split; [reflexivity |].
        apply List.filter_In. split; [| exact Hact].
        apply list_elem_of_In, elem_of_map_to_list. exact Hf.
    + intros f. rewrite in_map_iff. split.
      * intros ([k f'] & <- & Hin).
        apply list_elem_of_In, elem_of_map_to_list in Hin. exists k. exact Hin.
      * intros (k & Hf). exists (k, f). split; [reflexivity |].
        apply list_elem_of_In, elem_of_map_to_list. exact Hf.
    + apply NoDup_map_fst_filter, NoDup_catalogKeys.
  - split; [| split].
    + intros k. simpl. split; [tauto |]. intros (f & Hf & _).
      rewrite lookup_empty in Hf. discriminate.
    + intros f. simpl. split; [tauto |]. intros (k & Hf).
      rewrite lookup_empty in Hf. discriminate.
    + constructor.
Qed.

(** ** Frameworks on disk *)

Lemma isFrameworkFile_total `{host : Host} `{world : World} (dir file : string) (st : St) :
  exists b st',
    isFrameworkFile dir file st = (Ok b, st') /\
    api st' = api st /\
    (b = true -> JsString.endsWith file ".json" = true).
Proof.
  unfold isFrameworkFile, decodeURIComponentM, fs_readFileSync.
  destruct (JsString.endsWith file ".json"); mrun; [| eauto].
  destruct (decodeURIComponent _) as [p |]; mrun; [| eauto].
  destruct (w_readFile _ p) as [text |]; mrun; [| eauto].
  destruct (Js.get _ "controls") as [e | controls]; mrun; eauto.
Qed.

Lemma filterFrameworkFiles_total `{host : Host} `{world : World} (dir : string)
      (files : list string) :
  forall st,
    exists kept st',
      filterFrameworkFiles dir files st = (Ok kept, st') /\
      api st' = api st /\
      forall file, In file kept -> In file files /\ JsString.endsWith file ".json" = true.
Proof.
  induction files as [| file rest IH]; intros st; simpl.
  - exists [], st. split; [reflexivity |]. split; [reflexivity |]. intros f [].
  - destruct (isFrameworkFile_total dir file st) as (b & st1 & Hrun & Hapi & Hb).
    rewrite (bind_eq_Ok _ _ _ _ _ Hrun).
    destruct (IH st1) as (kept & st2 & Hrest & Hapi2 & Hkept).
    rewrite (bind_eq_Ok _ _ _ _ _ Hrest).
    eexists. exists st2. split; [reflexivity |]. split; [congruence |].
    intros f Hin. destruct b.
    + destruct Hin as [<- | Hin]; [split; [left; reflexivity | auto] |].
      destruct (Hkept f Hin). split; [right |]; assumption.
    + destruct (Hkept f Hin). split; [right |]; assumption.
Qed.

(** X16.  [getInstalledFrameworks] tolerates what it finds on disk: once
    the framework directory is set and can be listed, the call resolves,
    whatever the files hold and whether or not they can be read, and it
    leaves the API object alone.  Every framework it gives comes from a
    listed file whose name ends in [.json]: it is not active, its name is
    the text before the first [.json] of the file name in lower case, and
    its location is the expanded path of the file in the directory. *)
Theorem getInstalledFrameworks_tolerant `{host : Host} `{world : World}
        (st : St) (d : string) (files : list string) :
  _frameworkDir (api st) = Some d ->
  d <> EmptyString ->
  w_readdir (trace st) d = Some files ->
  exists fs st',
    getInstalledFrameworks st = (Ok fs, st') /\
    api st' = api st /\
    Forall (fun f =>
              isInstalled f = false /\
              exists file,
                In file files /\
                JsString.endsWith file ".json" = true /\
                name f = toLocaleLowerCase
                           (match JsString.split file ".json" with
                            | stem :: _ => stem
                            | [] => EmptyString
                            end) /\
                location f = JStr (expand (path_join d file))) fs.
Proof.
  intros Hd Hne Hls. apply String.eqb_neq in Hne.
  unfold getInstalledFrameworks, fs_readdir. mrun. rewrite Hd, Hne. mrun. rewrite Hls. mrun.
  match goal with
  | |- context [filterFrameworkFiles d files ?s] =>
      destruct (filterFrameworkFiles_total d files s) as (kept & st2 & Hrun & Hapi & Hkept)
  end.
  rewrite Hrun. eexists. exists st2. split; [reflexivity |]. split; [exact Hapi |].
  apply List.Forall_forall. intros f Hin. apply in_map_iff in Hin as (file & <- & Hin).
  split; [reflexivity |]. exists file. destruct (Hkept file Hin). auto.
Qed.

Lemma getInstalledFrameworks_tolerant_witness :
  exists fs st',
    getInstalledFrameworks (host := Sample.linux) (world := Sample.installed) Sample.cataloged
    = (Ok fs, st') /\
    api st' = api Sample.cataloged /\
    Forall (fun f =>
              isInstalled f = false /\
              exists file,
                In file ["nsa.json"; "notes.txt"] /\
                JsString.endsWith file ".json" = true /\
                name f = toLocaleLowerCase (Host := Sample.linux)
                           (match JsString.split file ".json" with
                            | stem :: _ => stem
                            | [] => EmptyString
                            end) /\
                location f = JStr (expand (host := Sample.linux)
                                          (path_join (Host := Sample.linux) "/opt/ks" file))) fs.
Proof.
  apply (getInstalledFrameworks_tolerant (host := Sample.linux) (world := Sample.installed)
           Sample.cataloged "/opt/ks" ["nsa.json"; "notes.txt"]).
  - reflexivity.
  - discriminate.
  - reflexivity.
Defined.

(** the directory of the samples: one bundle, one file that is none *)
Example getInstalledFrameworks_sample :
  fst (getInstalledFrameworks (host := Sample.linux) (world := Sample.installed)
                              Sample.cataloged)
  = Ok [Sample.nsaOnDisk].
Proof. vm_compute. reflexivity. Qed.

(** ** Control metadata *)

Lemma indexControls_keeps (controls : list JsValue) :
  forall (m : gmap string JsValue) k v,
    m !! k = Some v -> fst (indexControls controls m) !! k = Some v.
Proof.
  induction controls as [| control rest IH]; intros m k v Hk; simpl; [exact Hk |].
  destruct (controlIdOf control) as [e | id]; [exact Hk |].
  destruct id; try (apply IH; exact Hk).
  destruct (m !! s) eqn:Hs; [apply IH; exact Hk |].
  apply IH. rewrite lookup_insert_ne; [exact Hk |]. congruence.
Qed.

Lemma indexControls_origin (controls : list JsValue) :
  forall (m : gmap string JsValue) k v,
    fst (indexControls controls m) !! k = Some v ->
    m !! k = Some v \/
    (m !! k = None /\ In v controls /\ controlIdOf v = inr (JStr k)).
Proof.
  induction controls as [| control rest IH]; intros m k v; simpl; [auto |].
  destruct (controlIdOf control) as [e | id] eqn:Hid; [auto |].
  assert (Hskip : fst (indexControls rest m) !! k = Some v ->
                  m !! k = Some v \/
                  (m !! k = None /\ (control = v \/ In v rest) /\ controlIdOf v = inr (JStr k))).
  { intros H. destruct (IH _ _ _ H) as [? | (? & ? & ?)]; auto. }
  destruct id; try exact Hskip.
  destruct (m !! s) eqn:Hs; [exact Hskip |].
  intros H. destruct (IH _ _ _ H) as [Hin | (Hnone & Hin & Hv)].
  - destruct (decide (s = k)) as [-> | Hne].
    + rewrite lookup_insert_eq in Hin. injection Hin as <-. right. auto.
    + rewrite lookup_insert_ne in Hin by exact Hne. left. exact Hin.
  - destruct (decide (s = k)) as [-> | Hne].
    + rewrite lookup_insert_eq in Hnone. discriminate.
    + rewrite lookup_insert_ne in Hnone by exact Hne. right. auto.
Qed.

Lemma indexControls_first (pre : list JsValue) :
  forall (m : gmap string JsValue) v post k,
    controlIdOf v = inr (JStr k) ->
    m !! k = None ->
    Forall (fun x => exists id, controlIdOf x = inr id /\ id <> JStr k) pre ->
    fst (indexControls (pre ++ v :: post) m) !! k = Some v.
Proof.
  induction pre as [| x pre IH]; intros m v post k Hv Hk Hpre; simpl.
  - rewrite Hv, Hk. apply indexControls_keeps. apply lookup_insert_eq.
  - inversion Hpre as [| ? ? (id & Hid & Hne) Hrest]; subst. rewrite Hid.
    destruct id; try (apply IH; assumption).
    destruct (m !! s) eqn:Hs; [apply IH; assumption |].
    apply IH; [exact Hv | | exact Hrest].
    rewrite lookup_insert_ne; [exact Hk |]. congruence.
Qed.

(** X17.  Indexing the controls of a bundle is first-write-wins on the
    control identifier ([id], or [controlID] when there is no [id]): a
    control the map already holds under an identifier is never replaced;
    whatever the map holds afterwards was there before or is a control of
    the bundle under its own identifier; and of the controls of the bundle
    the first with a new identifier is the one that is kept. *)
Theorem indexControls_first_write_wins (controls : list JsValue) (m : gmap string JsValue) :
  (forall k v, m !! k = Some v -> fst (indexControls controls m) !! k = Some v)
  /\
  (forall k v,
      fst (indexControls controls m) !! k = Some v ->
      m !! k = Some v \/
      (m !! k = None /\ In v controls /\ controlIdOf v = inr (JStr k)))
  /\
  (forall pre v post k,
      controls = pre ++ v :: post ->
      controlIdOf v = inr (JStr k) ->
      m !! k = None ->
      Forall (fun x => exists id, controlIdOf x = inr id /\ id <> JStr k) pre ->
      fst (indexControls controls m) !! k = Some v).
Proof.
  split; [| split].
  - apply indexControls_keeps.
  - apply indexControls_origin.
  - intros pre v post k ->. apply indexControls_first.
Qed.

Lemma indexControls_first_write_wins_witness :
  let first := JObj [("controlID", JStr "C-0001"); ("description", JStr "d")] in
  let second := JObj [("id", JStr "C-0001"); ("description", JStr "other")] in
  fst (indexControls [first; second] ∅) !! "C-0001" = Some first.
Proof.
  intros first second.
  destruct (indexControls_first_write_wins [first; second] ∅) as (_ & _ & Hfirst).
  apply (Hfirst [] first [second] "C-0001").
  - reflexivity.
  - reflexivity.
  - apply lookup_empty.
  - constructor.
Defined.

Lemma indexControls_indexed (controls : list JsValue) (m : gmap string JsValue) :
  indexedById m -> indexedById (fst (indexControls controls m)).
Proof.
  intros Hm k v Hk. destruct (indexControls_origin _ _ _ _ Hk) as [H | (_ & _ & H)];
    [exact (Hm _ _ H) | exact H].
Qed.

Lemma indexControlFile_total `{host : Host} `{world : World} (dir file : string)
      (m : gmap string JsValue) (st : St) :
  indexedById m ->
  exists m' st',
    indexControlFile dir file m st = (Ok m', st') /\ api st' = api st /\ indexedById m'.
Proof.
  intros Hm. unfold indexControlFile, decodeURIComponentM, fs_readFileSync.
  destruct (JsString.endsWith file ".json"); mrun; [| eauto].
  destruct (decodeURIComponent _) as [p |]; mrun; [| eauto].
  destruct (w_readFile _ p) as [text |]; mrun; [| eauto].
  destruct (Js.get _ "controls") as [e | controls]; mrun; [eauto |].
  destruct (Js.truthy controls); [| eauto].
  destruct controls; mrun; eauto.
  eexists. eexists. split; [reflexivity |]. split; [reflexivity |].
  apply indexControls_indexed. exact Hm.
Qed.

Lemma indexControlFiles_total `{host : Host} `{world : World} (dir : string)
      (files : list string) :
  forall (m : gmap string JsValue) (st : St),
    indexedById m ->
    exists m' st',
      indexControlFiles dir files m st = (Ok m', st') /\ api st' = api st /\ indexedById m'.
Proof.
  induction files as [| file rest IH]; intros m st Hm; simpl.
  - exists m, st. auto.
  - destruct (indexControlFile_total dir file m st Hm) as (m1 & st1 & Hrun & Hapi & Hm1).
    rewrite (bind_eq_Ok _ _ _ _ _ Hrun).
    destruct (IH m1 st1 Hm1) as (m2 & st2 & Hrest & Hapi2 & Hm2).
    exists m2, st2. split; [exact Hrest |]. split; [congruence | exact Hm2].
Qed.

(** X18.  Once the framework directory is set and can be listed,
    [getControlsMap] resolves, whatever the files hold and whether or not
    they can be read, and leaves the API object alone; in the map it gives
    every control sits under its own identifier. *)
Theorem getControlsMap_indexed_by_id `{host : Host} `{world : World}
        (st : St) (d : string) (files : list string) :
  _frameworkDir (api st) = Some d ->
  d <> EmptyString ->
  w_readdir (trace st) d = Some files ->
  exists m st',
    getControlsMap st = (Ok m, st') /\ api st' = api st /\ indexedById m.
Proof.
  intros Hd Hne Hls. apply String.eqb_neq in Hne.
  unfold getControlsMap, fs_readdir. mrun. rewrite Hd, Hne. mrun. rewrite Hls. mrun.
  match goal with
  | |- context [indexControlFiles d files ∅ ?s] =>
      destruct (indexControlFiles_total d files ∅ s) as (m & st2 & Hrun & Hapi & Hm)
  end.
  - intros k v Hk. rewrite lookup_empty in Hk. discriminate.
  - exists m, st2. auto.
Qed.

Lemma getControlsMap_indexed_by_id_witness :
  exists m st',
    getControlsMap (host := Sample.linux) (world := Sample.installed) Sample.cataloged
    = (Ok m, st') /\
    api st' = api Sample.cataloged /\ indexedById m.
Proof.
  apply (getControlsMap_indexed_by_id (host := Sample.linux) (world := Sample.installed)
           Sample.cataloged "/opt/ks" ["nsa.json"; "notes.txt"]).
  - reflexivity.
  - discriminate.
  - reflexivity.
Defined.

(** ** Report enrichment *)

Lemma assoc_setField_same (k : string) (v : JsValue) (fields : list (string * JsValue)) :
  Js.assoc k (setField k v fields) = v.
Proof.
  induction fields as [| [k' v'] rest IH]; simpl.
  - rewrite String.eqb_refl. reflexivity.
  - destruct (String.eqb k k') eqn:E; simpl; rewrite E; [reflexivity | exact IH].
Qed.

Lemma assoc_setField_other (k k' : string) (v : JsValue) (fields : list (string * JsValue)) :
  k' <> k -> Js.assoc k' (setField k v fields) = Js.assoc k' fields.
Proof.
  intros Hne. induction fields as [| [k0 v0] rest IH]; simpl.
  - apply String.eqb_neq in Hne. rewrite Hne. reflexivity.
  - destruct (String.eqb k k0) eqn:E; simpl.
    + apply String.eqb_eq in E. subst k0.
      apply String.eqb_neq in Hne. rewrite Hne. reflexivity.
    + destruct (String.eqb k' k0); [reflexivity | exact IH].
Qed.

Lemma enrichControl_enriched (m : gmap string JsValue) (controlId : string)
      (control control' : JsValue) :
  enrichControl m controlId control = inr control' ->
  enriched m (controlId, control) (controlId, control').
Proof.
  unfold enrichControl, enriched. cbn [fst snd]. intros H. split; [reflexivity |].
  destruct (m !! controlId) as [def |]; [| injection H as <-; reflexivity].
  destruct control; simpl in H; try discriminate.
  - injection H as <-. reflexivity.
  - injection H as <-. eexists. split; [reflexivity |]. split; [| split].
    + rewrite assoc_setField_other by discriminate. apply assoc_setField_same.
    + apply assoc_setField_same.
    + intros k Hd Hr. rewrite !assoc_setField_other by assumption. reflexivity.
Qed.

(** X19.  The enrichment of the control summary of a report, when it goes
    through, keeps the entries, their identifiers and their order.  An
    entry whose identifier the controls map does not know is left as it
    is; on an entry it knows, [description] and [remediation] become those
    of the map's control ([undefined] where that control has none) and
    every other member of the entry is left as it is. *)
Theorem enrichControls_entries (m : gmap string JsValue)
        (entries entries' : list (string * JsValue)) :
  enrichControls m entries = inr entries' ->
  Forall2 (enriched m) entries entries'.
Proof.
  revert entries'. induction entries as [| [controlId control] rest IH]; intros entries'; simpl.
  - intros H. injection H as <-. constructor.
  - destruct (enrichControl m controlId control) as [e | control'] eqn:Hc; [discriminate |].
    destruct (enrichControls m rest) as [e | rest']; [discriminate |].
    intros H. injection H as <-. constructor.
    + apply enrichControl_enriched. exact Hc.
    + apply IH. reflexivity.
Qed.

Lemma enrichControls_entries_witness :
  Forall2 (enriched {["C-0001" := JObj [("controlID", JStr "C-0001"); ("description", JStr "d")]]})
          [("C-0001", JObj [("status", JStr "failed")]); ("C-0002", JObj [])]
          [("C-0001", JObj [("status", JStr "failed"); ("description", JStr "d");
                            ("remediation", JUndefined)]);
           ("C-0002", JObj [])].
Proof.
  apply (enrichControls_entries
           {["C-0001" := JObj [("controlID", JStr "C-0001"); ("description", JStr "d")]]}
           [("C-0001", JObj [("status", JStr "failed")]); ("C-0002", JObj [])]).
  vm_compute. reflexivity.
Defined.

(** X20.  A report that parses to a truthy value and lacks the control
    summary ([summaryDetails.controls]) makes the enrichment throw a
    TypeError inside the callback of [cp.exec]: the scan never settles, be
    the exit status of the subprocess what it may. *)
Theorem scanCallback_report_without_summary `{host : Host} `{world : World}
        (file : string) (r : ExecResult) (st : St) (text : string) (report : JsValue) :
  (forall tr, w_readFile tr file = Some text) ->
  JSON_parse text = Some report ->
  Js.truthy report = true ->
  hasNoControlSummary report ->
  exists e, fst (scanCallback file r st) = Uncaught e.
Proof.
  intros Hread Hparse Htruthy Hnone.
  assert (Hgo : forall s, exists e,
               fst (inCallback (appendControlsInformationToV2Report report) s) = Uncaught e).
  { intros s. unfold appendControlsInformationToV2Report, inCallback, bind.
    destruct (getControlsMap s) as [[m | e | e] s1]; [| eauto | eauto].
    unfold hasNoControlSummary in Hnone.
    destruct (Js.get report "summaryDetails") as [e | sd]; mrun; [eauto |].
    specialize (Hnone sd eq_refl).
    destruct (Js.get sd "controls") as [e | controls]; mrun; [eauto |].
    destruct controls; try contradiction; destruct report; destruct sd; mrun; eauto. }
  unfold scanCallback, fs_readFileSync.
  destruct (exec_err r); mrun; rewrite Hread; mrun; rewrite Hparse; mrun;
    rewrite Htruthy; mrun.
  - match goal with
    | |- context [appendControlsInformationToV2Report report ?s] =>
        destruct (Hgo s) as [e He]
    end.
    unfold inCallback in He.
    destruct (appendControlsInformationToV2Report report _) as [[v | e' | e'] s1];
      simpl in *; eauto; discriminate.
  - match goal with
    | |- context [appendControlsInformationToV2Report report ?s] =>
        destruct (Hgo s) as [e He]
    end.
    unfold inCallback in He.
    destruct (appendControlsInformationToV2Report report _) as [[v | e' | e'] s1];
      simpl in *; eauto; discriminate.
Qed.

Lemma scanCallback_report_without_summary_witness :
  exists e,
    fst (scanCallback (host := Sample.linux) (world := Sample.installed)
                      "/tmp/ks-1/report-0000.json" (mkExec false EmptyString EmptyString 0)
                      Sample.ready)
    = Uncaught e.
Proof.
  apply (scanCallback_report_without_summary (host := Sample.linux) (world := Sample.installed)
           "/tmp/ks-1/report-0000.json" (mkExec false EmptyString EmptyString 0) Sample.ready
           Sample.bundleText Sample.bundleValue).
  - reflexivity.
  - reflexivity.
  - reflexivity.
  - intros sd H. injection H as <-. exact I.
Defined.

(** ** Scans: what they leave alone, and the temporary directory *)

Lemma preserves_finally {A} (fn : M A) (cleanup : M unit) :
  preservesApi fn -> preservesApi cleanup -> preservesApi (finally fn cleanup).
Proof.
  intros Hf Hc st. unfold finally. specialize (Hf st).
  destruct (fn st) as [[a | e | e] st1]; simpl in *; try exact Hf.
  - specialize (Hc st1). unfold bind. destruct (cleanup st1) as [[[] | e | e] st2];
      simpl in *; congruence.
  - specialize (Hc st1). unfold bind. destruct (cleanup st1) as [[[] | e' | e'] st2];
      simpl in *; congruence.
Qed.

(** the closure steps for code that reads [this] and never writes it *)
Ltac untouched :=
  repeat
    match goal with
    | |- forall _, _ => intro
    | |- preservesApi (bind _ _) => apply preserves_bind
    | |- preservesApi (ret _) => apply preserves_ret
    | |- preservesApi (throw _) => apply preserves_throw
    | |- preservesApi (never _) => apply preserves_never
    | |- preservesApi (emit _) => apply preserves_emit
    | |- preservesApi getApi => apply preserves_getApi
    | |- preservesApi (request _ _) => apply preserves_request
    | |- preservesApi (liftE _) => apply preserves_liftE
    | |- preservesApi (inCallback _) => apply preserves_inCallback
    | |- preservesApi (tryCatch _ _) => apply preserves_tryCatch
    | |- preservesApi (finally _ _) => apply preserves_finally
    | |- preservesApi (match ?x with _ => _ end) => destruct x
    | |- preservesApi (if ?x then _ else _) => destruct x
    | |- preservesApi _ =>
        progress unfold ui_info, ui_error, ui_debug, ui_progress, ui_slow, progress, exec,
          fs_mkdir, fs_access, fs_chmod, fs_readdir, fs_readFileSync, fs_realpath, fs_mkdtemp,
          uuidv4, decodeURIComponentM, get_path, get_directory, get_version,
          get_frameworkDirectory, compareVersionsM, _buildKubescapeCommand, _buildScanCommand,
          withTempFile, withTempDir
    end.

Lemma preserves_indexControlFiles `{host : Host} `{world : World} (dir : string)
      (files : list string) :
  forall m, preservesApi (indexControlFiles dir files m).
Proof.
  induction files as [| file rest IH]; intros m; simpl; [untouched |].
  apply preserves_bind; [| intros m'; apply IH].
  unfold indexControlFile. untouched.
Qed.

Lemma preserves_scanCallback `{host : Host} `{world : World} (file : string) (r : ExecResult) :
  preservesApi (scanCallback file r).
Proof.
  unfold scanCallback, appendControlsInformationToV2Report, getControlsMap.
  repeat first [ apply preserves_indexControlFiles | progress untouched ].
Qed.

(** X21.  A scan reads the API object and never writes it: after
    [scanYaml] and after [scanCluster], however they end, the object is
    what it was.  And a scan works offline: neither adds a network request
    to the trace. *)
Theorem scans_read_only_and_offline `{host : Host} `{world : World} :
  (forall filePath overrideArgs,
      preservesApi (scanYaml filePath overrideArgs) /\
      addsNo isNetworkEvent (scanYaml filePath overrideArgs))
  /\
  (forall context kubeconfigPath overrideArgs,
      preservesApi (scanCluster context kubeconfigPath overrideArgs) /\
      addsNo isNetworkEvent (scanCluster context kubeconfigPath overrideArgs)).
Proof.
  split.
  - intros filePath overrideArgs. split.
    + unfold scanYaml.
      repeat first [ apply preserves_scanCallback | progress untouched ].
    + apply addsNo_scanYaml. auto.
  - intros context kubeconfigPath overrideArgs. split.
    + unfold scanCluster.
      repeat first [ apply preserves_scanCallback | progress untouched ].
    + apply addsNo_scanCluster. auto.
Qed.

Lemma withTempFile_settled `{host : Host} `{world : World} {A} (filename : string)
      (fn : string -> M A) (st : St) (tmp dir : string) :
  w_realpath (trace st) os_tmpdir = Some tmp ->
  w_mkdtemp (trace st ++ [EvRealpath os_tmpdir (Some tmp)]) (tmp +:+ path_sep) = Some dir ->
  (forall e, fst (withTempFile filename fn st) <> Uncaught e) ->
  exists tr, trace (snd (withTempFile filename fn st)) = tr ++ [EvRm dir].
Proof.
  intros Htmp Hdir. unfold withTempFile, withTempDir, fs_realpath, fs_mkdtemp. mrun.
  rewrite Htmp. mrun. rewrite Hdir. mrun. unfold finally.
  destruct (fn (path_join dir filename) _) as [[a | e | e] st1]; mrun; cbn [fst snd trace].
  - intros _. eauto.
  - intros _. eauto.
  - intros H. exfalso. exact (H e eq_refl).
Qed.

(** X22.  The temporary directory of a scan is removed whenever the scan
    settles: once the directory was made, a [scanYaml] or [scanCluster]
    that resolves or rejects ends with the removal of that very directory.
    (When the callback of the subprocess faults, the scan does not settle
    and the directory stays.) *)
Theorem scan_settled_removes_temp_dir `{host : Host} `{world : World}
        (st : St) (tmp dir : string) :
  let tr1 := trace st ++ [EvUuid (w_uuid (trace st))] in
  w_realpath tr1 os_tmpdir = Some tmp ->
  w_mkdtemp (tr1 ++ [EvRealpath os_tmpdir (Some tmp)]) (tmp +:+ path_sep) = Some dir ->
  (forall filePath overrideArgs,
      (forall e, fst (scanYaml filePath overrideArgs st) <> Uncaught e) ->
      exists tr, trace (snd (scanYaml filePath overrideArgs st)) = tr ++ [EvRm dir])
  /\
  (forall context kubeconfigPath overrideArgs,
      (forall e, fst (scanCluster context kubeconfigPath overrideArgs st) <> Uncaught e) ->
      exists tr,
        trace (snd (scanCluster context kubeconfigPath overrideArgs st)) = tr ++ [EvRm dir]).
Proof.
  intros tr1 Htmp Hdir. subst tr1. split.
  - intros filePath overrideArgs. unfold scanYaml, uuidv4. mstep.
    apply (withTempFile_settled _ _ (mkSt (api st) (trace st ++ [EvUuid (w_uuid (trace st))]))
             tmp dir Htmp Hdir).
  - intros context kubeconfigPath overrideArgs. unfold scanCluster, uuidv4. mstep.
    apply (withTempFile_settled _ _ (mkSt (api st) (trace st ++ [EvUuid (w_uuid (trace st))]))
             tmp dir Htmp Hdir).
Qed.

Lemma scan_settled_removes_temp_dir_witness :
  exists tr,
    trace (snd (scanYaml (host := Sample.linux) (world := Sample.lateFailure)
                         "/work/pod.yaml" None Sample.ready))
    = tr ++ [EvRm "/tmp/ks-1"].
Proof.
  destruct (scan_settled_removes_temp_dir (host := Sample.linux) (world := Sample.lateFailure)
              Sample.ready "/tmp" "/tmp/ks-1" eq_refl eq_refl) as [Hyaml _].
  apply Hyaml. intros e. vm_compute. discriminate.
Defined.

(** ** The scans of the earlier variant *)




(** ** Arguments of a scan *)

Lemma argOf_assignArg_same (k : string) (v : ArgValue) (args : list (string * ArgValue)) :
  argOf k (assignArg k v args) = Some v.
Proof.
  induction args as [| [k' v'] rest IH]; simpl.
  - rewrite String.eqb_refl. reflexivity.
  - destruct (String.eqb k k') eqn:E; simpl; rewrite E; [reflexivity | exact IH].
Qed.

Lemma argOf_assignArg_other (k k' : string) (v : ArgValue) (args : list (string * ArgValue)) :
  k' <> k -> argOf k' (assignArg k v args) = argOf k' args.
Proof.
  intros Hne. induction args as [| [k0 v0] rest IH]; simpl.
  - apply String.eqb_neq in Hne. rewrite Hne. reflexivity.
  - destruct (String.eqb k k0) eqn:E; simpl.
    + apply String.eqb_eq in E. subst k0.
      apply String.eqb_neq in Hne. rewrite Hne. reflexivity.
    + destruct (String.eqb k' k0); [reflexivity | exact IH].
Qed.

Lemma argOf_app (k : string) (a b : list (string * ArgValue)) :
  argOf k (a ++ b) = match argOf k a with
                     | Some v => Some v
                     | None => argOf k b
                     end.
Proof.
  induction a as [| [k' v'] rest IH]; simpl; [reflexivity |].
  destruct (String.eqb k k'); [reflexivity | exact IH].
Qed.

Lemma keys_assignArg (k : string) (v : ArgValue) (args : list (string * ArgValue)) :
  exists extra, List.map fst (assignArg k v args) = List.map fst args ++ extra.
Proof.
  induction args as [| [k' v'] rest IH]; simpl.
  - exists [k]. reflexivity.
  - destruct (String.eqb k k'); simpl.
    + exists []. rewrite app_nil_r. reflexivity.
    + destruct IH as [extra ->]. exists extra. reflexivity.
Qed.

(** [Object.assign(args, overrideArgs)] as the scans use it: for
    every flag the value is the one of the last override of that flag, and
    the default when no override names it; the defaults keep their places
    in the argument object, and so in the command line, and new flags go
    after them. *)
Theorem objectAssign_override_wins (args overrideArgs : list (string * ArgValue)) :
  (forall k,
      argOf k (objectAssign args overrideArgs)
      = match argOf k (rev overrideArgs) with
        | Some v => Some v
        | None => argOf k args
        end)
  /\
  exists extra,
    List.map fst (objectAssign args overrideArgs) = List.map fst args ++ extra.
Proof.
  unfold objectAssign. revert args.
  induction overrideArgs as [| [k0 v0] rest IH]; intros args; simpl.
  - split; [reflexivity |]. exists []. rewrite app_nil_r. reflexivity.
  - destruct (IH (assignArg k0 v0 args)) as [Hval [extra Hkeys]]. split.
    + intros k. rewrite Hval, argOf_app. simpl.
      destruct (argOf k (rev rest)); [reflexivity |].
      destruct (String.eqb k k0) eqn:E.
      * apply String.eqb_eq in E. subst k0. apply argOf_assignArg_same.
      * apply String.eqb_neq in E. apply argOf_assignArg_other. exact E.
    + destruct (keys_assignArg k0 v0 args) as [extra0 Hk0].
      exists (extra0 ++ extra). rewrite Hkeys, Hk0, app_assoc. reflexivity.
Qed.

(** ** Frameworks the backend offers *)

Lemma filterUninstalled_kept `{host : Host} (catalog : option (gmap string KubescapeFramework))
      (result kept : list string) :
  filterUninstalled catalog result = inr kept ->
  forall n, In n kept ->
            In n result /\
            exists c, catalog = Some c /\ hasProperty c (toLocaleLowerCase n) = false.
Proof.
  revert kept. induction result as [| framework rest IH]; intros kept; simpl.
  - intros H. injection H as <-. intros n [].
  - destruct catalog as [c |]; [| discriminate].
    destruct (filterUninstalled (Some c) rest) as [e | kept0]; [discriminate |].
    intros H. injection H as <-. intros n Hin.
    destruct (hasProperty c (toLocaleLowerCase framework)) eqn:Hp.
    + destruct (IH kept0 eq_refl n Hin) as [Hr Hc]. split; [right; exact Hr | exact Hc].
    + destruct Hin as [<- | Hin].
      * split; [left; reflexivity | eauto].
      * destruct (IH kept0 eq_refl n Hin) as [Hr Hc]. split; [right; exact Hr | exact Hc].
Qed.

(** X24.  [getUninstalledFramework] never lists a framework the catalog
    holds: every name it resolves with comes from a line [* <name>] of the
    listing, without the bullet and without trailing blanks, and its lower
    case is neither a key of the catalog nor a member every object
    inherits.  The API object is left alone.  When the listing subcommand
    fails, the error is thrown inside the callback of [cp.exec] and the
    promise never settles. *)
Theorem getUninstalledFramework_lists_uncataloged `{host : Host} `{world : World} (st : St) :
  (forall l st',
      getUninstalledFramework st = (Ok l, st') ->
      api st' = api st /\
      forall n, In n l ->
                catalogOf (api st) !! toLocaleLowerCase n = None /\
                isPrototypeKey (toLocaleLowerCase n) = false /\
                exists p line,
                  _path (api st) = Some p /\
                  In line (Regex.starLines
                             (exec_stdout
                                (w_exec (trace st)
                                        (dq +:+ fullPath p +:+ dq +:+ " "
                                         +:+ COMMAND_LIST_FRAMEWORKS)
                                        noExecOptions))) /\
                  n = JsString.trimEnd (JsString.replace line "* " EmptyString))
  /\
  (forall p,
      _path (api st) = Some p ->
      let cmd := dq +:+ fullPath p +:+ dq +:+ " " +:+ COMMAND_LIST_FRAMEWORKS in
      let r := w_exec (trace st) cmd noExecOptions in
      exec_err r = true ->
      getUninstalledFramework st
      = (Uncaught (JsErr (exec_stderr r)),
         mkSt (api st) (trace st ++ [EvExec cmd noExecOptions r]))).
Proof.
  split.
  - intros l st'. unfold getUninstalledFramework, _buildKubescapeCommand. mrun.
    destruct (_path (api st)) as [p |] eqn:Hp; mrun; [| discriminate].
    destruct (exec_err _); mrun; [discriminate |].
    destruct (filterUninstalled _ _) as [e | kept] eqn:Hf; mrun; [discriminate |].
    intros H. injection H as <- <-. split; [reflexivity |].
    intros n Hin.
    destruct (filterUninstalled_kept _ _ _ Hf n Hin) as [Hres (c & Hc & Hprop)].
    apply hasProperty_false in Hprop as [Hnone Hproto].
    unfold catalogOf. rewrite Hc. split; [exact Hnone |]. split; [exact Hproto |].
    apply in_map_iff in Hres as (line & Hline & Hin').
    exists p, line. split; [reflexivity |]. split; [exact Hin' | symmetry; exact Hline].
  - intros p Hp cmd r Herr. subst cmd r.
    unfold getUninstalledFramework, _buildKubescapeCommand. mrun. rewrite Hp. mrun.
    rewrite Herr. reflexivity.
Qed.

Lemma getUninstalledFramework_lists_uncataloged_witness :
  api (snd (getUninstalledFramework (host := Sample.linux) (world := Sample.listing)
                                    Sample.ready)) = api Sample.ready
  /\
  fst (getUninstalledFramework (host := Sample.linux) (world := Sample.failing) Sample.ready)
  = Uncaught (JsErr "cluster unreachable").
Proof.
  destruct (getUninstalledFramework_lists_uncataloged (host := Sample.linux)
              (world := Sample.listing) Sample.ready) as [Hlist _].
  destruct (getUninstalledFramework_lists_uncataloged (host := Sample.linux)
              (world := Sample.failing) Sample.ready) as [_ Hfail].
  split.
  - apply (Hlist ["MITRE"]
                 (snd (getUninstalledFramework (host := Sample.linux) (world := Sample.listing)
                                               Sample.ready))).
    vm_compute. reflexivity.
  - rewrite (Hfail (mkPath "/opt/ks/kubescape" "/opt/ks") eq_refl eq_refl). reflexivity.
Defined.

(** the listing of the samples: [NSA] is cataloged, the last line has no
    line feed after it and is not matched *)
Example getUninstalledFramework_sample :
  Regex.starLines Sample.listingText = ["* NSA  " +:+ nl; "* MITRE" +:+ nl]
  /\
  fst (getUninstalledFramework (host := Sample.linux) (world := Sample.listing) Sample.ready)
  = Ok ["MITRE"].
Proof. split; vm_compute; reflexivity. Qed.

(** ** The catalog is keyed by name *)

Section Keeps.
Variable I : KubescapeApi -> Prop.

Lemma keeps_bind {A B} (Q1 : A -> Prop) (Q2 : B -> Prop) (m : M A) (k : A -> M B) :
  keeps I Q1 m -> (forall a, Q1 a -> keeps I Q2 (k a)) -> keeps I Q2 (bind m k).
Proof.
  intros Hm Hk st HI. unfold bind. destruct (Hm st HI) as [HI1 HQ1].
  destruct (m st) as [[a | e | e] st1]; simpl in *.
  - apply (Hk a (HQ1 a eq_refl) st1 HI1).
  - split; [exact HI1 | discriminate].
  - split; [exact HI1 | discriminate].
Qed.

Lemma keeps_weaken {A} (Q Q' : A -> Prop) (m : M A) :
  (forall a, Q a -> Q' a) -> keeps I Q m -> keeps I Q' m.
Proof.
  intros HQ Hm st HI. destruct (Hm st HI) as [HI1 HQ1]. split; [exact HI1 |].
  intros a Ha. apply HQ, HQ1, Ha.
Qed.

Lemma keeps_reads {A} (Q : A -> Prop) (m : M A) :
  preservesApi m -> returns Q m -> keeps I Q m.
Proof.
  intros Hp Hr st HI. split; [rewrite Hp; exact HI | apply Hr].
Qed.

Lemma keeps_getApi : keeps I I getApi.
Proof. intros st HI. split; [exact HI |]. intros a H. injection H as <-. exact HI. Qed.

Lemma keeps_modifyApi (f : KubescapeApi -> KubescapeApi) :
  (forall a, I a -> I (f a)) -> keeps I (fun _ => True) (modifyApi f).
Proof. intros Hf st HI. split; [apply Hf; exact HI | auto]. Qed.

Lemma keeps_tryCatch {A} (Q : A -> Prop) (m : M A) (handler : JsError -> M A) :
  keeps I Q m -> (forall e, keeps I Q (handler e)) -> keeps I Q (tryCatch m handler).
Proof.
  intros Hm Hh st HI. unfold tryCatch. destruct (Hm st HI) as [HI1 HQ1].
  destruct (m st) as [[a | e | e] st1]; simpl in *.
  - split; [exact HI1 | exact HQ1].
  - apply (Hh e st1 HI1).
  - split; [exact HI1 | discriminate].
Qed.

Lemma keeps_forEach {A} (l : list A) (body : A -> M unit) :
  (forall x, keeps I (fun _ => True) (body x)) -> keeps I (fun _ => True) (forEach l body).
Proof.
  intros Hb. induction l as [| x l IH]; simpl.
  - intros st HI. split; [exact HI | auto].
  - apply (keeps_bind (fun _ => True)); [apply Hb | intros _ _; exact IH].
Qed.

End Keeps.

Lemma returns_any {A} (m : M A) : returns (fun _ => True) m.
Proof. intros st a _. exact Logic.I. Qed.

(** *** The names the parsers give *)

Lemma frameworkOfInfo_lower `{host : Host} (info : JsValue) (f : KubescapeFramework) :
  frameworkOfInfo info = inr f -> lowerNamed f.
Proof.
  unfold frameworkOfInfo.
  destruct (Js.get info "name") as [e | n]; [discriminate |].
  destruct n; try discriminate.
  destruct (Js.get info "path") as [e | p]; [discriminate |].
  intros H. injection H as <-. eexists. reflexivity.
Qed.

Lemma resolveKubescapeFramework_lower `{host : Host} (line : string) (f : KubescapeFramework) :
  resolveKubescapeFramework line = inr f -> lowerNamed f.
Proof.
  unfold resolveKubescapeFramework.
  destruct (JsString.split line ":" !! 1%nat); [| discriminate].
  destruct (JsString.split line ":" !! 2%nat); [| discriminate].
  intros H. injection H as <-. eexists. reflexivity.
Qed.

Lemma resolveKubescapeFrameworks_lower `{host : Host} (lines : list string) :
  forall fs, resolveKubescapeFrameworks lines = inr fs -> Forall lowerNamed fs.
Proof.
  induction lines as [| line rest IH]; intros fs; simpl.
  - intros H. injection H as <-. constructor.
  - destruct (resolveKubescapeFramework line) as [e | f] eqn:Hf; [discriminate |].
    destruct (resolveKubescapeFrameworks rest) as [e | fs0]; [discriminate |].
    intros H. injection H as <-. constructor.
    + exact (resolveKubescapeFramework_lower _ _ Hf).
    + apply IH. reflexivity.
Qed.

Lemma collectFrameworkLines_lower `{host : Host} (lines : list string) :
  forall acc fs,
    Forall lowerNamed acc ->
    collectFrameworkLines lines acc = inr fs -> Forall lowerNamed fs.
Proof.
  induction lines as [| line rest IH]; intros acc fs Hacc; simpl.
  - intros H. injection H as <-. exact Hacc.
  - destruct (Js.get (toJson line) "artifact") as [e | artifact]; [discriminate |].
    destruct (Js.looseEqString artifact "framework"); [| apply IH; exact Hacc].
    destruct (frameworkOfInfo (toJson line)) as [e | f] eqn:Hf; [discriminate |].
    apply IH. apply Forall_app. split; [exact Hacc |].
    constructor; [exact (frameworkOfInfo_lower _ _ Hf) | constructor].
Qed.

Lemma insertBy_In {A} (key : A -> nat) (x y : A) (l : list A) :
  In y (insertBy key x l) -> y = x \/ In y l.
Proof.
  induction l as [| z l IH]; simpl.
  - intros [<- | []]. left. reflexivity.
  - destruct (key x <=? key z)%nat; simpl.
    + intros [<- | H]; [left; reflexivity | right; exact H].
    + intros [<- | H]; [right; left; reflexivity |].
      destruct (IH H) as [-> | Hin]; [left; reflexivity | right; right; exact Hin].
Qed.

Lemma sortBy_In {A} (key : A -> nat) (y : A) (l : list A) :
  In y (sortBy key l) -> In y l.
Proof.
  induction l as [| x l IH]; simpl; [tauto |].
  intros H. apply insertBy_In in H as [-> | H]; [left; reflexivity | right; exact (IH H)].
Qed.

Lemma parsedDownload_lower `{host : Host} (a : KubescapeApi) (d : Download)
      (f : KubescapeFramework) :
  parsedDownload a d = inr f -> lowerNamed f.
Proof.
  unfold parsedDownload, parseDownload, get_version, compareVersionsM. mrun.
  destruct (_versionInfo a) as [vi |]; mrun; [| discriminate].
  destruct (Semver.compareVersions (version vi) FORMAT_THRESHOLD) as [c |]; mrun;
    [| discriminate].
  destruct (0 <=? c).
  - destruct (frameworkOfInfo _) as [e | f0] eqn:Hf; cbn; [discriminate |].
    intros H. injection H as <-. exact (frameworkOfInfo_lower _ _ Hf).
  - destruct (resolveKubescapeFramework _) as [e | f0] eqn:Hf; cbn; [discriminate |].
    intros H. injection H as <-. exact (resolveKubescapeFramework_lower _ _ Hf).
Qed.

Lemma downloadCallback_lower `{host : Host} (d : Download) (st : St)
      (f : KubescapeFramework) :
  fst (downloadCallback d st) = Ok (Resolved f) -> lowerNamed f.
Proof.
  rewrite downloadCallback_run. unfold endsOn. cbn [fst].
  destruct (exec_err _); destruct (parsedDownload _ d) as [e | f0] eqn:Hp;
    try discriminate.
  intros H. injection H as <-. exact (parsedDownload_lower _ _ _ Hp).
Qed.

Lemma settleDownloads_lower `{host : Host} (finished : list Download) :
  forall pending st fs,
    fst (settleDownloads finished pending st) = Ok fs ->
    Forall (fun x => lowerNamed (snd x)) fs.
Proof.
  induction finished as [| d rest IH]; intros pending st fs; simpl.
  - destruct pending; [discriminate |]. intros H. injection H as <-. constructor.
  - mrun.
    destruct (downloadCallback d _) as [[s | e | e] st1] eqn:Hcb; try discriminate.
    destruct s as [f | reason escaped | e]; mrun; [| discriminate |].
    + destruct (settleDownloads rest pending st1) as [[fs0 | e | e] st2] eqn:Hrest;
        try discriminate.
      cbn. intros H. injection H as <-. constructor.
      * cbn. eapply downloadCallback_lower. rewrite Hcb. reflexivity.
      * eapply IH. rewrite Hrest. reflexivity.
    + apply IH.
Qed.

Lemma downloadMissingFrameworks_lower `{host : Host} `{world : World}
      (frameworks : list string) :
  returns (Forall lowerNamed) (downloadMissingFrameworks frameworks).
Proof.
  intros st fs. unfold downloadMissingFrameworks, bind.
  destruct (launchDownloads 0 frameworks st) as [[ds | e | e] st1]; try discriminate.
  destruct (firstRejected ds); [discriminate |].
  destruct (settleDownloads _ None st1) as [[fs0 | e | e] st2] eqn:Hs; try discriminate.
  cbn. intros H. injection H as <-.
  assert (Hfs : Forall (fun x => lowerNamed (snd x)) fs0)
    by (eapply settleDownloads_lower; rewrite Hs; reflexivity).
  apply List.Forall_forall. intros f Hin.
  apply in_map_iff in Hin as (x & <- & Hin). apply sortBy_In in Hin.
  rewrite List.Forall_forall in Hfs. exact (Hfs x Hin).
Qed.

Lemma downloadAllFrameworks_lower `{host : Host} `{world : World} :
  returns (Forall lowerNamed) downloadAllFrameworks.
Proof.
  intros st fs. unfold downloadAllFrameworks, downloadAllCallback, compareVersionsM,
    _buildKubescapeCommand.
  mrun.
  destruct (_frameworkDir (api st)) as [d |]; mrun; [| discriminate].
  destruct (String.eqb d EmptyString); mrun; [discriminate |].
  destruct (_path (api st)) as [p |]; mrun; [| discriminate].
  destruct (_versionInfo (api st)) as [vi |] eqn:Hvi; mrun; [| discriminate].
  destruct (exec_err _); mrun; [discriminate |]. rewrite Hvi. mrun.
  destruct (Semver.compareVersions (version vi) FORMAT_THRESHOLD) as [c |]; mrun;
    [| discriminate].
  destruct ((0 <=? c) || _).
  - destruct (collectFrameworkLines _ []) as [e | fs0] eqn:Hc; mrun; [discriminate |].
    cbn. intros H. injection H as <-.
    eapply collectFrameworkLines_lower; [| exact Hc]. constructor.
  - destruct (resolveKubescapeFrameworks _) as [e | fs0] eqn:Hr; mrun; [discriminate |].
    cbn. intros H. injection H as <-.
    exact (resolveKubescapeFrameworks_lower _ _ Hr).
Qed.

Lemma preserves_downloadAllFrameworks `{host : Host} `{world : World} :
  preservesApi downloadAllFrameworks.
Proof. unfold downloadAllFrameworks, downloadAllCallback. untouched. Qed.

Lemma preserves_filterFrameworkFiles `{host : Host} `{world : World} (dir : string)
      (files : list string) :
  preservesApi (filterFrameworkFiles dir files).
Proof.
  induction files as [| file rest IH]; simpl; [untouched |].
  apply preserves_bind; [unfold isFrameworkFile; untouched |].
  intros keep. apply preserves_bind; [exact IH | untouched].
Qed.

Lemma preserves_getInstalledFrameworks `{host : Host} `{world : World} :
  preservesApi getInstalledFrameworks.
Proof.
  unfold getInstalledFrameworks.
  repeat first [ apply preserves_filterFrameworkFiles | progress untouched ].
Qed.

Lemma getInstalledFrameworks_lower `{host : Host} `{world : World} :
  returns (Forall lowerNamed) getInstalledFrameworks.
Proof.
  intros st fs. unfold getInstalledFrameworks, bind.
  destruct (get_frameworkDirectory st) as [[d | e | e] st1]; try discriminate.
  destruct (fs_readdir d st1) as [[files | e | e] st2]; try discriminate.
  destruct (filterFrameworkFiles d files st2) as [[kept | e | e] st3]; try discriminate.
  cbn. intros H. injection H as <-.
  apply List.Forall_forall. intros f Hin. apply in_map_iff in Hin as (file & <- & _).
  eexists. reflexivity.
Qed.

(** *** The steps that write the catalog *)

Lemma keyedByName_set_frameworks `{host : Host} (c : gmap string KubescapeFramework)
      (a : KubescapeApi) :
  (forall k f, c !! k = Some f -> name f = k /\ lowerNamed f) ->
  keyedByName (set_frameworks c a).
Proof. intros H. exact H. Qed.

Lemma keyedByName_mark `{host : Host} (a a' : KubescapeApi)
      (c : gmap string KubescapeFramework) (n : string) (f : KubescapeFramework) :
  keyedByName a -> _frameworks a = Some c -> c !! n = Some f ->
  keyedByName (set_frameworks (<[n := markInstalled f]> c) a').
Proof.
  intros Ha Hc Hn k g. unfold catalogOf. cbn.
  assert (Hcat : catalogOf a = c) by (unfold catalogOf; rewrite Hc; reflexivity).
  destruct (decide (n = k)) as [-> | Hne].
  - rewrite lookup_insert_eq. intros H. injection H as <-.
    destruct (Ha k f) as [Hname Hlow]; [rewrite Hcat; exact Hn |].
    split; [exact Hname | exact Hlow].
  - rewrite lookup_insert_ne by exact Hne. intros H.
    apply Ha. rewrite Hcat. exact H.
Qed.

Lemma appendToFrameworks_keyed `{host : Host} (from : list KubescapeFramework) :
  forall c : gmap string KubescapeFramework,
    (forall k f, c !! k = Some f -> name f = k /\ lowerNamed f) ->
    Forall lowerNamed from ->
    forall k f, appendToFrameworks c from !! k = Some f -> name f = k /\ lowerNamed f.
Proof.
  induction from as [| framework rest IH]; intros c Hc Hfrom; simpl; [exact Hc |].
  inversion Hfrom as [| ? ? Hlow Hrest]; subst.
  destruct (hasProperty c (name framework)); simpl; [apply IH; assumption |].
  apply IH; [| exact Hrest].
  intros k f. destruct (decide (name framework = k)) as [<- | Hne].
  - rewrite lookup_insert_eq. intros H. injection H as <-. auto.
  - rewrite lookup_insert_ne by exact Hne. apply Hc.
Qed.

Lemma keeps_appendToCatalog `{host : Host} (from : list KubescapeFramework) :
  Forall lowerNamed from -> keeps keyedByName (fun _ => True) (appendToCatalog from).
Proof.
  intros Hfrom. apply keeps_modifyApi. intros a Ha.
  destruct (_frameworks a) as [c |] eqn:Hc; [| exact Ha].
  apply keyedByName_set_frameworks. apply appendToFrameworks_keyed; [| exact Hfrom].
  intros k f Hk. apply Ha. unfold catalogOf. rewrite Hc. exact Hk.
Qed.

Lemma keeps_collectMissing `{host : Host} (frameworks : list string) :
  forall acc, keeps keyedByName (fun _ => True) (collectMissing frameworks acc).
Proof.
  induction frameworks as [| framework rest IH]; intros acc; simpl.
  - intros st HI. split; [exact HI | auto].
  - apply (keeps_bind _ keyedByName); [apply keeps_getApi |]. intros a Ha.
    destruct (_frameworks a) as [c |] eqn:Hc; [| apply IH].
    unfold getProperty. destruct (c !! framework) as [f |] eqn:Hf.
    + apply (keeps_bind _ (fun _ => True)); [| intros _ _; apply IH].
      apply keeps_modifyApi. intros a' _. exact (keyedByName_mark a a' c framework f Ha Hc Hf).
    + destruct (isPrototypeKey framework); apply IH.
Qed.

Lemma keeps_activate `{host : Host} (frameworkName : string) :
  keeps keyedByName (fun _ => True) (activate frameworkName).
Proof.
  unfold activate.
  apply (keeps_bind _ keyedByName); [apply keeps_getApi |]. intros a Ha.
  destruct (_frameworks a) as [c |] eqn:Hc;
    [| apply keeps_reads; [apply preserves_throw | apply returns_any]].
  unfold getProperty. destruct (c !! frameworkName) as [f |] eqn:Hf.
  - apply keeps_modifyApi. intros a' _. exact (keyedByName_mark a a' c frameworkName f Ha Hc Hf).
  - destruct (isPrototypeKey frameworkName);
      apply keeps_reads; first [apply preserves_ret | apply preserves_throw | apply returns_any].
Qed.

Lemma keeps_installFrameworks `{host : Host} `{world : World} (frameworks : list string) :
  keeps keyedByName (fun _ => True) (installFrameworks frameworks).
Proof.
  unfold installFrameworks.
  apply (keeps_bind _ (fun _ => True)); [apply keeps_collectMissing |]. intros needs _.
  destruct needs as [| n needs];
    [apply keeps_reads; [apply preserves_ret | apply returns_any] |].
  apply (keeps_bind _ (Forall lowerNamed)).
  - apply keeps_reads;
      [apply preserves_downloadMissingFrameworks | apply downloadMissingFrameworks_lower].
  - intros fs Hfs.
    apply (keeps_bind _ (fun _ => True));
      [apply keeps_reads; [apply preserves_emit | apply returns_any] |].
    intros _ _. apply keeps_appendToCatalog. exact Hfs.
Qed.

(** a step that reads [this] and whose value does not matter *)
Ltac reads :=
  apply keeps_reads; [untouched | apply returns_any].

Lemma keeps_downloadAll `{host : Host} `{world : World} :
  keeps keyedByName (fun _ => True)
        (allFrameworks <- downloadAllFrameworks ;; appendToCatalog allFrameworks).
Proof.
  apply (keeps_bind _ (Forall lowerNamed)).
  - apply keeps_reads; [apply preserves_downloadAllFrameworks | apply downloadAllFrameworks_lower].
  - intros fs Hfs. apply keeps_appendToCatalog. exact Hfs.
Qed.

Lemma keeps_setup_required `{host : Host} `{world : World} (configs : IKubescapeConfig) :
  keeps keyedByName (fun _ => True) (setup_required configs).
Proof.
  unfold setup_required.
  destruct (requiredFrameworks configs) as [required |].
  - destruct (includesAll required); cbn [negb].
    + apply (keeps_bind _ (fun _ => True)); [reads | intros _ _; apply keeps_downloadAll].
    + apply (keeps_bind _ (fun _ => True)); [reads |]. intros _ _.
      apply (keeps_bind _ keyedByName); [apply keeps_getApi |]. intros a Ha.
      destruct (_frameworks a) as [c |]; [| reads].
      destruct (List.filter _ required); [reads | apply keeps_installFrameworks].
  - apply (keeps_bind _ (fun _ => True)); [reads | intros _ _; apply keeps_downloadAll].
Qed.

Lemma keeps_setup_scanFrameworks `{host : Host} (configs : IKubescapeConfig) :
  keeps keyedByName (fun _ => True) (setup_scanFrameworks configs).
Proof.
  unfold setup_scanFrameworks.
  apply (keeps_bind _ keyedByName); [apply keeps_getApi |]. intros a Ha.
  destruct (_frameworks a) as [c |]; [| reads].
  apply keeps_forEach. intros n. apply keeps_activate.
Qed.

Lemma keeps_setup_frameworkDir `{host : Host} `{world : World} (configs : IKubescapeConfig) :
  keeps keyedByName (fun _ => True) (setup_frameworkDir configs).
Proof.
  assert (Hset : forall d, keeps keyedByName (fun _ => True) (modifyApi (set_frameworkDir d)))
    by (intros d; apply keeps_modifyApi; intros a Ha; exact Ha).
  assert (Hfallback :
            keeps keyedByName (fun _ => True)
                  (fallback <- get_directory ;;
                   modifyApi (set_frameworkDir (Some fallback)))).
  { apply (keeps_bind _ (fun _ => True)); [reads | intros d _; apply Hset]. }
  unfold setup_frameworkDir.
  apply (keeps_bind _ (fun _ => True)).
  - destruct (frameworksDirectory configs) as [d |]; [| reads].
    destruct (String.eqb d EmptyString); [reads |].
    apply (keeps_bind _ (fun _ => True)); [reads | intros dir _; apply Hset].
  - intros _ _. apply (keeps_bind _ (fun _ => True)); [reads |]. intros a _.
    destruct (_frameworkDir a) as [d |].
    + destruct (0 <? String.length d)%nat.
      * apply (keeps_bind _ (fun _ => True)); [reads |]. intros _ _.
        apply keeps_tryCatch; [reads |]. intros e.
        apply (keeps_bind _ (fun _ => True)); [reads | intros _ _; exact Hfallback].
      * apply (keeps_bind _ (fun _ => True)); [reads | intros _ _; exact Hfallback].
    + apply (keeps_bind _ (fun _ => True)); [reads | intros _ _; exact Hfallback].
Qed.

(** what follows the reset of the catalog in [setup] *)
Lemma keeps_catalog_steps `{host : Host} `{world : World} (configs : IKubescapeConfig) :
  keeps keyedByName (fun _ => True)
        (setup_frameworkDir configs ;;
         installed <- getInstalledFrameworks ;;
         appendToCatalog installed ;;
         setup_required configs ;;
         a <- getApi ;;
         ui_debug ("Required frameworks: "
                   +:+ JsString.join " " (List.map name (frameworks a))) ;;
         setup_scanFrameworks configs ;;
         progress 5 (Some 5%nat) ;;
         a <- getApi ;;
         ui_debug ("Loaded frameworks " +:+ JsString.join "," (frameworksNames a))).
Proof.
  apply (keeps_bind _ (fun _ => True)); [apply keeps_setup_frameworkDir |]. intros _ _.
  apply (keeps_bind _ (Forall lowerNamed)).
  { apply keeps_reads;
      [apply preserves_getInstalledFrameworks | apply getInstalledFrameworks_lower]. }
  intros fs Hfs.
  apply (keeps_bind _ (fun _ => True)); [apply keeps_appendToCatalog; exact Hfs |].
  intros _ _.
  apply (keeps_bind _ (fun _ => True)); [apply keeps_setup_required |]. intros _ _.
  apply (keeps_bind _ (fun _ => True)); [reads |]. intros a _.
  apply (keeps_bind _ (fun _ => True)); [reads |]. intros _ _.
  apply (keeps_bind _ (fun _ => True)); [apply keeps_setup_scanFrameworks |]. intros _ _.
  apply (keeps_bind _ (fun _ => True)); [reads |]. intros _ _.
  apply (keeps_bind _ (fun _ => True)); [reads |]. intros a' _. reads.
Qed.

Lemma bind_Ok_inv {A B} (m : M A) (k : A -> M B) (st st' : St) (b : B) :
  bind m k st = (Ok b, st') -> exists a st1, m st = (Ok a, st1) /\ k a st1 = (Ok b, st').
Proof.
  unfold bind. destruct (m st) as [[a | e | e] st1]; try discriminate. eauto.
Qed.

Lemma setup_frameworks_keyed `{host : Host} `{world : World}
      (configs : IKubescapeConfig) (st st' : St) :
  setup_frameworks configs st = (Ok tt, st') -> keyedByName (api st').
Proof.
  unfold setup_frameworks. intros H.
  do 6 (apply bind_Ok_inv in H as (? & ? & _ & H)).
  apply bind_Ok_inv in H as (? & s & Hreset & H).
  destruct (keeps_catalog_steps configs s) as [HI _].
  - unfold modifyApi in Hreset. injection Hreset as _ <-.
    intros k f Hk. unfold catalogOf in Hk. cbn in Hk. rewrite lookup_empty in Hk. discriminate.
  - rewrite H in HI. exact HI.
Qed.

(** X25.  After a [setup] that ran and returned true, every framework of
    the catalog sits under its own name, and that name is a text in lower
    case: the three sources of the catalog (the files on disk, the
    selective and the bulk download) all give lower-case names, the merge
    files each framework under its name, and marking a framework active
    keeps its name. *)
Theorem setup_catalog_keyed_by_name `{host : Host} `{world : World}
        (configs : IKubescapeConfig) (abort : option AbortController) (st st' : St) :
  _isInitialized (api st) = false ->
  setup configs abort st = (Ok true, st') ->
  keyedByName (api st').
Proof.
  intros Hinit. unfold setup. mrun. rewrite Hinit. mrun.
  destruct (setup_needsUpdate configs _) as [[n | e | e] s1]; try discriminate.
  destruct (setup_install configs abort n s1) as [[go | e | e] s2]; try discriminate.
  destruct go; [| discriminate].
  destruct (setup_frameworks configs s2) as [[[] | e | e] s3] eqn:Hrun; try discriminate.
  mrun. intros H. injection H as <-.
  exact (setup_frameworks_keyed configs s2 s3 Hrun).
Qed.

Lemma setup_catalog_keyed_by_name_witness :
  keyedByName (host := Sample.linux)
    (api (snd (setup (host := Sample.linux) (world := Sample.installed)
                     Sample.config None Sample.fresh))).
Proof.
  apply (setup_catalog_keyed_by_name (host := Sample.linux) (world := Sample.installed)
           Sample.config None Sample.fresh).
  - reflexivity.
  - vm_compute. reflexivity.
Defined.

(** ** Downloads with a version that is none *)

Lemma compareVersions_invalid (a b : string) :
  Semver.validateAndParse a = None ->
  Semver.compareVersions a b = None /\ Semver.invalidArgument a b = a.
Proof.
  intros H. unfold Semver.compareVersions, Semver.invalidArgument. rewrite H.
  split; reflexivity.
Qed.

Lemma parsedDownload_invalid `{host : Host} (a : KubescapeApi) (vi : KubescapeVersion)
      (d : Download) :
  _versionInfo a = Some vi ->
  Semver.validateAndParse (version vi) = None ->
  parsedDownload a d = inl (notSemver (version vi)).
Proof.
  intros Hvi Hparse.
  destruct (compareVersions_invalid _ FORMAT_THRESHOLD Hparse) as [Hcmp Harg].
  unfold parsedDownload, parseDownload, get_version, compareVersionsM, notSemver. mrun.
  rewrite Hvi. mrun. rewrite Hcmp, Harg. reflexivity.
Qed.

(** once a callback has left its promise pending, a batch in which no
    subprocess fails never settles *)
Lemma settleDownloads_pending `{host : Host} (finished : list Download) :
  forall (st : St) (vi : KubescapeVersion) (e0 : JsError),
    _versionInfo (api st) = Some vi ->
    Semver.validateAndParse (version vi) = None ->
    (forall x, In x finished -> exec_err (dl_result x) = false) ->
    fst (settleDownloads finished (Some e0) st) = Uncaught e0.
Proof.
  induction finished as [| d rest IH]; intros st vi e0 Hvi Hparse Hall; simpl.
  - reflexivity.
  - mrun. rewrite downloadCallback_run. cbn [api]. unfold endsOn.
    rewrite (Hall d (or_introl eq_refl)).
    rewrite (parsedDownload_invalid _ vi d Hvi Hparse).
    apply (IH _ vi e0); [exact Hvi | exact Hparse |].
    intros x Hx. apply Hall. right. exact Hx.
Qed.

(** X26.  The parsing of a framework download starts with the comparison
    of the detected version with the format threshold.  When the version of
    the API object is no version for [compareVersions] (the placeholder
    "unknown" of a tool that printed no version is none), the comparison
    throws its Error inside the callback of [cp.exec].  A selective
    download whose subprocess failed has rejected its promise before, with
    the failure of the download; one whose subprocess succeeded leaves its
    promise pending, whatever it printed.  So a batch of selective
    downloads in which no subprocess fails never settles, and neither does
    a bulk download whose subprocess succeeded. *)
Theorem downloads_with_unparsed_version_escape `{host : Host} `{world : World}
        (st : St) (vi : KubescapeVersion) :
  _versionInfo (api st) = Some vi ->
  Semver.validateAndParse (version vi) = None ->
  let e := notSemver (version vi) in
  (forall d,
      fst (downloadCallback d st)
      = Ok (if exec_err (dl_result d)
            then RejectedFirst (downloadFailure d) (Some e)
            else Escaped e))
  /\
  (forall d rest,
      (forall x, In x (d :: rest) -> exec_err (dl_result x) = false) ->
      fst (settleDownloads (d :: rest) None st) = Uncaught e)
  /\
  (forall r, exec_err r = false -> fst (downloadAllCallback r st) = Uncaught e)
  /\
  Semver.validateAndParse (version defaultKubescapeVersion) = None.
Proof.
  intros Hvi Hparse e.
  destruct (compareVersions_invalid _ FORMAT_THRESHOLD Hparse) as [Hcmp Harg].
  split; [| split; [| split]].
  - intros d. rewrite downloadCallback_run. unfold endsOn. cbn [fst].
    rewrite (parsedDownload_invalid _ vi d Hvi Hparse). reflexivity.
  - intros d rest Hall. simpl. mrun. rewrite downloadCallback_run. cbn [api].
    unfold endsOn. rewrite (Hall d (or_introl eq_refl)).
    rewrite (parsedDownload_invalid _ vi d Hvi Hparse).
    apply (settleDownloads_pending rest _ vi); [exact Hvi | exact Hparse |].
    intros x Hx. apply Hall. right. exact Hx.
  - intros r Herr. unfold downloadAllCallback, compareVersionsM. mrun. rewrite Hvi. mrun.
    rewrite Herr. mrun. rewrite Hvi. mrun. rewrite Hcmp, Harg. reflexivity.
  - exact placeholder_not_semver.
Qed.

Lemma downloads_with_unparsed_version_escape_witness :
  fst (downloadCallback (host := Sample.linux) Sample.nsaFailedPlainly Sample.undetected)
  = Ok (RejectedFirst (downloadFailure Sample.nsaFailedPlainly) (Some (notSemver "unknown")))
  /\
  fst (settleDownloads (host := Sample.linux) [Sample.mitreSucceeded] None Sample.undetected)
  = Uncaught (notSemver "unknown")
  /\
  fst (downloadAllCallback (host := Sample.linux)
                           (mkExec false EmptyString Sample.jsonStderr 0) Sample.undetected)
  = Uncaught (notSemver "unknown").
Proof.
  destruct (downloads_with_unparsed_version_escape (host := Sample.linux)
              (world := Sample.installed) Sample.undetected defaultKubescapeVersion
              eq_refl eq_refl) as (Hcallback & Hbatch & Hbulk & _).
  split; [| split].
  - exact (Hcallback Sample.nsaFailedPlainly).
  - apply Hbatch. intros x [<- | []]. reflexivity.
  - apply Hbulk. reflexivity.
Defined.

(** ** An installation that is up to date *)

Lemma addsNo_setup_needsUpdate_pinned `{host : Host} `{world : World}
      (configs : IKubescapeConfig) :
  config_version configs <> "latest" ->
  addsNo isNetworkEvent (setup_needsUpdate configs).
Proof.
  intros Hv. apply String.eqb_neq in Hv.
  unfold setup_needsUpdate, getKubescapeVersion, TXT_LATEST. quiet.
Qed.

(** X27.  With a pinned version that the installed tool already has,
    [setup] works offline.  When the first three steps find that no update
    is needed, the installation is skipped, and the whole of [setup],
    framework provisioning included, adds no network request to the trace:
    no query of the registry, no download. *)
Theorem setup_up_to_date_stays_offline `{host : Host} `{world : World}
        (configs : IKubescapeConfig) (abort : option AbortController) (st s1 : St) :
  config_version configs <> "latest" ->
  setup_needsUpdate configs
    (mkSt (api st) (trace st ++ [EvProgressBegin "Initializing kubescape HIHI" None]))
  = (Ok false, s1) ->
  List.filter isNetworkEvent (trace (snd (setup configs abort st)))
  = List.filter isNetworkEvent (trace st).
Proof.
  intros Hv Hrun.
  pose proof (addsNo_setup_needsUpdate_pinned configs Hv
                (mkSt (api st)
                      (trace st ++ [EvProgressBegin "Initializing kubescape HIHI" None])))
    as Hquiet.
  rewrite Hrun in Hquiet. cbn [snd trace] in Hquiet.
  rewrite List.filter_app, app_nil_r in Hquiet.
  unfold setup. mrun.
  destruct (_isInitialized (api st)); mrun.
  - cbn. rewrite List.filter_app, app_nil_r. reflexivity.
  - rewrite Hrun. unfold setup_install. mrun.
    pose proof (addsNo_setup_frameworks isNetworkEvent (fun e H => H) configs s1) as Hrest.
    destruct (setup_frameworks configs s1) as [[[] | e | e] s2]; cbn [snd] in Hrest; mrun;
      cbn [snd trace]; congruence.
Qed.

Lemma setup_up_to_date_stays_offline_witness :
  List.filter isNetworkEvent
    (trace (snd (setup (host := Sample.linux) (world := Sample.installed)
                       Sample.config None Sample.fresh)))
  = List.filter isNetworkEvent (trace Sample.fresh).
Proof.
  apply (setup_up_to_date_stays_offline (host := Sample.linux) (world := Sample.installed)
           Sample.config None Sample.fresh
           (snd (setup_needsUpdate (host := Sample.linux) (world := Sample.installed)
                   Sample.config
                   (mkSt (api Sample.fresh)
                         (trace Sample.fresh
                          ++ [EvProgressBegin "Initializing kubescape HIHI" None]))))).
  - discriminate.
  - vm_compute. reflexivity.
Defined.
